(** * Conway's Game of Life: a shallow embedding of [game.py] and [main.py]

    The repository holds two implementations of the same simulation:
    - [game.py]: class [Grid], a matrix of [Cell] objects that is stepped
      by [update_grid_full] into a freshly allocated matrix;
    - [main.py]: class [Life], two tables of booleans ([cells_table] and
      [prev_cells_table]) where [apply_rules] rewrites [cells_table] in
      place while counting neighbours in [prev_cells_table].

    Python integers are modelled as [Z], Python lists as [list], and a
    call that may raise as a value of [result].  The rows of the tables
    of [main.py] are mutable list objects that can be shared, so [Life]
    carries an explicit store of row objects.  The handler that
    [main.py] installs for the signal of a window change runs between
    two bytecodes of the program, so the loop of [run] takes the runs
    of the handler at each point where they can make a difference. *)

From Stdlib Require Import ZArith Lia Ascii.
From stdpp Require Import base tactics option list.

Local Open Scope Z_scope.

(** ** Python values and control *)

(** The exceptions the modelled code can raise. *)
Inductive exn : Type :=
  | IndexError
  | OSError
  | SystemExit
  | TypeError
  | ValueError
  | ZeroDivisionError.

(** The outcome of a call: a value, or a raised exception. *)
Inductive result (A : Type) : Type :=
  | Ok (a : A)
  | Raise (e : exn).

Arguments Ok {A} a.
Arguments Raise {A} e.

#[global] Instance result_ret : MRet result := fun A a => Ok a.
#[global] Instance result_bind : MBind result := fun A B f m =>
  match m with
  | Ok a => f a
  | Raise e => Raise e
  end.

(** [for x in xs: s = body(s, x)], stopping at the first exception. *)
Fixpoint for_each {A S : Type} (xs : list A) (body : S -> A -> result S)
    (s : S) : result S :=
  match xs with
  | [] => Ok s
  | x :: xs' => s' ← body s x; for_each xs' body s'
  end.

(** [[f(x) for x in xs]], stopping at the first exception. *)
Fixpoint map_result {A B : Type} (f : A -> result B) (xs : list A)
    : result (list B) :=
  match xs with
  | [] => Ok []
  | x :: xs' => y ← f x; ys ← map_result f xs'; Ok (y :: ys)
  end.

(** [range(n)]: empty when [n <= 0]. *)
Definition py_range (n : Z) : list Z :=
  map Z.of_nat (seq 0 (Z.to_nat n)).

(** [range(start, stop, step)] for [step <> 0]; Python raises
    [ValueError] when [step = 0]. *)
Definition py_range3 (start stop step : Z) : result (list Z) :=
  if step =? 0 then Raise ValueError
  else
    let count :=
      if 0 <? step
      then (if start <? stop then (stop - start + step - 1) / step else 0)
      else (if stop <? start then (start - stop - step - 1) / (- step) else 0) in
    Ok (map (fun k => start + Z.of_nat k * step) (seq 0 (Z.to_nat count))).

(** [l[i]]: a negative index counts from the end of the list, and an
    index outside [-len(l), len(l)) raises [IndexError]. *)
Definition py_getitem {A : Type} (l : list A) (i : Z) : result A :=
  let n := Z.of_nat (length l) in
  let j := if i <? 0 then i + n else i in
  if (j <? 0) || (n <=? j) then Raise IndexError
  else match l !! Z.to_nat j with
       | Some a => Ok a
       | None => Raise IndexError
       end.

(** [l[i] = v], with the same index rules as [py_getitem]. *)
Definition py_setitem {A : Type} (l : list A) (i : Z) (v : A) : result (list A) :=
  let n := Z.of_nat (length l) in
  let j := if i <? 0 then i + n else i in
  if (j <? 0) || (n <=? j) then Raise IndexError
  else Ok (<[Z.to_nat j := v]> l).

(** [l[i:j]]: both bounds are shifted by [len(l)] when negative and then
    clamped to [0, len(l)]; slicing never raises. *)
Definition py_clamp (n i : Z) : Z :=
  let i' := if i <? 0 then i + n else i in
  Z.max 0 (Z.min n i').

Definition py_slice {A : Type} (l : list A) (i j : Z) : list A :=
  let n := Z.of_nat (length l) in
  let lo := py_clamp n i in
  let hi := py_clamp n j in
  take (Z.to_nat (hi - lo)) (drop (Z.to_nat lo) l).

(** [l[i:] = v]: the elements from the clamped bound on are replaced by
    those of [v]. *)
Definition py_set_tail {A : Type} (l : list A) (i : Z) (v : list A) : list A :=
  take (Z.to_nat (py_clamp (Z.of_nat (length l)) i)) l ++ v.

(** [True] counts as 1 and [False] as 0 under [sum]. *)
Definition int_of_bool (b : bool) : Z := if b then 1 else 0.

Definition py_sum (l : list Z) : Z := foldr Z.add 0 l.

(** ** The neighbour counter of the specification

    The eight relative offsets of section 4.2, and the count that treats
    a coordinate outside the matrix as absent.  These two definitions
    follow the words of the specification; the code of both programs is
    compared with them below. *)

Definition neighbour_offsets : list (Z * Z) :=
  [(-1, -1); (-1, 0); (-1, 1); (0, -1); (0, 1); (1, -1); (1, 0); (1, 1)].

(** The state of the cell at row [r] and column [c] of a matrix of
    booleans; a coordinate outside the matrix holds no live cell.  There
    is no wrap-around: a negative coordinate is outside. *)
Definition alive_at (m : list (list bool)) (r c : Z) : bool :=
  if (r <? 0) || (c <? 0) then false
  else match m !! Z.to_nat r with
       | Some row => default false (row !! Z.to_nat c)
       | None => false
       end.

Definition count_live_neighbors (m : list (list bool)) (r c : Z) : Z :=
  py_sum (map (fun d => int_of_bool (alive_at m (r + d.1) (c + d.2)))
              neighbour_offsets).

(** The bounds of a matrix of [w] columns and [h] rows. *)
Definition in_bounds (w h r c : Z) : bool :=
  (0 <=? r) && (r <? h) && (0 <=? c) && (c <? w).

(** What examining one coordinate finds: nothing outside the bounds, the
    state of the cell inside. *)
Definition probe (m : list (list bool)) (w h r c : Z) : option bool :=
  if in_bounds w h r c then Some (alive_at m r c) else None.

(** The four rules of the game, as section 4.3 words them. *)
Definition life_rule (alive : bool) (n : Z) : bool :=
  if alive then (n =? 2) || (n =? 3) else (n =? 3).

(** A matrix has [h] rows of [w] cells each. *)
Definition has_shape {A : Type} (m : list (list A)) (w h : nat) : Prop :=
  length m = h /\ Forall (fun row => length row = w) m.

(** ** [game.py]: class [Grid] *)

Module Game.

(** [class Cell]: one attribute, [alive].  [randomize_grid] stores the
    integers 0 and 1 there; they behave as [False] and [True] in every
    use the class makes of them. *)
Record Cell : Type := { alive : bool }.

Record Grid : Type := {
  x_size : Z;
  y_size : Z;
  cells : list (list Cell)
}.

(** [[[Cell() for i in range(x_size)] for i in range(y_size)]] *)
Definition fresh_cells (x_size y_size : Z) : list (list Cell) :=
  map (fun _ => map (fun _ => {| alive := false |}) (py_range x_size))
      (py_range y_size).

(** [Grid.__init__]: no check is made on the two sizes. *)
Definition init (x_size y_size : Z) : result Grid :=
  Ok {| x_size := x_size; y_size := y_size;
        cells := fresh_cells x_size y_size |}.

(** [Grid.get_cell] is declared as a property whose getter takes two
    more parameters than a property getter receives: evaluating
    [g.get_cell] already raises [TypeError], whatever follows it. *)
Definition get_cell (g : Grid) (x y : Z) : result Cell :=
  Raise TypeError.

(** [self.cells[y][x].alive = v] *)
Definition set_alive (cs : list (list Cell)) (x y : Z) (v : bool)
    : result (list (list Cell)) :=
  row ← py_getitem cs y;
  _ ← py_getitem row x;
  row' ← py_setitem row x {| alive := v |};
  py_setitem cs y row'.

(** [Grid.flip_cell] *)
Definition flip_cell (g : Grid) (x y : Z) : result Grid :=
  row ← py_getitem (cells g) y;
  c ← py_getitem row x;
  cs ← set_alive (cells g) x y (negb (alive c));
  Ok {| x_size := x_size g; y_size := y_size g; cells := cs |}.

(** [Grid.get_neighbours]: the inner loop over [x] for one row [y]. *)
Definition get_neighbours_row (g : Grid) (_x _y y : Z)
    (l : list (option bool)) : result (list (option bool)) :=
  for_each [_x - 1; _x; _x + 1] (fun l x =>
    if (_y =? y) && (_x =? x) then Ok l
    else if (x <? 0) || (x =? x_size g) then Ok (l ++ [None])
    else
      row ← py_getitem (cells g) y;
      c ← py_getitem row x;
      Ok (l ++ [Some (alive c)])) l.

(** [Grid.get_neighbours] *)
Definition get_neighbours (g : Grid) (_x _y : Z) : result (list (option bool)) :=
  for_each [_y - 1; _y; _y + 1] (fun l y =>
    if (y <? 0) || (y =? y_size g) then Ok (l ++ [None; None; None])
    else get_neighbours_row g _x _y y l) [].

(** [sum(i if i is not None else 0 for i in neighbours)] *)
Definition sum_neighbours (neighbours : list (option bool)) : Z :=
  py_sum (map (fun i => match i with
                        | Some b => int_of_bool b
                        | None => 0
                        end) neighbours).

(** The body of the two loops of [update_grid_full], for one cell. *)
Definition update_cell (g : Grid) (y x : Z) (_cells : list (list Cell))
    : result (list (list Cell)) :=
  neighbours ← get_neighbours g x y;
  row ← py_getitem (cells g) y;
  c ← py_getitem row x;
  if alive c then
    if (2 <=? sum_neighbours neighbours) && (sum_neighbours neighbours <? 4)
    then set_alive _cells x y true
    else Ok _cells
  else
    if sum_neighbours neighbours =? 3
    then set_alive _cells x y true
    else Ok _cells.

(** [Grid.update_grid_full] *)
Definition update_grid_full (g : Grid) : result Grid :=
  _cells ← for_each (py_range (y_size g)) (fun _cells y =>
              for_each (py_range (x_size g)) (fun _cells x =>
                update_cell g y x _cells) _cells)
            (fresh_cells (x_size g) (y_size g));
  Ok {| x_size := x_size g; y_size := y_size g; cells := _cells |}.

(** [Grid.randomize_grid]: [getrandbits(1)] is drawn once per cell, row
    by row; [bits] is the sequence of bits it returns. *)
Fixpoint randomize_rows (cs : list (list Cell)) (bits : nat -> bool)
    : list (list Cell) :=
  match cs with
  | [] => []
  | row :: cs' =>
      map (fun k => {| alive := bits k |}) (seq 0 (length row))
      :: randomize_rows cs' (fun k => bits (length row + k)%nat)
  end.

Definition randomize_grid (g : Grid) (bits : nat -> bool) : Grid :=
  {| x_size := x_size g; y_size := y_size g;
     cells := randomize_rows (cells g) bits |}.

(** The matrix of booleans a grid stands for. *)
Definition matrix (g : Grid) : list (list bool) :=
  map (map alive) (cells g).

(** The sizes recorded in the grid agree with the stored matrix.  Every
    grid built by [init] satisfies this, and every method keeps it. *)
Definition wf (g : Grid) : Prop :=
  has_shape (cells g) (Z.to_nat (x_size g)) (Z.to_nat (y_size g)).

(** [Grid.get_size] *)
Definition get_size (g : Grid) : Z * Z := (x_size g, y_size g).

(** The characters the methods write: line feed, backspace, escape. *)
Definition line_feed : ascii := ascii_of_nat 10.
Definition backspace : ascii := ascii_of_nat 8.
Definition escape : ascii := ascii_of_nat 27.

(** [Grid.print_grid]: the characters written to [stdout], one ['X'] or
    [' '] per cell and a line feed after every row. *)
Definition print_grid (g : Grid) : list ascii :=
  concat (map (fun y =>
                 map (fun x => if alive x then "X"%char else " "%char) y
                 ++ [line_feed])
              (cells g)).

(** [Grid.clear_grid]: for each of [y_size] lines, ['\b \b'] once per
    column and then the sequence that moves the cursor up a line. *)
Definition clear_grid (g : Grid) : list ascii :=
  concat (map (fun _ =>
                 concat (map (fun _ => [backspace; " "%char; backspace])
                             (py_range (x_size g)))
                 ++ [escape; "["%char; "F"%char])
              (py_range (y_size g))).

(** The loop at the end of the file, cut after [n] passes: the grid it
    reaches and the characters written since the loop began. *)
Fixpoint main_loop (n : nat) (g : Grid) (written : list ascii)
    : result (Grid * list ascii) :=
  match n with
  | O => Ok (g, written)
  | S n' =>
      g' ← update_grid_full g;
      main_loop n' g' (written ++ print_grid g ++ clear_grid g')
  end.

(** The script under [if __name__ == '__main__'], for the two sizes
    read from the input: [bits] is the sequence [getrandbits(1)]
    returns.  The line printed before the sizes are read is left out. *)
Definition main (x y : Z) (bits : nat -> bool) (n : nat)
    : result (Grid * list ascii) :=
  g ← init x y;
  main_loop n (randomize_grid g bits) [].


End Game.

(** ** [main.py]: class [Life] *)

Module Main.

(** A row of a table is a mutable list object; a table is a list of the
    addresses of its rows, so that two entries of a table (or of two
    tables) can be the same object. *)
Definition loc : Type := nat.

Record Life : Type := {
  width : Z;
  height : Z;
  clear_screen : bool;
  store : list (list bool);
  cells_table : list loc;
  prev_cells_table : list loc;
  start_time : Z;
  frame_count : Z;
  should_regenerate_screen : bool;
  new_width : option Z;
  new_height : option Z
}.

(** Field updates. *)
Definition set_store (st : Life) (s : list (list bool)) : Life :=
  {| width := width st; height := height st; clear_screen := clear_screen st;
     store := s; cells_table := cells_table st;
     prev_cells_table := prev_cells_table st;
     start_time := start_time st; frame_count := frame_count st;
     should_regenerate_screen := should_regenerate_screen st;
     new_width := new_width st; new_height := new_height st |}.

Definition set_tables (st : Life) (s : list (list bool)) (cur prev : list loc)
    : Life :=
  {| width := width st; height := height st; clear_screen := clear_screen st;
     store := s; cells_table := cur; prev_cells_table := prev;
     start_time := start_time st; frame_count := frame_count st;
     should_regenerate_screen := should_regenerate_screen st;
     new_width := new_width st; new_height := new_height st |}.

Definition set_size (st : Life) (w h : Z) : Life :=
  {| width := w; height := h; clear_screen := clear_screen st;
     store := store st; cells_table := cells_table st;
     prev_cells_table := prev_cells_table st;
     start_time := start_time st; frame_count := frame_count st;
     should_regenerate_screen := should_regenerate_screen st;
     new_width := new_width st; new_height := new_height st |}.

Definition set_pending (st : Life) (flag : bool) (w h : option Z) : Life :=
  {| width := width st; height := height st; clear_screen := clear_screen st;
     store := store st; cells_table := cells_table st;
     prev_cells_table := prev_cells_table st;
     start_time := start_time st; frame_count := frame_count st;
     should_regenerate_screen := flag;
     new_width := w; new_height := h |}.

Definition set_clock (st : Life) (t : Z) (n : Z) : Life :=
  {| width := width st; height := height st; clear_screen := clear_screen st;
     store := store st; cells_table := cells_table st;
     prev_cells_table := prev_cells_table st;
     start_time := t; frame_count := n;
     should_regenerate_screen := should_regenerate_screen st;
     new_width := new_width st; new_height := new_height st |}.

(** The row object at an address.  Tables only hold addresses handed
    out by [alloc], so the default is never used. *)
Definition row_at (s : list (list bool)) (l : loc) : list bool :=
  default [] (s !! l).

(** A new list object. *)
Definition alloc (s : list (list bool)) (row : list bool)
    : list (list bool) * loc :=
  (s ++ [row], length s).

(** The matrix of booleans a table stands for. *)
Definition matrix (s : list (list bool)) (table : list loc) : list (list bool) :=
  map (row_at s) table.

(** [os.get_terminal_size()]: [term] is the size of the terminal when
    the call is made, columns first, or [None] when there is no terminal
    to ask and the call raises [OSError]. *)
Definition get_terminal_size (term : option (Z * Z)) : result (Z * Z) :=
  match term with
  | Some size => Ok size
  | None => Raise OSError
  end.

(** The sizes given, or, when one of them is [None], those of the
    terminal less one in each direction. *)
Definition default_size (term : option (Z * Z)) (w h : option Z)
    : result (Z * Z) :=
  match w, h with
  | Some w', Some h' => Ok (w', h')
  | _, _ => size ← get_terminal_size term; Ok (size.1 - 1, size.2 - 1)
  end.

(** [Life.__init__].  [[[False] * width] * height] builds one row object
    and a table whose [height] entries all are that object; the two
    tables get one row object each.  [term] is what the terminal
    answers and [now] the reading of the clock.  No check is made on
    the sizes. *)
Definition init (term : option (Z * Z)) (now : Z)
    (start_width start_height : option Z) (clear_screen : bool) : result Life :=
  size ← default_size term start_width start_height;
  let '(w, h) := size in
  let '(s1, l1) := alloc [] (replicate (Z.to_nat w) false) in
  let cur := replicate (Z.to_nat h) l1 in
  let '(s2, l2) := alloc s1 (replicate (Z.to_nat w) false) in
  let prev := replicate (Z.to_nat h) l2 in
  Ok {| width := w; height := h; clear_screen := clear_screen;
        store := s2; cells_table := cur; prev_cells_table := prev;
        start_time := now; frame_count := 0;
        should_regenerate_screen := false;
        new_width := None; new_height := None |}.

(** [Life.update_window_size], when no signal is handled while it
    runs: the request is only recorded. *)
Definition update_window_size (term : option (Z * Z)) (st : Life)
    (w h : option Z) : result Life :=
  size ← default_size term w h;
  Ok (set_pending st true (Some size.1) (Some size.2)).

(** [table[r][c]] *)
Definition read_cell (s : list (list bool)) (table : list loc) (r c : Z)
    : result bool :=
  l ← py_getitem table r;
  py_getitem (row_at s l) c.

(** [table[r][c] = v] *)
Definition write_cell (s : list (list bool)) (table : list loc) (r c : Z)
    (v : bool) : result (list (list bool)) :=
  l ← py_getitem table r;
  row' ← py_setitem (row_at s l) c v;
  Ok (<[l := row']> s).

Definition neighbour_indices (row_idx column_idx : Z) : list (Z * Z) :=
  [ (row_idx - 1, column_idx);
    (row_idx, column_idx + 1);
    (row_idx + 1, column_idx);
    (row_idx, column_idx - 1);
    (row_idx - 1, column_idx - 1);
    (row_idx - 1, column_idx + 1);
    (row_idx + 1, column_idx - 1);
    (row_idx + 1, column_idx + 1) ].

(** [0 <= row_idx < self.height and 0 <= column_idx < self.width] *)
Definition in_table (st : Life) (p : Z * Z) : bool :=
  (0 <=? p.1) && (p.1 <? height st) && (0 <=? p.2) && (p.2 <? width st).

(** The values the generator of [get_alive_neighbours] yields. *)
Fixpoint read_cells (s : list (list bool)) (table : list loc)
    (ps : list (Z * Z)) : result (list bool) :=
  match ps with
  | [] => Ok []
  | p :: ps' =>
      b ← read_cell s table p.1 p.2;
      bs ← read_cells s table ps';
      Ok (b :: bs)
  end.

(** [Life.get_alive_neighbours] *)
Definition get_alive_neighbours (st : Life) (row_idx column_idx : Z)
    : result Z :=
  bs ← read_cells (store st) (prev_cells_table st)
        (filter (fun p => in_table st p) (neighbour_indices row_idx column_idx));
  Ok (py_sum (map int_of_bool bs)).

(** [Life.should_continue_running] *)
Definition should_continue_running (st : Life) : bool := true.

(** The body of the inner loop of [apply_rules].  The iterator of
    [enumerate(row)] hands out [row[column_idx]] as the row object is at
    that moment, and is exhausted once [column_idx] reaches its length. *)
Definition apply_rules_cell (row_idx : Z) (row : loc) (st : Life)
    (column_idx : nat) : result Life :=
  match (row_at (store st) row !! column_idx : option bool) with
  | None => Ok st
  | Some is_alive =>
      alive_neighbours_count ←
        get_alive_neighbours st row_idx (Z.of_nat column_idx);
      if is_alive then
        if alive_neighbours_count <=? 1 then
          s ← write_cell (store st) (cells_table st) row_idx
                (Z.of_nat column_idx) false;
          Ok (set_store st s)
        else if 4 <=? alive_neighbours_count then
          s ← write_cell (store st) (cells_table st) row_idx
                (Z.of_nat column_idx) false;
          Ok (set_store st s)
        else Ok st
      else
        if alive_neighbours_count =? 3 then
          s ← write_cell (store st) (cells_table st) row_idx
                (Z.of_nat column_idx) true;
          Ok (set_store st s)
        else Ok st
  end.

(** The body of the outer loop: one row object, visited left to right. *)
Definition apply_rules_row (st : Life) (entry : nat * loc) : result Life :=
  for_each (seq 0 (length (row_at (store st) entry.2)))
    (apply_rules_cell (Z.of_nat entry.1) entry.2) st.

(** [enumerate(l)] *)
Definition enumerate {A : Type} (l : list A) : list (nat * A) :=
  zip (seq 0 (length l)) l.

(** [Life.apply_rules] *)
Definition apply_rules (st : Life) : result Life :=
  for_each (enumerate (cells_table st)) apply_rules_row st.

(** [copy.deepcopy(table)]: every row object is copied once; an object
    met a second time is replaced by the copy made the first time. *)
Fixpoint deepcopy_rows (table : list loc) (memo : list (loc * loc))
    (s : list (list bool)) : list (list bool) * list loc :=
  match table with
  | [] => (s, [])
  | l :: table' =>
      match list_find (fun e : loc * loc => e.1 = l) memo with
      | Some (_, (_, l')) =>
          let '(s', copy) := deepcopy_rows table' memo s in
          (s', l' :: copy)
      | None =>
          let '(s1, l') := alloc s (row_at s l) in
          let '(s', copy) := deepcopy_rows table' ((l, l') :: memo) s1 in
          (s', l' :: copy)
      end
  end.

Definition deepcopy (s : list (list bool)) (table : list loc)
    : list (list bool) * list loc :=
  deepcopy_rows table [] s.

(** [random.choices([True, False], k=k)]: [draws] is the sequence of
    values the generator hands out; a negative [k] gives the empty list. *)
Definition random_choices (draws : nat -> bool) (k : Z) : list bool :=
  map draws (seq 0 (Z.to_nat k)).

(** The list comprehension of [randomize_table]: one new row object per
    start index. *)
Fixpoint slice_rows (s : list (list bool)) (random_values : list bool)
    (w : Z) (starts : list Z) : list (list bool) * list loc :=
  match starts with
  | [] => (s, [])
  | i :: starts' =>
      let '(s1, l) := alloc s (py_slice random_values i (i + w)) in
      let '(s', table) := slice_rows s1 random_values w starts' in
      (s', l :: table)
  end.

(** [Life.randomize_table] *)
Definition randomize_table (st : Life) (draws : nat -> bool) : result Life :=
  let full_table_size := width st * height st in
  let random_values := random_choices draws full_table_size in
  starts ← py_range3 0 full_table_size (width st);
  let '(s1, cur) := slice_rows (store st) random_values (width st) starts in
  let '(s2, prev) := deepcopy s1 cur in
  Ok (set_tables st s2 cur prev).

(** Truth value of an [Optional[int]]: [None] and [0] are false. *)
Definition truthy (o : option Z) : bool :=
  match o with
  | Some n => negb (n =? 0)
  | None => false
  end.

(** [self.prev_cells_table = copy.deepcopy(self.cells_table)] *)
Definition save_buffer (st : Life) : Life :=
  let '(s, prev) := deepcopy (store st) (cells_table st) in
  set_tables st s (cells_table st) prev.

(** A single iteration of the game: [apply_rules], then the copy of the
    buffer. *)
Definition step (st : Life) : result Life :=
  st1 ← apply_rules st;
  Ok (save_buffer st1).

(** What a pass of the loop of [run] takes from outside the object: the
    random source, the reading of the clock when a change of size is
    applied, the reading of the clock when the table is printed, and the
    text of the frame rate line, whose digits come from a division of
    floating-point numbers. *)
Record world : Type := {
  draws : nat -> bool;
  time_at_resize : Z;
  time_at_print : Z;
  frame_info_output : list ascii
}.

(** [Life.print_cells_table]: the rows of characters sent to the
    terminal (after the escape sequence that clears the screen, when
    [clear_screen] is set).  The division for the frame rate raises
    [ZeroDivisionError] when no time has passed since [start_time], and
    [output_rows[0]] raises [IndexError] when there is no row. *)
Definition print_cells_table (st : Life) (now : Z) (frame_info_output : list ascii)
    : result (list (list ascii)) :=
  output_rows ←
    map_result (fun row_idx =>
      map_result (fun column_idx =>
        b ← read_cell (store st) (cells_table st) row_idx column_idx;
        Ok (if b : bool then "X"%char else " "%char))
      (py_range (width st)))
    (py_range (height st));
  if now - start_time st =? 0 then Raise ZeroDivisionError
  else
    row ← py_getitem output_rows 0;
    py_setitem output_rows 0
      (py_set_tail row (width st - Z.of_nat (length frame_info_output))
         frame_info_output).

(** *** The signal of a change of the window

    [setup_sigwinch_handler] installs [sigwinch_handler], which calls
    [update_window_size(width=None, height=None)].  The interpreter
    runs the handler of a signal between two bytecodes of whatever code
    is running, the handler itself included.  A [handler_run] is one
    run of the handler: what the terminal answers to it, and the runs
    that interrupt it after each of its first three statements (a run
    that interrupts it before the first one has the effect of a run
    that comes before it). *)
#[local] Unset Elimination Schemes.
Inductive handler_run : Type :=
  | HandlerRun (term : option (Z * Z))
               (after_read after_flag after_width : list handler_run).
#[local] Set Elimination Schemes.

(** One run of the handler: the terminal is read, then the three
    fields are written one after the other. *)
Fixpoint run_handler (h : handler_run) (st : Life) : result Life :=
  match h with
  | HandlerRun term after_read after_flag after_width =>
      let fix interrupted (hs : list handler_run) (st : Life) : result Life :=
        match hs with
        | [] => Ok st
        | h' :: hs' => st' ← run_handler h' st; interrupted hs' st'
        end in
      size ← default_size term None None;
      st1 ← interrupted after_read st;
      st2 ← interrupted after_flag
              (set_pending st1 true (new_width st1) (new_height st1));
      st3 ← interrupted after_width
              (set_pending st2 (should_regenerate_screen st2)
                 (Some size.1) (new_height st2));
      Ok (set_pending st3 (should_regenerate_screen st3)
            (new_width st3) (Some size.2))
  end.

(** The runs of the handler that take place at one point of the
    program, in the order in which they start. *)
Definition deliver (hs : list handler_run) (st : Life) : result Life :=
  for_each hs (fun st h => run_handler h st) st.

(** A run of the handler that no other run interrupts. *)
Definition window_change (term : option (Z * Z)) : handler_run :=
  HandlerRun term [] [] [].

(** The runs of the handler during one pass of the loop of [run], by
    the point of the pass where they take place.  The handler reads no
    field of the object and writes [should_regenerate_screen],
    [new_width] and [new_height], which the loop reads in lines 173 to
    175 and writes in lines 178 and 179 and nowhere else; so the points
    that can be told apart are those before each of these reads and
    writes and before each call that can raise. *)
Record interruptions : Type := {
  before_guard : list handler_run;
  in_guard : list handler_run;
  before_width : list handler_run;
  before_height : list handler_run;
  before_randomize : list handler_run;
  before_clear_width : list handler_run;
  before_clear_height : list handler_run;
  before_apply_rules : list handler_run;
  before_print : list handler_run
}.

(** A pass during which no signal is handled. *)
Definition quiet : interruptions :=
  {| before_guard := []; in_guard := []; before_width := [];
     before_height := []; before_randomize := []; before_clear_width := [];
     before_clear_height := []; before_apply_rules := []; before_print := [] |}.

(** No signal is handled while the guard of line 173 is evaluated, from
    the end of the pass before. *)
Definition guard_undisturbed (i : interruptions) : Prop :=
  before_guard i = [] /\ in_guard i = [].

(** No signal is handled while the branch of lines 174 to 182 runs. *)
Definition branch_undisturbed (i : interruptions) : Prop :=
  before_width i = [] /\ before_height i = [] /\ before_randomize i = [] /\
  before_clear_width i = [] /\ before_clear_height i = [].

(** No signal is handled in the rest of the pass. *)
Definition step_undisturbed (i : interruptions) : Prop :=
  before_apply_rules i = [] /\ before_print i = [].

(** The first part of the loop body of [run], lines 173 to 182: a
    pending change of size.  The guard reads [new_width] and, when that
    is true, [new_height]; lines 174 and 175 read the two fields again;
    lines 178 and 179 clear them.  [now] is the reading of the clock in
    line 181.  The handler neither reads nor writes [width] and
    [height], so the two values read are stored together, once the
    signals that precede [randomize_table] are handled.  A size that is
    [None] when line 174 or 175 reads it makes the product in
    [randomize_table] raise [TypeError]. *)
Definition handle_resize (st : Life) (i : interruptions) (draws : nat -> bool)
    (now : Z) : result Life :=
  st ← deliver (before_guard i) st;
  if truthy (new_width st) then
    st ← deliver (in_guard i) st;
    if truthy (new_height st) then
      st ← deliver (before_width i) st;
      let w := new_width st in
      st ← deliver (before_height i) st;
      let h := new_height st in
      st ← deliver (before_randomize i) st;
      match w, h with
      | Some w, Some h =>
          st ← randomize_table (set_size st w h) draws;
          st ← deliver (before_clear_width i) st;
          st ← deliver (before_clear_height i)
                 (set_pending st (should_regenerate_screen st) None (new_height st));
          Ok (set_clock
                (set_pending st (should_regenerate_screen st) (new_width st) None)
                now 0)
      | _, _ => Raise TypeError
      end
    else Ok st
  else Ok st.

(** One pass through the loop of [run]. *)
Definition run_iteration (st : Life) (w : world) (i : interruptions)
    : result Life :=
  st ← handle_resize st i (draws w) (time_at_resize w);
  st ← deliver (before_apply_rules i) st;
  st ← step st;
  st ← deliver (before_print i) st;
  output ← print_cells_table st (time_at_print w) (frame_info_output w);
  Ok (set_clock st (start_time st) (frame_count st + 1)).

(** [n] passes through the loop of [run], numbered from [k].  [worlds k]
    is what pass [k] takes from outside and [signals k] the runs of the
    handler during it.  The loop of [run] has no exit
    ([should_continue_running] is always true), so every finite number
    of passes is a prefix of its execution. *)
Fixpoint run_loop (n k : nat) (st : Life) (worlds : nat -> world)
    (signals : nat -> interruptions) : result Life :=
  match n with
  | O => Ok st
  | S n' =>
      st1 ← run_iteration st (worlds k) (signals k);
      run_loop n' (S k) st1 worlds signals
  end.

(** [Life.run], cut after [n] passes: the first statement randomizes
    the table with the source [first_draws].  [first_signals] are the
    runs of the handler between its installation, the last statement of
    [__init__], and that first statement. *)
Definition run (n : nat) (st : Life) (first_draws : nat -> bool)
    (first_signals : list handler_run) (worlds : nat -> world)
    (signals : nat -> interruptions) : result Life :=
  st ← deliver first_signals st;
  st0 ← randomize_table st first_draws;
  run_loop n O st0 worlds signals.

(** The passes of the loops of [apply_rules] taken in another order:
    the body of the inner loop, applied to the coordinates of a list.
    [apply_rules] itself visits the rows from first to last and each
    row from left to right. *)
Definition apply_rules_in_order (order : list (nat * nat)) (st : Life)
    : result Life :=
  for_each order (fun st p =>
    match cells_table st !! p.1 with
    | Some row => apply_rules_cell (Z.of_nat p.1) row st p.2
    | None => Ok st
    end) st.

(** Every coordinate of a table of [h] rows and [w] columns. *)
Definition all_cells (w h : nat) : list (nat * nat) :=
  i ← seq 0 h; (fun x => (i, x)) <$> seq 0 w.

(** The two tables are ready for a pass of [apply_rules]: they have the
    recorded size, the rows of [cells_table] are distinct objects that
    [prev_cells_table] does not share, and both tables hold the same
    values.  [randomize_table] and [save_buffer] establish this. *)
Record ready (st : Life) : Prop := {
  ready_cur_len : length (cells_table st) = Z.to_nat (height st);
  ready_prev_len : length (prev_cells_table st) = Z.to_nat (height st);
  ready_cur_rows : Forall (fun l => (l < length (store st))%nat /\
      length (row_at (store st) l) = Z.to_nat (width st)) (cells_table st);
  ready_nodup : NoDup (cells_table st);
  ready_disjoint : Forall (fun l => l ∉ prev_cells_table st) (cells_table st);
  ready_same : matrix (store st) (prev_cells_table st)
               = matrix (store st) (cells_table st)
}.

(** The same without the last condition: the rows of [cells_table] are
    distinct objects of the recorded size that [prev_cells_table] does
    not share, and [prev_cells_table] has the recorded size, whatever
    values the two tables hold. *)
Record separated (st : Life) : Prop := {
  separated_cur_len : length (cells_table st) = Z.to_nat (height st);
  separated_cur_rows : Forall (fun l => (l < length (store st))%nat /\
      length (row_at (store st) l) = Z.to_nat (width st)) (cells_table st);
  separated_nodup : NoDup (cells_table st);
  separated_disjoint :
    Forall (fun l => l ∉ prev_cells_table st) (cells_table st);
  separated_prev_shape :
    has_shape (matrix (store st) (prev_cells_table st))
      (Z.to_nat (width st)) (Z.to_nat (height st))
}.

(** [main].  [parse_args argv] is what [parser.parse_args(argv)] gives
    for the two positional arguments of type [int]: the two integers,
    or [None] when it exits the program, which raises [SystemExit].  An
    empty [argv] is false, as is the default [None], and leaves both
    sizes to the terminal.  The
    object is built with [clear_screen=True] and [run] is cut after [n]
    passes. *)
Definition main (argv : list (list ascii))
    (parse_args : list (list ascii) -> option (Z * Z))
    (term : option (Z * Z)) (now : Z) (n : nat)
    (first_draws : nat -> bool) (first_signals : list handler_run)
    (worlds : nat -> world) (signals : nat -> interruptions) : result Life :=
  sizes ← match argv with
          | [] => Ok (None, None)
          | _ :: _ =>
              match parse_args argv with
              | Some (w, h) => Ok (Some w, Some h)
              | None => Raise SystemExit
              end
          end;
  game ← init term now sizes.1 sizes.2 true;
  run n game first_draws first_signals worlds signals.

End Main.

(** ** Notions used to state the properties *)

(** The position a Python index addresses in a sequence of length [n]:
    a negative index counts from the end. *)
Definition py_position (n i : Z) : Z := if i <? 0 then i + n else i.

(** The rule of the game between the state of a cell before a step, its
    state after the step and its count [n] of live neighbours. *)
Definition follows_rule (before after : bool) (n : Z) : Prop :=
  (before = true -> (after = true <-> n = 2 \/ n = 3)) /\
  (before = false -> (after = true <-> n = 3)).

(** The step of section 4.3 as a function of the matrix alone: every
    cell gets the state the rules assign to it. *)
Definition next_generation (m : list (list bool)) : list (list bool) :=
  imap (fun r row =>
          imap (fun c b =>
                  life_rule b (count_live_neighbors m (Z.of_nat r) (Z.of_nat c)))
               row) m.

(** Three live cells in row [r0], centred on column [c0], and the same
    line turned about its middle cell. *)
Definition horizontal_line (r0 c0 r c : Z) : bool :=
  (r =? r0) && (c0 - 1 <=? c) && (c <=? c0 + 1).

Definition vertical_line (r0 c0 r c : Z) : bool :=
  (c =? c0) && (r0 - 1 <=? r) && (r <=? r0 + 1).

(** Four live cells in a square whose upper left corner is at row [r0]
    and column [c0]. *)
Definition block (r0 c0 r c : Z) : bool :=
  (r0 <=? r) && (r <=? r0 + 1) && (c0 <=? c) && (c <=? c0 + 1).

(** A matrix seen in a mirror: left and right exchanged, top and bottom
    exchanged, or both. *)
Definition reflect (left_right up_down : bool) (m : list (list bool))
    : list (list bool) :=
  (if up_down then reverse else id)
    ((if left_right then map reverse else id) m).

(** The matrix of [w] columns and [h] rows whose live cells are those
    of a pattern. *)
Definition matrix_of (w h : nat) (pattern : Z -> Z -> bool) : list (list bool) :=
  map (fun r => map (fun c => pattern (Z.of_nat r) (Z.of_nat c)) (seq 0 w))
      (seq 0 h).

(** The cell buffers and the sizes of a [Life] object, without its
    reporting fields. *)
Definition grid_of (st : Main.Life)
    : Z * Z * list (list bool) * list Main.loc * list Main.loc :=
  (Main.width st, Main.height st, Main.store st,
   Main.cells_table st, Main.prev_cells_table st).

(** Two outcomes that agree on the cell buffers: the same exception, or
    objects with the same buffers and sizes. *)
Definition same_outcome (o1 o2 : result Main.Life) : Prop :=
  match o1, o2 with
  | Ok st1, Ok st2 => grid_of st1 = grid_of st2
  | Raise e1, Raise e2 => e1 = e2
  | _, _ => False
  end.

(** The grid of [game.py] that holds a matrix of booleans. *)
Definition grid_of_matrix (w h : Z) (m : list (list bool)) : Game.Grid :=
  {| Game.x_size := w; Game.y_size := h;
     Game.cells := map (map (fun b => {| Game.alive := b |})) m |}.

(** An object of [main.py] whose two tables hold a matrix of booleans,
    each table made of its own row objects, as [randomize_table] leaves
    them. *)
Definition life_of_matrix (w h : Z) (m : list (list bool)) : Main.Life :=
  {| Main.width := w; Main.height := h; Main.clear_screen := true;
     Main.store := m ++ m;
     Main.cells_table := seq 0 (length m);
     Main.prev_cells_table := seq (length m) (length m);
     Main.start_time := 0; Main.frame_count := 0;
     Main.should_regenerate_screen := false;
     Main.new_width := None; Main.new_height := None |}.

(** A grid of [game.py] and an object of [main.py] used as examples:
    four columns, three rows. *)
Definition example_matrix : list (list bool) :=
  [ [true; false; true; true];
    [true; false; true; false];
    [true; true; true; false] ].

Definition example_grid : Game.Grid :=
  {| Game.x_size := 4; Game.y_size := 3;
     Game.cells := map (map (fun b => {| Game.alive := b |})) example_matrix |}.

Definition example_life : Main.Life :=
  {| Main.width := 4; Main.height := 3; Main.clear_screen := true;
     Main.store := example_matrix ++ example_matrix;
     Main.cells_table := [0%nat; 1%nat; 2%nat];
     Main.prev_cells_table := [3%nat; 4%nat; 5%nat];
     Main.start_time := 0; Main.frame_count := 0;
     Main.should_regenerate_screen := false;
     Main.new_width := None; Main.new_height := None |}.

(** The world of a pass used in the examples: every draw gives a live
    cell, the clock reads 7 when a change of size is applied and 8 when
    the table is printed. *)
Definition example_world : Main.world :=
  {| Main.draws := fun _ => true;
     Main.time_at_resize := 7; Main.time_at_print := 8;
     Main.frame_info_output := [] |}.

(** A pass of the loop in which one run of the handler takes place,
    and nothing interrupts it: between the guard of line 173 and the
    read of line 174, or while [randomize_table] is at work in line
    176. *)
Definition change_before_width (term : option (Z * Z)) : Main.interruptions :=
  {| Main.before_guard := []; Main.in_guard := [];
     Main.before_width := [Main.window_change term];
     Main.before_height := []; Main.before_randomize := [];
     Main.before_clear_width := []; Main.before_clear_height := [];
     Main.before_apply_rules := []; Main.before_print := [] |}.

Definition change_during_randomize (term : option (Z * Z)) : Main.interruptions :=
  {| Main.before_guard := []; Main.in_guard := [];
     Main.before_width := []; Main.before_height := [];
     Main.before_randomize := [];
     Main.before_clear_width := [Main.window_change term];
     Main.before_clear_height := [];
     Main.before_apply_rules := []; Main.before_print := [] |}.

(** A pass of the loop before which one run of the handler takes
    place, and nothing interrupts it. *)
Definition change_before_pass (term : option (Z * Z)) : Main.interruptions :=
  {| Main.before_guard := [Main.window_change term]; Main.in_guard := [];
     Main.before_width := []; Main.before_height := [];
     Main.before_randomize := [];
     Main.before_clear_width := []; Main.before_clear_height := [];
     Main.before_apply_rules := []; Main.before_print := [] |}.

(** A pass of the loop with two runs of the handler that nothing
    interrupts: one before the pass begins, and one between the reads
    of lines 174 and 175. *)
Definition changes_before_pass_and_height (first second : option (Z * Z))
    : Main.interruptions :=
  {| Main.before_guard := [Main.window_change first]; Main.in_guard := [];
     Main.before_width := [];
     Main.before_height := [Main.window_change second];
     Main.before_randomize := [];
     Main.before_clear_width := []; Main.before_clear_height := [];
     Main.before_apply_rules := []; Main.before_print := [] |}.

(** An object whose two tables hold different values, as after a call
    of [apply_rules] that no copy of the buffer has followed. *)
Definition example_unsaved_life : Main.Life :=
  {| Main.width := 4; Main.height := 3; Main.clear_screen := true;
     Main.store := example_matrix
                   ++ [ [false; true; true; false];
                        [false; true; false; false];
                        [true; false; false; true] ];
     Main.cells_table := [0%nat; 1%nat; 2%nat];
     Main.prev_cells_table := [3%nat; 4%nat; 5%nat];
     Main.start_time := 0; Main.frame_count := 0;
     Main.should_regenerate_screen := false;
     Main.new_width := None; Main.new_height := None |}.

(** The character [print_cells_table] shows for a cell. *)
Definition glyph (b : bool) : ascii := if b then "X"%char else " "%char.

(** ** Tactics *)

(** Closed instances of [Game.wf] and [Main.ready] are settled by
    evaluation. *)
Ltac eval_wf := split; [reflexivity | repeat constructor].

Ltac eval_decide := refine (bool_decide_unpack _ _); vm_compute; exact I.

Ltac eval_ready :=
  split;
  [ reflexivity
  | reflexivity
  | repeat constructor; vm_compute; lia
  | eval_decide
  | eval_decide
  | reflexivity ].

(** Case analysis on the comparisons of a goal, dropping at once the
    cases that contradict each other. *)
Ltac split_comparisons :=
  repeat match goal with
         | |- context [Z.eqb ?x ?y] =>
             destruct (Z.eqb_spec x y); try (exfalso; lia)
         | |- context [Z.leb ?x ?y] =>
             destruct (Z.leb_spec x y); try (exfalso; lia)
         end.

(** * Properties *)

(** ** Loops, indexing and the neighbour counter of the specification *)

(** The rule for a [for] loop: an invariant that holds of the elements
    visited so far, kept by every pass of a body that does not raise,
    holds of the whole list at the end, and the loop does not raise. *)
Lemma for_each_invariant {A S : Type} (I : list A -> S -> Prop)
    (xs : list A) (body : S -> A -> result S) (s : S) :
  I [] s ->
  (forall visited x rest s1, xs = visited ++ x :: rest -> I visited s1 ->
     exists s2, body s1 x = Ok s2 /\ I (visited ++ [x]) s2) ->
  exists s', for_each xs body s = Ok s' /\ I xs s'.
Proof.
  intros Hinit Hbody.
  assert (Hgen : forall rest visited s1, xs = visited ++ rest -> I visited s1 ->
            exists s', for_each rest body s1 = Ok s' /\ I xs s').
  { induction rest as [|x rest IH]; intros visited s1 Hxs Hinv.
    - rewrite app_nil_r in Hxs. subst visited. by exists s1.
    - destruct (Hbody visited x rest s1 Hxs Hinv) as (s2 & Hs2 & Hinv2).
      simpl. rewrite Hs2. simpl.
      apply (IH (visited ++ [x])); [|done].
      by rewrite <- app_assoc. }
  by apply (Hgen xs []).
Qed.

Lemma elem_of_visiting {A : Type} (xs visited rest : list A) (x : A) :
  xs = visited ++ x :: rest -> x ∈ xs.
Proof. intros ->. apply elem_of_app. right. apply elem_of_cons. by left. Qed.

Lemma visiting_fresh {A : Type} (xs visited rest : list A) (x : A) :
  NoDup xs -> xs = visited ++ x :: rest -> x ∉ visited.
Proof.
  intros Hnd -> Hin. apply NoDup_app in Hnd as (_ & Hdisj & _).
  apply (Hdisj x Hin), elem_of_cons. by left.
Qed.

Lemma visited_snoc_same {A : Type} `{EqDecision A} (visited : list A) (x : A) :
  bool_decide (x ∈ visited ++ [x]) = true.
Proof.
  apply bool_decide_eq_true_2, elem_of_app. right. by apply list_elem_of_singleton.
Qed.

Lemma visited_snoc_other {A : Type} `{EqDecision A} (visited : list A) (c x : A) :
  c <> x -> bool_decide (c ∈ visited ++ [x]) = bool_decide (c ∈ visited).
Proof.
  intros Hne. apply bool_decide_ext. rewrite elem_of_app, list_elem_of_singleton.
  tauto.
Qed.

Lemma py_getitem_ok {A : Type} (l : list A) (i : Z) (a : A) :
  0 <= i -> l !! Z.to_nat i = Some a -> py_getitem l i = Ok a.
Proof.
  intros Hi Hl. unfold py_getitem.
  pose proof (lookup_lt_Some _ _ _ Hl) as Hlt.
  destruct (Z.ltb_spec i 0); [lia|].
  destruct (Z.ltb_spec i 0); [lia|].
  destruct (Z.leb_spec (Z.of_nat (length l)) i); [lia|].
  simpl. by rewrite Hl.
Qed.

Lemma py_setitem_ok {A : Type} (l : list A) (i : Z) (v : A) :
  0 <= i < Z.of_nat (length l) ->
  py_setitem l i v = Ok (<[Z.to_nat i := v]> l).
Proof.
  intros Hi. unfold py_setitem.
  destruct (Z.ltb_spec i 0); [lia|].
  destruct (Z.ltb_spec i 0); [lia|].
  destruct (Z.leb_spec (Z.of_nat (length l)) i); [lia|]. done.
Qed.

Lemma elem_of_py_range (n k : Z) : k ∈ py_range n <-> 0 <= k < n.
Proof.
  unfold py_range. rewrite list_elem_of_fmap. split.
  - intros (j & -> & Hj). apply list_elem_of_In, in_seq in Hj. lia.
  - intros Hk. exists (Z.to_nat k). split; [lia|].
    apply list_elem_of_In, in_seq. lia.
Qed.

Lemma int_of_bool_bounds (b : bool) : 0 <= int_of_bool b <= 1.
Proof. destruct b; simpl; lia. Qed.

Lemma count_live_neighbors_bounds (m : list (list bool)) (r c : Z) :
  0 <= count_live_neighbors m r c <= 8.
Proof.
  unfold count_live_neighbors, neighbour_offsets. simpl.
  repeat match goal with
         | |- context [int_of_bool ?b] =>
             let H := fresh in
             pose proof (int_of_bool_bounds b) as H;
             generalize dependent (int_of_bool b); intros
         end.
  lia.
Qed.

Lemma alive_at_lookup (m : list (list bool)) (r c : Z) (row : list bool) (b : bool) :
  0 <= r -> 0 <= c ->
  m !! Z.to_nat r = Some row -> row !! Z.to_nat c = Some b ->
  alive_at m r c = b.
Proof.
  intros Hr Hc Hrow Hb. unfold alive_at.
  destruct (Z.ltb_spec r 0); [lia|]. destruct (Z.ltb_spec c 0); [lia|].
  simpl. by rewrite Hrow, Hb.
Qed.

(** A coordinate outside the matrix holds no live cell. *)
Lemma alive_at_outside (m : list (list bool)) (w h : nat) (r c : Z) :
  has_shape m w h ->
  r < 0 \/ Z.of_nat h <= r \/ c < 0 \/ Z.of_nat w <= c ->
  alive_at m r c = false.
Proof.
  intros [Hlen Hrows] Hout. unfold alive_at.
  destruct (Z.ltb_spec r 0); [done|]. destruct (Z.ltb_spec c 0); [done|].
  simpl. destruct (m !! Z.to_nat r) as [row|] eqn:Hrow; [|done].
  rewrite Forall_lookup in Hrows. specialize (Hrows _ _ Hrow).
  apply lookup_lt_Some in Hrow.
  rewrite lookup_ge_None_2; [done|]. lia.
Qed.

(** Two matrices of one shape that agree at every coordinate are equal. *)
Lemma matrix_ext (m1 m2 : list (list bool)) (w h : nat) :
  has_shape m1 w h -> has_shape m2 w h ->
  (forall r c, 0 <= r < Z.of_nat h -> 0 <= c < Z.of_nat w ->
     alive_at m1 r c = alive_at m2 r c) ->
  m1 = m2.
Proof.
  intros [Hl1 Hr1] [Hl2 Hr2] Hext.
  apply list_eq_same_length with h; [done..|].
  intros i row1 row2 Hi Hrow1 Hrow2.
  rewrite Forall_lookup in Hr1, Hr2.
  apply list_eq_same_length with w; [by eapply Hr2|by eapply Hr1|].
  intros j b1 b2 Hj Hb1 Hb2.
  specialize (Hext (Z.of_nat i) (Z.of_nat j) ltac:(lia) ltac:(lia)).
  rewrite (alive_at_lookup m1 _ _ row1 b1) in Hext; rewrite ?Nat2Z.id; try lia; try done.
  rewrite (alive_at_lookup m2 _ _ row2 b2) in Hext; rewrite ?Nat2Z.id; try lia; done.
Qed.

(** ** [game.py] *)

Lemma game_cell_lookup (cs : list (list Game.Cell)) (w h : nat) (x y : Z) :
  has_shape cs w h -> 0 <= x < Z.of_nat w -> 0 <= y < Z.of_nat h ->
  exists row c,
    cs !! Z.to_nat y = Some row /\ row !! Z.to_nat x = Some c /\
    length row = w /\
    py_getitem cs y = Ok row /\ py_getitem row x = Ok c /\
    Game.alive c = alive_at (map (map Game.alive) cs) y x.
Proof.
  intros [Hlen Hrows] Hx Hy.
  destruct (lookup_lt_is_Some_2 cs (Z.to_nat y)) as [row Hrow]; [lia|].
  rewrite Forall_lookup in Hrows. pose proof (Hrows _ _ Hrow) as Hw.
  destruct (lookup_lt_is_Some_2 row (Z.to_nat x)) as [c Hc]; [lia|].
  exists row, c. repeat split; try done.
  - apply py_getitem_ok; [lia|done].
  - apply py_getitem_ok; [lia|done].
  - symmetry. apply alive_at_lookup with (map Game.alive row); try lia.
    + by rewrite list_lookup_fmap, Hrow.
    + by rewrite list_lookup_fmap, Hc.
Qed.

Lemma game_matrix_shape (g : Game.Grid) :
  Game.wf g ->
  has_shape (Game.matrix g) (Z.to_nat (Game.x_size g)) (Z.to_nat (Game.y_size g)).
Proof.
  intros [Hlen Hrows]. split.
  - unfold Game.matrix. by rewrite length_map.
  - unfold Game.matrix. rewrite Forall_fmap. eapply Forall_impl; [exact Hrows|].
    intros row Hrow. simpl. by rewrite length_map.
Qed.

(** One pass of the inner loop of [get_neighbours], away from the centre. *)
Lemma game_probe_pass (g : Game.Grid) (_x y x : Z) (l : list (option bool)) :
  Game.wf g ->
  0 <= _x < Game.x_size g -> 0 <= y < Game.y_size g -> _x - 1 <= x <= _x + 1 ->
  (if (x <? 0) || (x =? Game.x_size g) then Ok (l ++ [None])
   else row ← py_getitem (Game.cells g) y;
        c ← py_getitem row x;
        Ok (l ++ [Some (Game.alive c)]))
  = Ok (l ++ [probe (Game.matrix g) (Game.x_size g) (Game.y_size g) y x]).
Proof.
  intros Hwf Hx Hy Hnear. unfold probe, in_bounds.
  destruct (Z.ltb_spec x 0) as [Hneg|Hpos]; simpl.
  { destruct (Z.leb_spec 0 x); [lia|]. by rewrite andb_false_r. }
  destruct (Z.eqb_spec x (Game.x_size g)) as [Heq|Hne].
  { destruct (Z.ltb_spec x (Game.x_size g)); [lia|]. by rewrite andb_false_r. }
  destruct (game_cell_lookup (Game.cells g) _ _ x y Hwf)
    as (row & c & _ & _ & _ & Hrow & Hc & Halive); [lia..|].
  rewrite Hrow. simpl. rewrite Hc. simpl. rewrite Halive.
  destruct (Z.leb_spec 0 y); [|lia]. destruct (Z.ltb_spec y (Game.y_size g)); [|lia].
  destruct (Z.leb_spec 0 x); [|lia]. destruct (Z.ltb_spec x (Game.x_size g)); [|lia].
  done.
Qed.

Lemma game_get_neighbours_row (g : Game.Grid) (_x _y y : Z) (l : list (option bool)) :
  Game.wf g ->
  0 <= _x < Game.x_size g -> 0 <= y < Game.y_size g ->
  Game.get_neighbours_row g _x _y y l
  = Ok (l ++ map (probe (Game.matrix g) (Game.x_size g) (Game.y_size g) y)
               (if _y =? y then [_x - 1; _x + 1] else [_x - 1; _x; _x + 1])).
Proof.
  intros Hwf Hx Hy. unfold Game.get_neighbours_row. simpl.
  rewrite Z.eqb_refl.
  destruct (Z.eqb_spec (_x) (_x - 1)); [lia|].
  destruct (Z.eqb_spec (_x) (_x + 1)); [lia|].
  rewrite !andb_false_r, andb_true_r.
  rewrite (game_probe_pass g _x y (_x - 1)) by (done || lia). simpl.
  destruct (_y =? y); simpl.
  - rewrite (game_probe_pass g _x y (_x + 1)) by (done || lia).
    by rewrite <- app_assoc.
  - rewrite (game_probe_pass g _x y _x) by (done || lia). simpl.
    rewrite (game_probe_pass g _x y (_x + 1)) by (done || lia).
    by rewrite <- !app_assoc.
Qed.

(** A row of probes outside the grid. *)
Lemma probe_outside_row (m : list (list bool)) (w h y : Z) (xs : list Z) :
  y < 0 \/ h <= y -> map (probe m w h y) xs = map (fun _ => None) xs.
Proof.
  intros Hy. apply map_ext. intros x. unfold probe, in_bounds.
  destruct (Z.leb_spec 0 y); destruct (Z.ltb_spec y h); simpl; try done; lia.
Qed.

(** [get_neighbours] returns the eight probes around the cell, row by
    row, and does not raise. *)
Lemma game_get_neighbours (g : Game.Grid) (x y : Z) :
  Game.wf g -> 0 <= x < Game.x_size g -> 0 <= y < Game.y_size g ->
  Game.get_neighbours g x y
  = Ok (map (fun d => probe (Game.matrix g) (Game.x_size g) (Game.y_size g)
                        (y + d.1) (x + d.2)) neighbour_offsets).
Proof.
  intros Hwf Hx Hy. unfold Game.get_neighbours, neighbour_offsets.
  cbn [for_each map fst snd].
  rewrite !Z.add_0_r.
  change (y + -1) with (y - 1). change (x + -1) with (x - 1).
  set (p := probe (Game.matrix g) (Game.x_size g) (Game.y_size g)).
  assert (Hrow : forall y' l, y - 1 <= y' <= y + 1 ->
    (if (y' <? 0) || (y' =? Game.y_size g) then Ok (l ++ [None; None; None])
     else Game.get_neighbours_row g x y y' l)
    = Ok (l ++ map (p y') (if y =? y' then [x - 1; x + 1] else [x - 1; x; x + 1]))).
  { intros y' l Hnear.
    destruct (Z.ltb_spec y' 0) as [Hneg|Hpos]; simpl.
    - destruct (Z.eqb_spec y y'); [lia|]. unfold p.
      by rewrite probe_outside_row by lia.
    - destruct (Z.eqb_spec y' (Game.y_size g)) as [Heq|Hne].
      + destruct (Z.eqb_spec y y'); [lia|]. unfold p.
        by rewrite probe_outside_row by lia.
      + apply game_get_neighbours_row; [done|done|lia]. }
  rewrite (Hrow (y - 1)) by lia. cbn [mbind result_bind].
  rewrite (Hrow y) by lia. cbn [mbind result_bind].
  rewrite (Hrow (y + 1)) by lia.
  rewrite Z.eqb_refl.
  destruct (Z.eqb_spec y (y - 1)); [lia|]. destruct (Z.eqb_spec y (y + 1)); [lia|].
  done.
Qed.

(** A probe contributes the state of the cell, and nothing outside. *)
Lemma sum_neighbours_probes (m : list (list bool)) (w h : Z) (ps : list (Z * Z)) :
  has_shape m (Z.to_nat w) (Z.to_nat h) ->
  Game.sum_neighbours (map (fun p => probe m w h p.1 p.2) ps)
  = py_sum (map (fun p => int_of_bool (alive_at m p.1 p.2)) ps).
Proof.
  intros Hm. unfold Game.sum_neighbours.
  induction ps as [|[r c] ps IH]; [done|].
  cbn [map py_sum foldr fst snd] in *. unfold py_sum in IH. rewrite IH. f_equal.
  unfold probe, in_bounds.
  destruct (Z.leb_spec 0 r); destruct (Z.ltb_spec r h);
    destruct (Z.leb_spec 0 c); destruct (Z.ltb_spec c w); simpl; try done;
    rewrite (alive_at_outside m _ _ r c Hm); try done; lia.
Qed.

Lemma game_sum_neighbours (g : Game.Grid) (x y : Z) :
  Game.wf g ->
  Game.sum_neighbours
    (map (fun d => probe (Game.matrix g) (Game.x_size g) (Game.y_size g)
                     (y + d.1) (x + d.2)) neighbour_offsets)
  = count_live_neighbors (Game.matrix g) y x.
Proof.
  intros Hwf.
  pose proof (sum_neighbours_probes (Game.matrix g) (Game.x_size g) (Game.y_size g)
    (map (fun d => (y + d.1, x + d.2)) neighbour_offsets) (game_matrix_shape g Hwf)) as H.
  rewrite !map_map in H. exact H.
Qed.

Lemma fresh_cells_shape (x_size y_size : Z) :
  has_shape (Game.fresh_cells x_size y_size) (Z.to_nat x_size) (Z.to_nat y_size).
Proof.
  unfold Game.fresh_cells, py_range. split.
  - by rewrite !length_map, length_seq.
  - rewrite Forall_fmap. apply Forall_forall. intros y _. simpl.
    by rewrite !length_map, length_seq.
Qed.

Lemma fresh_cells_dead (x_size y_size r c : Z) :
  alive_at (map (map Game.alive) (Game.fresh_cells x_size y_size)) r c = false.
Proof.
  unfold alive_at. destruct ((r <? 0) || (c <? 0)); [done|].
  unfold Game.fresh_cells. rewrite !list_lookup_fmap.
  destruct (py_range y_size !! Z.to_nat r); [|done]. simpl.
  rewrite !list_lookup_fmap.
  by destruct (py_range x_size !! Z.to_nat c).
Qed.

Lemma init_wf (x_size y_size : Z) (g : Game.Grid) :
  Game.init x_size y_size = Ok g -> Game.wf g.
Proof. intros [= <-]. apply fresh_cells_shape. Qed.

Lemma randomize_rows_shape (cs : list (list Game.Cell)) (bits : nat -> bool)
    (w h : nat) :
  has_shape cs w h -> has_shape (Game.randomize_rows cs bits) w h.
Proof.
  revert bits h. induction cs as [|row cs IH]; intros bits h [Hlen Hrows]; [done|].
  apply Forall_cons in Hrows as [Hrow Hrows]. simpl in Hlen. subst h.
  destruct (IH (fun k => bits (length row + k)%nat) (length cs)) as [Hlen' Hrows'];
    [by split|].
  split; simpl; [by rewrite Hlen'|].
  apply Forall_cons. split; [|done]. by rewrite length_map, length_seq.
Qed.

Lemma randomize_grid_wf (g : Game.Grid) (bits : nat -> bool) :
  Game.wf g -> Game.wf (Game.randomize_grid g bits).
Proof. apply randomize_rows_shape. Qed.

(** [cs[y][x].alive = v] inside the matrix changes that cell only. *)
Lemma game_set_alive (cs : list (list Game.Cell)) (w h : nat) (x y : Z) (v : bool) :
  has_shape cs w h -> 0 <= x < Z.of_nat w -> 0 <= y < Z.of_nat h ->
  exists cs',
    Game.set_alive cs x y v = Ok cs' /\ has_shape cs' w h /\
    forall r c, alive_at (map (map Game.alive) cs') r c
                = if (r =? y) && (c =? x) then v
                  else alive_at (map (map Game.alive) cs) r c.
Proof.
  intros Hshape Hx Hy.
  destruct (game_cell_lookup cs w h x y Hshape Hx Hy)
    as (row & c0 & Hrow & Hc0 & Hw & Hgrow & Hgc & _).
  destruct Hshape as [Hlen Hrows].
  exists (<[Z.to_nat y := <[Z.to_nat x := {| Game.alive := v |}]> row]> cs).
  split; [|split].
  - unfold Game.set_alive. rewrite Hgrow. simpl. rewrite Hgc. simpl.
    rewrite py_setitem_ok by lia. simpl. by rewrite py_setitem_ok by lia.
  - split; [by rewrite length_insert|].
    apply Forall_insert; [done|]. by rewrite length_insert.
  - intros r c. unfold alive_at.
    destruct (Z.ltb_spec r 0); simpl.
    { destruct (Z.eqb_spec r y); [lia|done]. }
    destruct (Z.ltb_spec c 0); simpl.
    { destruct (Z.eqb_spec c x); [lia|]. by rewrite andb_false_r. }
    rewrite !list_lookup_fmap.
    destruct (Z.eqb_spec r y) as [->|Hr]; simpl.
    + rewrite list_lookup_insert_eq by lia. rewrite Hrow. simpl.
      rewrite !list_lookup_fmap.
      destruct (Z.eqb_spec c x) as [->|Hc].
      * by rewrite list_lookup_insert_eq by lia.
      * by rewrite list_lookup_insert_ne by lia.
    + by rewrite list_lookup_insert_ne by lia.
Qed.

(** The two tests of [update_grid_full] are the rules of the game. *)
Lemma game_rule_test (alive : bool) (n : Z) :
  (if alive then (2 <=? n) && (n <? 4) else n =? 3) = life_rule alive n.
Proof.
  unfold life_rule. destruct alive; [|done].
  destruct (Z.leb_spec 2 n); destruct (Z.ltb_spec n 4);
    destruct (Z.eqb_spec n 2); destruct (Z.eqb_spec n 3); simpl; try done; lia.
Qed.

(** The body of the loops of [update_grid_full] turns on the cell it
    visits when the rules say so, and touches nothing else. *)
Lemma game_update_cell (g : Game.Grid) (y x : Z) (cs : list (list Game.Cell)) :
  Game.wf g ->
  has_shape cs (Z.to_nat (Game.x_size g)) (Z.to_nat (Game.y_size g)) ->
  0 <= x < Game.x_size g -> 0 <= y < Game.y_size g ->
  exists cs',
    Game.update_cell g y x cs = Ok cs' /\
    has_shape cs' (Z.to_nat (Game.x_size g)) (Z.to_nat (Game.y_size g)) /\
    forall r c, alive_at (map (map Game.alive) cs') r c
                = alive_at (map (map Game.alive) cs) r c
                  || ((r =? y) && (c =? x) &&
                      life_rule (alive_at (Game.matrix g) y x)
                                (count_live_neighbors (Game.matrix g) y x)).
Proof.
  intros Hwf Hshape Hx Hy. unfold Game.update_cell.
  rewrite game_get_neighbours by done. cbn [mbind result_bind].
  rewrite game_sum_neighbours by done.
  destruct (game_cell_lookup (Game.cells g) _ _ x y Hwf)
    as (row & c0 & _ & _ & _ & Hrow & Hc0 & Halive); [lia..|].
  rewrite Hrow. cbn [mbind result_bind]. rewrite Hc0. cbn [mbind result_bind].
  fold (Game.matrix g) in Halive. rewrite <- Halive.
  set (n := count_live_neighbors (Game.matrix g) y x).
  pose proof (game_rule_test (Game.alive c0) n) as Hrule.
  assert (Hgoal : forall b : bool, b = life_rule (Game.alive c0) n ->
    exists cs',
      (if b then Game.set_alive cs x y true else Ok cs) = Ok cs' /\
      has_shape cs' (Z.to_nat (Game.x_size g)) (Z.to_nat (Game.y_size g)) /\
      forall r c, alive_at (map (map Game.alive) cs') r c
                  = alive_at (map (map Game.alive) cs) r c
                    || ((r =? y) && (c =? x) && life_rule (Game.alive c0) n)).
  { intros b ->. destruct (life_rule (Game.alive c0) n).
    - destruct (game_set_alive cs _ _ x y true Hshape) as (cs' & Hset & Hsh & Hat);
        [lia..|].
      exists cs'. split; [done|]. split; [done|].
      intros r c. rewrite Hat. rewrite andb_true_r.
      destruct ((r =? y) && (c =? x)); [by rewrite orb_true_r|by rewrite orb_false_r].
    - exists cs. split; [done|]. split; [done|].
      intros r c. by rewrite andb_false_r, orb_false_r. }
  destruct (Game.alive c0); simpl in Hrule; apply Hgoal; done.
Qed.

(** The inner loop of [update_grid_full] over the columns of row [y]. *)
Lemma game_update_row (g : Game.Grid) (y : Z) (cs : list (list Game.Cell)) :
  Game.wf g ->
  has_shape cs (Z.to_nat (Game.x_size g)) (Z.to_nat (Game.y_size g)) ->
  0 <= y < Game.y_size g ->
  exists cs',
    for_each (py_range (Game.x_size g))
      (fun _cells x => Game.update_cell g y x _cells) cs = Ok cs' /\
    has_shape cs' (Z.to_nat (Game.x_size g)) (Z.to_nat (Game.y_size g)) /\
    forall r c, alive_at (map (map Game.alive) cs') r c
                = alive_at (map (map Game.alive) cs) r c
                  || ((r =? y) && bool_decide (c ∈ py_range (Game.x_size g)) &&
                      life_rule (alive_at (Game.matrix g) r c)
                                (count_live_neighbors (Game.matrix g) r c)).
Proof.
  intros Hwf Hshape Hy.
  pose (I := fun (visited : list Z) (cs' : list (list Game.Cell)) =>
    has_shape cs' (Z.to_nat (Game.x_size g)) (Z.to_nat (Game.y_size g)) /\
    forall r c, alive_at (map (map Game.alive) cs') r c
                = alive_at (map (map Game.alive) cs) r c
                  || ((r =? y) && bool_decide (c ∈ visited) &&
                      life_rule (alive_at (Game.matrix g) r c)
                                (count_live_neighbors (Game.matrix g) r c))).
  apply (for_each_invariant I); unfold I; clear I.
  - split; [done|]. intros r c.
    rewrite bool_decide_eq_false_2 by apply not_elem_of_nil.
    by rewrite andb_false_r, orb_false_r.
  - intros visited x rest cs1 Hxs [Hsh1 Hat1].
    assert (Hx : 0 <= x < Game.x_size g).
    { apply elem_of_py_range. by eapply elem_of_visiting. }
    destruct (game_update_cell g y x cs1 Hwf Hsh1 Hx Hy) as (cs2 & Hcell & Hsh2 & Hat2).
    exists cs2. split; [done|]. split; [done|].
    intros r c. rewrite Hat2, Hat1, <- orb_assoc. f_equal.
    destruct (Z.eqb_spec r y) as [->|Hr]; [|done]. simpl.
    destruct (Z.eqb_spec c x) as [->|Hc].
    + rewrite visited_snoc_same.
      simpl. by destruct (bool_decide (x ∈ visited)), (life_rule _ _).
    + rewrite visited_snoc_other by done.
      by rewrite orb_false_r.
Qed.

(** [update_grid_full] does not raise on a grid whose sizes agree with
    its matrix, keeps the sizes, and gives every cell the state the
    rules assign to it from the old matrix. *)
Lemma game_update_grid_full (g : Game.Grid) :
  Game.wf g ->
  exists g',
    Game.update_grid_full g = Ok g' /\
    Game.wf g' /\
    Game.x_size g' = Game.x_size g /\ Game.y_size g' = Game.y_size g /\
    forall r c, 0 <= r < Game.y_size g -> 0 <= c < Game.x_size g ->
      alive_at (Game.matrix g') r c
      = life_rule (alive_at (Game.matrix g) r c)
                  (count_live_neighbors (Game.matrix g) r c).
Proof.
  intros Hwf. unfold Game.update_grid_full.
  pose (I := fun (visited : list Z) (cs' : list (list Game.Cell)) =>
    has_shape cs' (Z.to_nat (Game.x_size g)) (Z.to_nat (Game.y_size g)) /\
    forall r c, alive_at (map (map Game.alive) cs') r c
                = bool_decide (r ∈ visited) &&
                  bool_decide (c ∈ py_range (Game.x_size g)) &&
                  life_rule (alive_at (Game.matrix g) r c)
                            (count_live_neighbors (Game.matrix g) r c)).
  destruct (for_each_invariant I
    (py_range (Game.y_size g))
    (fun _cells y => for_each (py_range (Game.x_size g))
       (fun _cells x => Game.update_cell g y x _cells) _cells)
    (Game.fresh_cells (Game.x_size g) (Game.y_size g)))
    as (cs' & Hloop & Hsh & Hat); unfold I in *; clear I.
  - split; [apply fresh_cells_shape|]. intros r c.
    rewrite fresh_cells_dead.
    by rewrite bool_decide_eq_false_2 by apply not_elem_of_nil.
  - intros visited y rest cs1 Hys [Hsh1 Hat1].
    assert (Hy : 0 <= y < Game.y_size g).
    { apply elem_of_py_range. by eapply elem_of_visiting. }
    destruct (game_update_row g y cs1 Hwf Hsh1 Hy) as (cs2 & Hrow & Hsh2 & Hat2).
    exists cs2. split; [done|]. split; [done|].
    intros r c. rewrite Hat2, Hat1.
    destruct (Z.eqb_spec r y) as [->|Hr].
    + rewrite visited_snoc_same.
      simpl. destruct (bool_decide (y ∈ visited)); simpl; [|done].
      by destruct (_ && _).
    + rewrite visited_snoc_other by done.
      simpl. by rewrite orb_false_r.
  - rewrite Hloop. cbn [mbind result_bind]. eexists. split; [done|].
    split; [exact Hsh|]. split; [done|]. split; [done|].
    intros r c Hr Hc. unfold Game.matrix at 1. cbn [Game.cells]. rewrite Hat.
    rewrite !bool_decide_eq_true_2 by (by apply elem_of_py_range). done.
Qed.

(** ** [main.py] *)

Lemma main_matrix_lookup (s : list (list bool)) (table : list Main.loc) (i : nat) :
  Main.matrix s table !! i = Main.row_at s <$> table !! i.
Proof. unfold Main.matrix. apply list_lookup_fmap. Qed.

(** Reading [table[r][c]] inside the table gives the cell and does not
    raise. *)
Lemma main_read_cell (s : list (list bool)) (table : list Main.loc)
    (w h : nat) (r c : Z) :
  has_shape (Main.matrix s table) w h ->
  0 <= r < Z.of_nat h -> 0 <= c < Z.of_nat w ->
  Main.read_cell s table r c = Ok (alive_at (Main.matrix s table) r c).
Proof.
  intros [Hlen Hrows] Hr Hc. unfold Main.read_cell.
  unfold Main.matrix in Hlen. rewrite length_map in Hlen.
  destruct (lookup_lt_is_Some_2 table (Z.to_nat r)) as [l Hl]; [lia|].
  rewrite (py_getitem_ok table r l) by (lia || done). cbn [mbind result_bind].
  rewrite Forall_lookup in Hrows.
  assert (Hrow : Main.matrix s table !! Z.to_nat r = Some (Main.row_at s l)).
  { by rewrite main_matrix_lookup, Hl. }
  pose proof (Hrows _ _ Hrow) as Hw.
  destruct (lookup_lt_is_Some_2 (Main.row_at s l) (Z.to_nat c)) as [b Hb]; [lia|].
  rewrite (py_getitem_ok _ c b) by (lia || done).
  f_equal. symmetry. by apply alive_at_lookup with (Main.row_at s l); try lia.
Qed.

Lemma main_read_cells (st : Main.Life) (ps : list (Z * Z)) :
  has_shape (Main.matrix (Main.store st) (Main.prev_cells_table st))
    (Z.to_nat (Main.width st)) (Z.to_nat (Main.height st)) ->
  exists bs,
    Main.read_cells (Main.store st) (Main.prev_cells_table st)
      (filter (fun p => Main.in_table st p) ps) = Ok bs /\
    py_sum (map int_of_bool bs)
    = py_sum (map (fun p => int_of_bool
        (alive_at (Main.matrix (Main.store st) (Main.prev_cells_table st)) p.1 p.2)) ps).
Proof.
  intros Hshape. induction ps as [|[r c] ps (bs & Hbs & Hsum)]; [by exists []|].
  destruct (Main.in_table st (r, c)) eqn:Hin.
  - rewrite filter_cons_True by (by rewrite Hin).
    unfold Main.in_table in Hin. cbn [fst snd] in Hin.
    apply andb_prop in Hin as [Hin Hc2]. apply andb_prop in Hin as [Hin Hc1].
    apply andb_prop in Hin as [Hr1 Hr2].
    apply Z.leb_le in Hr1, Hc1. apply Z.ltb_lt in Hr2, Hc2.
    exists (alive_at (Main.matrix (Main.store st) (Main.prev_cells_table st)) r c :: bs).
    cbn [Main.read_cells fst snd].
    rewrite (main_read_cell _ _ _ _ r c Hshape) by lia.
    cbn [mbind result_bind]. rewrite Hbs. cbn [mbind result_bind].
    split; [done|]. cbn [map py_sum foldr fst snd] in *.
    unfold py_sum in Hsum. by rewrite Hsum.
  - rewrite filter_cons_False by (rewrite Hin; simpl; tauto).
    exists bs. split; [done|]. unfold py_sum in *. cbn [map foldr fst snd].
    rewrite Hsum.
    rewrite (alive_at_outside _ _ _ r c Hshape); [done|].
    unfold Main.in_table in Hin. cbn [fst snd] in Hin.
    destruct (Z.leb_spec 0 r); destruct (Z.ltb_spec r (Main.height st));
      destruct (Z.leb_spec 0 c); destruct (Z.ltb_spec c (Main.width st));
      try discriminate; lia.
Qed.

(** [get_alive_neighbours] does not raise, whatever the coordinate, and
    returns the count of the specification on [prev_cells_table]. *)
Lemma main_get_alive_neighbours (st : Main.Life) (r c : Z) :
  has_shape (Main.matrix (Main.store st) (Main.prev_cells_table st))
    (Z.to_nat (Main.width st)) (Z.to_nat (Main.height st)) ->
  Main.get_alive_neighbours st r c
  = Ok (count_live_neighbors
          (Main.matrix (Main.store st) (Main.prev_cells_table st)) r c).
Proof.
  intros Hshape. unfold Main.get_alive_neighbours.
  destruct (main_read_cells st (Main.neighbour_indices r c) Hshape) as (bs & -> & Hsum).
  cbn [mbind result_bind]. f_equal. rewrite Hsum.
  unfold count_live_neighbors, neighbour_offsets, Main.neighbour_indices.
  cbn [map py_sum foldr fst snd]. rewrite !Z.add_0_r.
  change (r + -1) with (r - 1). change (c + -1) with (c - 1).
  lia.
Qed.

Lemma main_row_at_insert (s : list (list bool)) (l l' : Main.loc) (row : list bool) :
  Main.row_at (<[l := row]> s) l'
  = if decide (l = l' /\ (l < length s)%nat) then row else Main.row_at s l'.
Proof.
  unfold Main.row_at. destruct (decide (l = l')) as [<-|Hne].
  - destruct (decide (l < length s)%nat) as [Hlt|Hge].
    + rewrite list_lookup_insert_eq by done. by rewrite decide_True.
    + rewrite list_insert_ge by lia. rewrite decide_False; [done|]. tauto.
  - rewrite list_lookup_insert_ne by done. rewrite decide_False; [done|]. tauto.
Qed.

(** A write to a row object leaves a table that does not hold it as it
    was. *)
Lemma main_matrix_insert_other (s : list (list bool)) (table : list Main.loc)
    (l : Main.loc) (row : list bool) :
  l ∉ table -> Main.matrix (<[l := row]> s) table = Main.matrix s table.
Proof.
  intros Hl. unfold Main.matrix. apply map_ext_in. intros l' Hl'.
  rewrite main_row_at_insert. rewrite decide_False; [done|].
  intros [-> _]. by apply Hl, list_elem_of_In.
Qed.

Lemma set_store_same (st : Main.Life) : Main.set_store st (Main.store st) = st.
Proof. by destruct st. Qed.

Lemma row_at_insert_same (s : list (list bool)) (l : Main.loc) :
  (l < length s)%nat -> <[l := Main.row_at s l]> s = s.
Proof.
  intros Hl. apply list_insert_id. unfold Main.row_at.
  destruct (s !! l) as [row|] eqn:Hrow; [done|].
  apply lookup_ge_None in Hrow. lia.
Qed.

(** The branches of [apply_rules] are the rules of the game: the cell is
    left as it is exactly when the rules keep its state. *)
Lemma main_rule_test (is_alive : bool) (n : Z) :
  life_rule is_alive n
  = if is_alive then (if n <=? 1 then false else if 4 <=? n then false else true)
    else (if n =? 3 then true else false).
Proof.
  unfold life_rule. destruct is_alive.
  - destruct (Z.leb_spec n 1); destruct (Z.leb_spec 4 n);
      destruct (Z.eqb_spec n 2); destruct (Z.eqb_spec n 3); simpl; try done; lia.
  - by destruct (n =? 3).
Qed.

Lemma main_write_cell (s : list (list bool)) (table : list Main.loc)
    (i x : nat) (l : Main.loc) (v : bool) :
  table !! i = Some l -> (x < length (Main.row_at s l))%nat ->
  Main.write_cell s table (Z.of_nat i) (Z.of_nat x) v
  = Ok (<[l := <[x := v]> (Main.row_at s l)]> s).
Proof.
  intros Hl Hx. unfold Main.write_cell.
  rewrite (py_getitem_ok table _ l) by (lia || by rewrite Nat2Z.id).
  cbn [mbind result_bind]. rewrite py_setitem_ok by lia.
  cbn [mbind result_bind]. by rewrite Nat2Z.id.
Qed.

(** One pass of the inner loop of [apply_rules] on a row object that
    [prev_cells_table] does not hold: the cell visited gets the state
    the rules assign to it, counted in [prev_cells_table]. *)
Lemma main_apply_rules_cell (st : Main.Life) (i x : nat) (l : Main.loc) (b : bool) :
  has_shape (Main.matrix (Main.store st) (Main.prev_cells_table st))
    (Z.to_nat (Main.width st)) (Z.to_nat (Main.height st)) ->
  Main.cells_table st !! i = Some l ->
  (l < length (Main.store st))%nat ->
  Main.row_at (Main.store st) l !! x = Some b ->
  Main.apply_rules_cell (Z.of_nat i) l st x
  = Ok (Main.set_store st
         (<[l := <[x := life_rule b
                     (count_live_neighbors
                        (Main.matrix (Main.store st) (Main.prev_cells_table st))
                        (Z.of_nat i) (Z.of_nat x))]>
                 (Main.row_at (Main.store st) l)]> (Main.store st))).
Proof.
  intros Hshape Hl Hlt Hb. unfold Main.apply_rules_cell. rewrite Hb.
  rewrite main_get_alive_neighbours by done. cbn [mbind result_bind].
  set (n := count_live_neighbors _ _ _).
  pose proof (lookup_lt_Some _ _ _ Hb) as Hx.
  rewrite main_rule_test.
  assert (Hkeep : Ok st = Ok (Main.set_store st
            (<[l := <[x := b]> (Main.row_at (Main.store st) l)]> (Main.store st)))).
  { rewrite (list_insert_id _ x b) by done.
    by rewrite row_at_insert_same, set_store_same. }
  destruct b.
  - destruct (n <=? 1); [|destruct (4 <=? n)].
    + by rewrite (main_write_cell _ _ i x l).
    + by rewrite (main_write_cell _ _ i x l).
    + exact Hkeep.
  - destruct (n =? 3).
    + by rewrite (main_write_cell _ _ i x l).
    + exact Hkeep.
Qed.

Lemma set_store_set_store (st : Main.Life) (s1 s2 : list (list bool)) :
  Main.set_store (Main.set_store st s1) s2 = Main.set_store st s2.
Proof. done. Qed.

(** The inner loop of [apply_rules] on a row object that
    [prev_cells_table] does not hold: every cell of the row gets the
    state the rules assign to it, and no other object changes. *)
Lemma main_apply_rules_row (st : Main.Life) (i : nat) (l : Main.loc) :
  has_shape (Main.matrix (Main.store st) (Main.prev_cells_table st))
    (Z.to_nat (Main.width st)) (Z.to_nat (Main.height st)) ->
  Main.cells_table st !! i = Some l ->
  (l < length (Main.store st))%nat ->
  l ∉ Main.prev_cells_table st ->
  Main.apply_rules_row st (i, l)
  = Ok (Main.set_store st
         (<[l := imap (fun x b => life_rule b
                    (count_live_neighbors
                       (Main.matrix (Main.store st) (Main.prev_cells_table st))
                       (Z.of_nat i) (Z.of_nat x)))
                  (Main.row_at (Main.store st) l)]> (Main.store st))).
Proof.
  intros Hshape Hl Hlt Hprev. unfold Main.apply_rules_row. cbn [fst snd].
  set (s := Main.store st). set (row := Main.row_at s l).
  set (M := Main.matrix s (Main.prev_cells_table st)).
  set (f := fun (x : nat) (b : bool) =>
              life_rule b (count_live_neighbors M (Z.of_nat i) (Z.of_nat x))).
  pose (I := fun (visited : list nat) (st1 : Main.Life) =>
    exists row1,
      st1 = Main.set_store st (<[l := row1]> s) /\
      length row1 = length row /\
      forall x b, row !! x = Some b ->
        row1 !! x = Some (if bool_decide (x ∈ visited) then f x b else b)).
  destruct (for_each_invariant I (seq 0 (length row))
              (Main.apply_rules_cell (Z.of_nat i) l) st)
    as (st' & Hloop & row1 & -> & Hlen & Hrow1); unfold I in *; clear I.
  - exists row. split; [|done]. unfold row, s.
    by rewrite row_at_insert_same, set_store_same.
  - intros visited x rest st1 Hxs (row1 & -> & Hlen & Hrow1).
    assert (Hx : (x < length row)%nat).
    { pose proof (elem_of_visiting _ _ _ _ Hxs) as Hin.
      apply elem_of_seq in Hin. lia. }
    assert (Hfresh : x ∉ visited) by (eapply visiting_fresh; [apply NoDup_seq|done]).
    destruct (lookup_lt_is_Some_2 row x Hx) as [b Hb].
    assert (Hrow_at : Main.row_at (<[l := row1]> s) l = row1).
    { rewrite main_row_at_insert. by rewrite decide_True. }
    eexists. split.
    + rewrite (main_apply_rules_cell _ i x l b).
      * reflexivity.
      * cbn [Main.set_store Main.store Main.prev_cells_table Main.width Main.height].
        by rewrite main_matrix_insert_other.
      * done.
      * cbn [Main.set_store Main.store]. by rewrite length_insert.
      * cbn [Main.set_store Main.store]. rewrite Hrow_at, (Hrow1 x b Hb).
        by rewrite bool_decide_eq_false_2.
    + cbn [Main.set_store Main.store Main.prev_cells_table].
      rewrite Hrow_at, main_matrix_insert_other by done.
      rewrite list_insert_insert_eq. fold M.
      exists (<[x := f x b]> row1). split; [done|].
      split; [by rewrite length_insert|].
      intros x' b' Hb'. destruct (decide (x' = x)) as [->|Hne].
      * rewrite list_lookup_insert_eq by lia. rewrite visited_snoc_same.
        by simplify_eq.
      * rewrite list_lookup_insert_ne by done.
        rewrite visited_snoc_other by done. by apply Hrow1.
  - rewrite Hloop. do 3 f_equal. apply list_eq. intros x.
    rewrite list_lookup_imap. fold row.
    destruct (row !! x) as [b|] eqn:Hb.
    + rewrite (Hrow1 x b Hb). rewrite bool_decide_eq_true_2; [done|].
      apply elem_of_seq. apply lookup_lt_Some in Hb. lia.
    + apply lookup_ge_None in Hb. apply lookup_ge_None. lia.
Qed.

Lemma lookup_enumerate {A : Type} (l : list A) (k : nat) :
  Main.enumerate l !! k = (fun a => (k, a)) <$> l !! k.
Proof.
  unfold Main.enumerate. rewrite lookup_zip_with.
  destruct (l !! k) as [a|] eqn:Ha.
  - rewrite lookup_seq_lt by (by eapply lookup_lt_Some). done.
  - by destruct (seq 0 (length l) !! k).
Qed.

Lemma elem_of_enumerate {A : Type} (l : list A) (k : nat) (a : A) :
  (k, a) ∈ Main.enumerate l <-> l !! k = Some a.
Proof.
  rewrite list_elem_of_lookup. split.
  - intros (j & Hj). rewrite lookup_enumerate in Hj.
    destruct (l !! j) eqn:Hl; by simplify_eq/=.
  - intros Ha. exists k. by rewrite lookup_enumerate, Ha.
Qed.

Lemma snd_enumerate {A : Type} (l : list A) : (Main.enumerate l).*2 = l.
Proof. unfold Main.enumerate. apply snd_zip. by rewrite length_seq. Qed.

Lemma main_matrix_agree (s1 s2 : list (list bool)) (table : list Main.loc) :
  (forall l, l ∈ table -> s1 !! l = s2 !! l) ->
  Main.matrix s1 table = Main.matrix s2 table.
Proof.
  intros Hagree. unfold Main.matrix. apply map_ext_in. intros l Hl.
  unfold Main.row_at. by rewrite Hagree by (by apply list_elem_of_In).
Qed.

(** [apply_rules] on tables that are ready for a pass: it does not
    raise, only the store changes, objects outside [cells_table] stay
    as they were, and every row of [cells_table] holds the states the
    rules assign from the matrix of [prev_cells_table]. *)
Lemma main_apply_rules_store (st : Main.Life) :
  Main.ready st ->
  exists s',
    Main.apply_rules st = Ok (Main.set_store st s') /\
    length s' = length (Main.store st) /\
    (forall l, l ∉ Main.cells_table st -> s' !! l = Main.store st !! l) /\
    (forall i l, Main.cells_table st !! i = Some l ->
       Main.row_at s' l
       = imap (fun x b => life_rule b
                 (count_live_neighbors
                    (Main.matrix (Main.store st) (Main.prev_cells_table st))
                    (Z.of_nat i) (Z.of_nat x)))
              (Main.row_at (Main.store st) l)).
Proof.
  intros [Hcur_len Hprev_len Hcur_rows Hnodup Hdisj Hsame].
  set (s := Main.store st). set (cur := Main.cells_table st).
  set (prev := Main.prev_cells_table st). set (M := Main.matrix s prev).
  set (f := fun (i x : nat) (b : bool) =>
              life_rule b (count_live_neighbors M (Z.of_nat i) (Z.of_nat x))).
  assert (HshapeM : has_shape M (Z.to_nat (Main.width st)) (Z.to_nat (Main.height st))).
  { unfold M. fold s prev cur in Hsame. rewrite Hsame. split.
    - unfold Main.matrix. by rewrite length_map.
    - unfold Main.matrix. rewrite Forall_fmap.
      eapply Forall_impl; [exact Hcur_rows|]. by intros l [_ Hl]. }
  pose (I := fun (visited : list (nat * Main.loc)) (st1 : Main.Life) =>
    exists s1,
      st1 = Main.set_store st s1 /\
      length s1 = length s /\
      (forall l, l ∉ visited.*2 -> s1 !! l = s !! l) /\
      (forall i l, (i, l) ∈ visited -> Main.row_at s1 l = imap (f i) (Main.row_at s l))).
  unfold Main.apply_rules.
  destruct (for_each_invariant I (Main.enumerate cur) Main.apply_rules_row st)
    as (st' & Hloop & s' & -> & Hlen & Hother & Hrows); unfold I in *; clear I.
  - exists s. split; [by rewrite set_store_same|]. split; [done|].
    split; [done|]. intros i l Hin. by apply elem_of_nil in Hin.
  - intros visited [i l] rest st1 Hxs (s1 & -> & Hlen & Hother & Hrows).
    assert (Hil : cur !! i = Some l).
    { apply elem_of_enumerate. by eapply elem_of_visiting. }
    assert (Hfresh : l ∉ visited.*2).
    { apply (visiting_fresh cur _ (rest.*2)); [done|].
      rewrite <- (snd_enumerate cur), Hxs. by rewrite fmap_app. }
    assert (Hvis : forall l', l' ∈ visited.*2 -> l' ∈ cur).
    { intros l' Hl'. rewrite <- (snd_enumerate cur), Hxs, fmap_app.
      apply elem_of_app. by left. }
    pose proof (list_elem_of_lookup_2 _ _ _ Hil) as Hlcur.
    rewrite Forall_forall in Hcur_rows, Hdisj.
    destruct (Hcur_rows l Hlcur) as [Hlt _].
    assert (Hprev : Main.matrix s1 prev = M).
    { apply main_matrix_agree. intros l' Hl'. apply Hother.
      intros Hin. by apply (Hdisj l' (Hvis l' Hin)). }
    rewrite (main_apply_rules_row (Main.set_store st s1) i l).
    + eexists. split; [reflexivity|].
      cbn [Main.set_store Main.store Main.prev_cells_table]. fold prev.
      rewrite Hprev. fold (f i).
      assert (Hrow : Main.row_at s1 l = Main.row_at s l).
      { unfold Main.row_at. by rewrite Hother. }
      rewrite Hrow. eexists. split; [reflexivity|].
      split; [by rewrite length_insert|]. split.
      * intros l' Hl'. rewrite fmap_app in Hl'.
        apply not_elem_of_app in Hl' as [Hl1 Hl2].
        rewrite list_lookup_insert_ne; [by apply Hother|].
        intros ->. apply Hl2. simpl. by apply list_elem_of_singleton.
      * intros i' l' Hin. apply elem_of_app in Hin as [Hin|Hin].
        -- rewrite main_row_at_insert. rewrite decide_False; [by apply Hrows|].
           intros [-> _]. apply Hfresh. apply list_elem_of_fmap.
           by exists (i', l').
        -- apply list_elem_of_singleton in Hin. simplify_eq.
           rewrite main_row_at_insert. rewrite decide_True; [done|].
           split; [done|]. by rewrite Hlen.
    + cbn [Main.set_store Main.store Main.prev_cells_table Main.width Main.height].
      fold prev. by rewrite Hprev.
    + done.
    + cbn [Main.set_store Main.store]. by rewrite Hlen.
    + cbn [Main.set_store Main.prev_cells_table]. by apply Hdisj.
  - exists s'. split; [done|]. split; [done|]. split.
    + intros l Hl. apply Hother. by rewrite snd_enumerate.
    + intros i l Hil. apply Hrows. by apply elem_of_enumerate.
Qed.

Lemma ready_cur_shape (st : Main.Life) :
  Main.ready st ->
  has_shape (Main.matrix (Main.store st) (Main.cells_table st))
    (Z.to_nat (Main.width st)) (Z.to_nat (Main.height st)).
Proof.
  intros [Hcur_len _ Hcur_rows _ _ _]. split.
  - unfold Main.matrix. by rewrite length_map.
  - unfold Main.matrix. rewrite Forall_fmap.
    eapply Forall_impl; [exact Hcur_rows|]. by intros l [_ Hl].
Qed.

(** [apply_rules] on tables that are ready for a pass does not raise
    and gives every cell of [cells_table] the state the rules assign
    to it from the matrix the pass started with; [prev_cells_table] and
    the fields other than the store are left as they were. *)
Lemma main_apply_rules (st : Main.Life) :
  Main.ready st ->
  exists s',
    Main.apply_rules st = Ok (Main.set_store st s') /\
    length s' = length (Main.store st) /\
    Main.matrix s' (Main.prev_cells_table st)
    = Main.matrix (Main.store st) (Main.prev_cells_table st) /\
    has_shape (Main.matrix s' (Main.cells_table st))
      (Z.to_nat (Main.width st)) (Z.to_nat (Main.height st)) /\
    forall r c, 0 <= r < Main.height st -> 0 <= c < Main.width st ->
      alive_at (Main.matrix s' (Main.cells_table st)) r c
      = life_rule (alive_at (Main.matrix (Main.store st) (Main.cells_table st)) r c)
          (count_live_neighbors
             (Main.matrix (Main.store st) (Main.cells_table st)) r c).
Proof.
  intros Hready.
  destruct (main_apply_rules_store st Hready) as (s' & Happly & Hlen & Hother & Hrows).
  pose proof (ready_cur_shape st Hready) as Hshape.
  destruct Hready as [Hcur_len Hprev_len Hcur_rows Hnodup Hdisj Hsame].
  rewrite Hsame in Hrows.
  exists s'. split; [done|]. split; [done|].
  rewrite Forall_forall in Hdisj, Hcur_rows.
  split; [|split].
  - apply main_matrix_agree. intros l Hl. apply Hother.
    intros Hin. by apply (Hdisj l Hin).
  - split; [unfold Main.matrix; by rewrite length_map|].
    unfold Main.matrix. rewrite Forall_fmap. apply Forall_forall.
    intros l Hl. simpl. apply list_elem_of_lookup in Hl as [i Hi].
    rewrite (Hrows i l Hi), length_imap.
    apply Hcur_rows. by eapply list_elem_of_lookup_2.
  - intros r c Hr Hc.
    destruct (lookup_lt_is_Some_2 (Main.cells_table st) (Z.to_nat r)) as [l Hl]; [lia|].
    pose proof (list_elem_of_lookup_2 _ _ _ Hl) as Hlin.
    destruct (Hcur_rows l Hlin) as [_ Hw].
    destruct (lookup_lt_is_Some_2 (Main.row_at (Main.store st) l) (Z.to_nat c))
      as [b Hb]; [lia|].
    rewrite (alive_at_lookup (Main.matrix (Main.store st) (Main.cells_table st))
               r c (Main.row_at (Main.store st) l) b); try lia; try done.
    2: { by rewrite main_matrix_lookup, Hl. }
    apply alive_at_lookup with (Main.row_at s' l); try lia.
    + by rewrite main_matrix_lookup, Hl.
    + rewrite (Hrows _ _ Hl), list_lookup_imap, Hb. simpl.
      by rewrite !Z2Nat.id by lia.
Qed.

(** ** Copies of the buffer *)

Lemma row_at_app_l (s extra : list (list bool)) (l : Main.loc) :
  (l < length s)%nat -> Main.row_at (s ++ extra) l = Main.row_at s l.
Proof. intros Hl. unfold Main.row_at. by rewrite lookup_app_l. Qed.

Lemma matrix_app_l (s extra : list (list bool)) (table : list Main.loc) :
  Forall (fun l => (l < length s)%nat) table ->
  Main.matrix (s ++ extra) table = Main.matrix s table.
Proof.
  intros Hvalid. unfold Main.matrix. apply map_ext_in. intros l Hl.
  rewrite Forall_forall in Hvalid. apply row_at_app_l, Hvalid.
  by apply list_elem_of_In.
Qed.

(** The rows that follow a store, read through their addresses. *)
Lemma matrix_appended (s rows : list (list bool)) :
  Main.matrix (s ++ rows) (seq (length s) (length rows)) = rows.
Proof.
  apply list_eq. intros i. rewrite main_matrix_lookup.
  destruct (decide (i < length rows)%nat) as [Hi|Hi].
  - rewrite lookup_seq_lt by done. simpl. unfold Main.row_at.
    rewrite lookup_app_r by lia.
    replace (length s + i - length s)%nat with i by lia.
    by destruct (lookup_lt_is_Some_2 rows i Hi) as [row ->].
  - rewrite lookup_seq_ge by lia. simpl. symmetry. apply lookup_ge_None. lia.
Qed.

(** [deepcopy] of a table of distinct row objects: one new object per
    row, with the same values, placed after the objects that exist. *)
Lemma deepcopy_rows_distinct (table : list Main.loc) (memo : list (Main.loc * Main.loc))
    (s : list (list bool)) :
  NoDup table ->
  Forall (fun e => e.1 ∉ table) memo ->
  Forall (fun l => (l < length s)%nat) table ->
  Main.deepcopy_rows table memo s
  = (s ++ Main.matrix s table, seq (length s) (length table)).
Proof.
  revert memo s. induction table as [|l table IH]; intros memo s Hnd Hmemo Hvalid.
  - simpl. by rewrite app_nil_r.
  - apply NoDup_cons in Hnd as [Hl Hnd]. apply Forall_cons in Hvalid as [Hlt Hvalid].
    cbn [Main.deepcopy_rows].
    assert (Hfind : list_find (fun e : Main.loc * Main.loc => e.1 = l) memo = None).
    { apply list_find_None. eapply Forall_impl; [exact Hmemo|].
      intros e He Heq. apply He. rewrite Heq. apply elem_of_cons. by left. }
    rewrite Hfind. unfold Main.alloc. cbv beta iota zeta.
    rewrite IH.
    + rewrite matrix_app_l by done. rewrite <- app_assoc. simpl.
      rewrite length_app. simpl. by rewrite Nat.add_1_r.
    + done.
    + apply Forall_cons. split; [done|].
      eapply Forall_impl; [exact Hmemo|]. intros e He Hin. apply He.
      apply elem_of_cons. by right.
    + eapply Forall_impl; [exact Hvalid|]. intros l' Hl'. simpl in *.
      rewrite length_app. simpl. lia.
Qed.

(** After [self.prev_cells_table = copy.deepcopy(self.cells_table)] on
    a table of distinct row objects of the recorded size, the tables
    are ready for a pass, and [cells_table] is as it was. *)
Lemma save_buffer_ready (st : Main.Life) :
  length (Main.cells_table st) = Z.to_nat (Main.height st) ->
  Forall (fun l => (l < length (Main.store st))%nat /\
     length (Main.row_at (Main.store st) l) = Z.to_nat (Main.width st))
    (Main.cells_table st) ->
  NoDup (Main.cells_table st) ->
  Main.ready (Main.save_buffer st) /\
  Main.save_buffer st
  = Main.set_tables st
      (Main.store st ++ Main.matrix (Main.store st) (Main.cells_table st))
      (Main.cells_table st)
      (seq (length (Main.store st)) (length (Main.cells_table st))) /\
  Main.matrix (Main.store (Main.save_buffer st)) (Main.cells_table (Main.save_buffer st))
  = Main.matrix (Main.store st) (Main.cells_table st).
Proof.
  intros Hlen Hrows Hnd.
  assert (Hvalid : Forall (fun l => (l < length (Main.store st))%nat)
                     (Main.cells_table st)).
  { eapply Forall_impl; [exact Hrows|]. by intros l [Hl _]. }
  assert (Heq : Main.save_buffer st
    = Main.set_tables st
        (Main.store st ++ Main.matrix (Main.store st) (Main.cells_table st))
        (Main.cells_table st)
        (seq (length (Main.store st)) (length (Main.cells_table st)))).
  { unfold Main.save_buffer, Main.deepcopy.
    by rewrite deepcopy_rows_distinct. }
  rewrite Heq. cbn [Main.set_tables Main.store Main.cells_table].
  split; [|split; [done|by apply matrix_app_l]].
  split; cbn [Main.set_tables Main.store Main.cells_table Main.prev_cells_table
              Main.width Main.height].
  - done.
  - by rewrite length_seq.
  - eapply Forall_impl; [exact Hrows|]. intros l [Hl Hw]. simpl.
    rewrite length_app, row_at_app_l by done. split; [lia|done].
  - done.
  - eapply Forall_impl; [exact Hvalid|]. intros l Hl Hin. simpl in Hl.
    apply elem_of_seq in Hin. lia.
  - rewrite (matrix_app_l _ _ (Main.cells_table st)) by done.
    replace (length (Main.cells_table st))
      with (length (Main.matrix (Main.store st) (Main.cells_table st)))
      by (unfold Main.matrix; by rewrite length_map).
    apply matrix_appended.
Qed.

(** A single iteration of the game on tables that are ready: it does
    not raise, the tables are ready again, the sizes are kept, and
    [cells_table] holds the next generation. *)
Lemma main_step (st : Main.Life) :
  Main.ready st ->
  exists st',
    Main.step st = Ok st' /\ Main.ready st' /\
    Main.width st' = Main.width st /\ Main.height st' = Main.height st /\
    Main.cells_table st' = Main.cells_table st /\
    has_shape (Main.matrix (Main.store st') (Main.cells_table st'))
      (Z.to_nat (Main.width st)) (Z.to_nat (Main.height st)) /\
    forall r c, 0 <= r < Main.height st -> 0 <= c < Main.width st ->
      alive_at (Main.matrix (Main.store st') (Main.cells_table st')) r c
      = life_rule (alive_at (Main.matrix (Main.store st) (Main.cells_table st)) r c)
          (count_live_neighbors
             (Main.matrix (Main.store st) (Main.cells_table st)) r c).
Proof.
  intros Hready.
  destruct (main_apply_rules st Hready) as (s' & Happly & Hlen & Hprev & Hshape & Hcells).
  destruct Hready as [Hcur_len Hprev_len Hcur_rows Hnodup Hdisj Hsame].
  unfold Main.step. rewrite Happly. cbn [mbind result_bind].
  destruct (save_buffer_ready (Main.set_store st s')) as (Hready' & Heq & Hmat).
  - done.
  - cbn [Main.set_store Main.store Main.cells_table Main.width].
    apply Forall_forall. intros l Hl. rewrite Forall_forall in Hcur_rows.
    destruct (Hcur_rows l Hl) as [Hlt _]. split; [lia|].
    destruct Hshape as [_ Hrows]. unfold Main.matrix in Hrows.
    rewrite Forall_fmap, Forall_forall in Hrows. by apply Hrows.
  - done.
  - eexists. split; [reflexivity|]. split; [done|].
    rewrite Hmat. rewrite Heq.
    cbn [Main.set_tables Main.set_store Main.store Main.cells_table
         Main.width Main.height].
    done.
Qed.

(** ** [randomize_table] *)

Lemma slice_rows_spec (s : list (list bool)) (random_values : list bool) (w : Z)
    (starts : list Z) :
  Main.slice_rows s random_values w starts
  = (s ++ map (fun i => py_slice random_values i (i + w)) starts,
     seq (length s) (length starts)).
Proof.
  revert s. induction starts as [|i starts IH]; intros s.
  - simpl. by rewrite app_nil_r.
  - cbn [Main.slice_rows]. unfold Main.alloc. cbv beta iota zeta.
    rewrite IH. rewrite <- app_assoc, length_app. simpl.
    by rewrite Nat.add_1_r.
Qed.

(** The start indices of the rows: one per row of the table. *)
Lemma py_range3_rows (w h : Z) :
  w <> 0 ->
  py_range3 0 (w * h) w
  = Ok (map (fun k => 0 + Z.of_nat k * w) (seq 0 (Z.to_nat h))).
Proof.
  intros Hw. unfold py_range3.
  destruct (Z.eqb_spec w 0); [done|]. do 3 f_equal.
  destruct (Z.ltb_spec 0 w) as [Hpos|Hneg].
  - destruct (Z.ltb_spec 0 (w * h)) as [Hwh|Hwh].
    + assert (0 < h) by nia.
      replace (w * h - 0 + w - 1) with (h * w + (w - 1)) by lia.
      rewrite Z.div_add_l by lia. rewrite Z.div_small by lia. lia.
    + assert (h <= 0) by nia. lia.
  - destruct (Z.ltb_spec (w * h) 0) as [Hwh|Hwh].
    + assert (0 < h) by nia.
      replace (0 - w * h - w - 1) with (h * (- w) + (- w - 1)) by lia.
      rewrite Z.div_add_l by lia. rewrite Z.div_small by lia. lia.
    + assert (h <= 0) by nia. lia.
Qed.

Lemma length_random_choices (draws : nat -> bool) (k : Z) :
  length (Main.random_choices draws k) = Z.to_nat k.
Proof. unfold Main.random_choices. by rewrite length_map, length_seq. Qed.

(** Every slice of [randomize_table] has the recorded width. *)
Lemma random_row_length (draws : nat -> bool) (w h : Z) (k : nat) :
  (k < Z.to_nat h)%nat ->
  length (py_slice (Main.random_choices draws (w * h))
            (0 + Z.of_nat k * w) (0 + Z.of_nat k * w + w))
  = Z.to_nat w.
Proof.
  intros Hk. unfold py_slice. rewrite length_random_choices.
  rewrite length_take, length_drop, length_random_choices.
  unfold py_clamp.
  destruct (Z.le_gt_cases w 0) as [Hw|Hw].
  - assert (w * h <= 0) by nia.
    replace (Z.to_nat (w * h)) with 0%nat by lia. simpl. lia.
  - rewrite Z2Nat.id by nia.
    destruct (Z.ltb_spec (0 + Z.of_nat k * w) 0); [nia|].
    destruct (Z.ltb_spec (0 + Z.of_nat k * w + w) 0); [nia|].
    assert (Z.of_nat k * w + w <= w * h) by nia.
    nia.
Qed.

(** With a positive width, cell [c] of row [k] is draw [k * w + c]. *)
Lemma random_row_lookup (draws : nat -> bool) (w h : Z) (k c : nat) :
  0 < w -> (k < Z.to_nat h)%nat -> (c < Z.to_nat w)%nat ->
  py_slice (Main.random_choices draws (w * h))
    (0 + Z.of_nat k * w) (0 + Z.of_nat k * w + w) !! c
  = Some (draws (k * Z.to_nat w + c)%nat).
Proof.
  intros Hw Hk Hc. unfold py_slice. rewrite length_random_choices.
  unfold py_clamp. rewrite Z2Nat.id by nia.
  destruct (Z.ltb_spec (0 + Z.of_nat k * w) 0); [nia|].
  destruct (Z.ltb_spec (0 + Z.of_nat k * w + w) 0); [nia|].
  assert (Z.of_nat k * w + w <= w * h) by nia.
  rewrite lookup_take_lt by nia. rewrite lookup_drop.
  unfold Main.random_choices. rewrite list_lookup_fmap.
  rewrite lookup_seq_lt by nia. simpl. do 2 f_equal. nia.
Qed.

(** [randomize_table] with a width other than 0 does not raise; it
    leaves the tables ready for a pass, made of row objects that did
    not exist before, and keeps every field but the tables. *)
Lemma main_randomize_table (st : Main.Life) (draws : nat -> bool) :
  Main.width st <> 0 ->
  exists s' prev',
    Main.randomize_table st draws
    = Ok (Main.set_tables st s'
            (seq (length (Main.store st)) (Z.to_nat (Main.height st))) prev') /\
    Main.ready (Main.set_tables st s'
            (seq (length (Main.store st)) (Z.to_nat (Main.height st))) prev') /\
    Forall (fun l => (length (Main.store st) <= l)%nat) prev' /\
    Main.matrix s' (seq (length (Main.store st)) (Z.to_nat (Main.height st)))
    = map (fun k => py_slice
                      (Main.random_choices draws (Main.width st * Main.height st))
                      (0 + Z.of_nat k * Main.width st)
                      (0 + Z.of_nat k * Main.width st + Main.width st))
          (seq 0 (Z.to_nat (Main.height st))).
Proof.
  intros Hw. unfold Main.randomize_table.
  rewrite py_range3_rows by done. cbn [mbind result_bind].
  rewrite slice_rows_spec. rewrite map_map, length_map, length_seq.
  set (rows := map _ (seq 0 (Z.to_nat (Main.height st)))).
  set (s := Main.store st).
  set (cur := seq (length s) (Z.to_nat (Main.height st))).
  assert (Hrows_len : length rows = Z.to_nat (Main.height st)).
  { unfold rows. by rewrite length_map, length_seq. }
  assert (Hmat : Main.matrix (s ++ rows) cur = rows).
  { unfold cur. rewrite <- Hrows_len. apply matrix_appended. }
  destruct (save_buffer_ready
              (Main.set_tables st (s ++ rows) cur (Main.prev_cells_table st)))
    as (Hready & Heq & Hsame).
  - cbn [Main.set_tables Main.cells_table Main.height]. unfold cur.
    by rewrite length_seq.
  - cbn [Main.set_tables Main.cells_table Main.store Main.width].
    apply Forall_forall. intros l Hl. unfold cur in Hl.
    apply elem_of_seq in Hl. rewrite length_app. split; [lia|].
    assert (Hrow : Main.matrix (s ++ rows) cur !! (l - length s)%nat
                   = Some (Main.row_at (s ++ rows) l)).
    { rewrite main_matrix_lookup. unfold cur. rewrite lookup_seq_lt by lia.
      simpl. do 2 f_equal. lia. }
    rewrite Hmat in Hrow.
    assert (Hk : rows !! (l - length s)%nat
                 = Some (py_slice
                      (Main.random_choices draws (Main.width st * Main.height st))
                      (0 + Z.of_nat (l - length s) * Main.width st)
                      (0 + Z.of_nat (l - length s) * Main.width st + Main.width st))).
    { unfold rows. by rewrite list_lookup_fmap, lookup_seq_lt by lia. }
    rewrite Hk in Hrow. injection Hrow as Hrow. rewrite <- Hrow.
    apply random_row_length. lia.
  - cbn [Main.set_tables Main.cells_table]. apply NoDup_seq.
  - unfold Main.save_buffer in Heq, Hready.
    cbn [Main.set_tables Main.store Main.cells_table] in Heq, Hready.
    destruct (Main.deepcopy (s ++ rows) cur) as [s2 prev] eqn:Hcopy.
    exists s2, prev. split; [done|]. split; [exact Hready|].
    cbn [Main.set_tables] in Heq. injection Heq as -> ->.
    split.
    + apply Forall_forall. intros l Hl. apply elem_of_seq in Hl.
      rewrite length_app in Hl. lia.
    + rewrite matrix_app_l; [done|].
      apply Forall_forall. intros l Hl. unfold cur in Hl.
      apply elem_of_seq in Hl. rewrite length_app. lia.
Qed.

(** * The claims *)

Lemma life_rule_follows (b : bool) (n : Z) : follows_rule b (life_rule b n) n.
Proof.
  unfold follows_rule, life_rule. split; intros ->.
  - destruct (Z.eqb_spec n 2); destruct (Z.eqb_spec n 3); simpl;
      split; try done; try tauto; intros [|]; lia.
  - destruct (Z.eqb_spec n 3); split; done.
Qed.


(** C1. One step obeys the rules of the game at every cell, in both
    programs: a live cell with [n] live neighbours is alive in the next
    generation exactly when [n] is 2 or 3, and a dead cell exactly when
    [n] is 3.  [n] is the number of live cells among the eight
    neighbours of the cell in the grid before the step, those outside
    the grid counting for none, and it is the number that the counter
    of the code returns for the cell.  The step returns and keeps the
    sizes.  For [main.py] the tables are those at the start of a pass
    of [run]. *)
Theorem step_follows_rules (g : Game.Grid) (st : Main.Life) :
  Game.wf g -> Main.ready st ->
  (exists g',
     Game.update_grid_full g = Ok g' /\
     Game.wf g' /\ Game.get_size g' = Game.get_size g /\
     forall r c, 0 <= r < Game.y_size g -> 0 <= c < Game.x_size g ->
       follows_rule (alive_at (Game.matrix g) r c)
                    (alive_at (Game.matrix g') r c)
                    (count_live_neighbors (Game.matrix g) r c) /\
       exists neighbours,
         Game.get_neighbours g c r = Ok neighbours /\
         Game.sum_neighbours neighbours
         = count_live_neighbors (Game.matrix g) r c) /\
  (exists st',
     Main.apply_rules st = Ok st' /\
     Main.width st' = Main.width st /\ Main.height st' = Main.height st /\
     has_shape (Main.matrix (Main.store st') (Main.cells_table st'))
       (Z.to_nat (Main.width st)) (Z.to_nat (Main.height st)) /\
     forall r c, 0 <= r < Main.height st -> 0 <= c < Main.width st ->
       follows_rule
         (alive_at (Main.matrix (Main.store st) (Main.cells_table st)) r c)
         (alive_at (Main.matrix (Main.store st') (Main.cells_table st')) r c)
         (count_live_neighbors
            (Main.matrix (Main.store st) (Main.cells_table st)) r c) /\
       Main.get_alive_neighbours st r c
       = Ok (count_live_neighbors
               (Main.matrix (Main.store st) (Main.cells_table st)) r c)).
Proof.
  intros Hwf Hready. split.
  - destruct (game_update_grid_full g Hwf) as (g' & Hstep & Hwf' & Hx & Hy & Hcells).
    exists g'. split; [done|]. split; [done|].
    split; [unfold Game.get_size; by rewrite Hx, Hy|].
    intros r c Hr Hc. split.
    + rewrite (Hcells r c Hr Hc). apply life_rule_follows.
    + eexists. split; [by apply game_get_neighbours|].
      by apply game_sum_neighbours.
  - destruct (main_apply_rules st Hready) as (s' & Happly & _ & _ & Hshape' & Hcells).
    eexists. split; [exact Happly|].
    cbn [Main.set_store Main.store Main.cells_table Main.width Main.height].
    split; [done|]. split; [done|]. split; [exact Hshape'|].
    intros r c Hr Hc. split.
    + rewrite (Hcells r c Hr Hc). apply life_rule_follows.
    + pose proof (ready_cur_shape st Hready) as Hshape.
      rewrite <- (Main.ready_same st Hready) in Hshape.
      rewrite (main_get_alive_neighbours st r c Hshape).
      by rewrite (Main.ready_same st Hready).
Qed.

Lemma step_follows_rules_witness :
  (exists g',
     Game.update_grid_full example_grid = Ok g' /\
     Game.wf g' /\ Game.get_size g' = Game.get_size example_grid /\
     forall r c, 0 <= r < Game.y_size example_grid ->
       0 <= c < Game.x_size example_grid ->
       follows_rule (alive_at (Game.matrix example_grid) r c)
                    (alive_at (Game.matrix g') r c)
                    (count_live_neighbors (Game.matrix example_grid) r c) /\
       exists neighbours,
         Game.get_neighbours example_grid c r = Ok neighbours /\
         Game.sum_neighbours neighbours
         = count_live_neighbors (Game.matrix example_grid) r c) /\
  (exists st',
     Main.apply_rules example_life = Ok st' /\
     Main.width st' = Main.width example_life /\
     Main.height st' = Main.height example_life /\
     has_shape (Main.matrix (Main.store st') (Main.cells_table st'))
       (Z.to_nat (Main.width example_life)) (Z.to_nat (Main.height example_life)) /\
     forall r c, 0 <= r < Main.height example_life ->
       0 <= c < Main.width example_life ->
       follows_rule
         (alive_at (Main.matrix (Main.store example_life)
                      (Main.cells_table example_life)) r c)
         (alive_at (Main.matrix (Main.store st') (Main.cells_table st')) r c)
         (count_live_neighbors
            (Main.matrix (Main.store example_life)
               (Main.cells_table example_life)) r c) /\
       Main.get_alive_neighbours example_life r c
       = Ok (count_live_neighbors
               (Main.matrix (Main.store example_life)
                  (Main.cells_table example_life)) r c)).
Proof.
  apply (step_follows_rules example_grid example_life); [eval_wf | eval_ready].
Defined.

(** The coordinates that [get_alive_neighbours] lists are those of the
    eight offsets around the cell, and the cell itself is not one of
    them. *)
Lemma main_neighbour_indices (r c : Z) :
  (forall p, p ∈ Main.neighbour_indices r c <->
     exists d, d ∈ neighbour_offsets /\ p = (r + d.1, c + d.2)) /\
  ((r, c) ∉ Main.neighbour_indices r c) /\
  length (Main.neighbour_indices r c) = 8%nat.
Proof.
  split; [|split; [|done]].
  - intros p. unfold Main.neighbour_indices, neighbour_offsets. split.
    + intros Hp.
      repeat (apply elem_of_cons in Hp as [->|Hp]);
        [..|by apply elem_of_nil in Hp];
        first [ exists (-1, -1); split; [by repeat constructor|simpl; f_equal; lia]
              | exists (-1, 0); split; [by repeat constructor|simpl; f_equal; lia]
              | exists (-1, 1); split; [by repeat constructor|simpl; f_equal; lia]
              | exists (0, -1); split; [by repeat constructor|simpl; f_equal; lia]
              | exists (0, 1); split; [by repeat constructor|simpl; f_equal; lia]
              | exists (1, -1); split; [by repeat constructor|simpl; f_equal; lia]
              | exists (1, 0); split; [by repeat constructor|simpl; f_equal; lia]
              | exists (1, 1); split; [by repeat constructor|simpl; f_equal; lia] ].
    + intros (d & Hd & ->).
      repeat (apply elem_of_cons in Hd as [->|Hd]);
        [..|by apply elem_of_nil in Hd]; simpl; rewrite ?Z.add_0_r;
        change (r + -1) with (r - 1); change (c + -1) with (c - 1);
        by repeat constructor.
  - unfold Main.neighbour_indices. intros Hin.
    repeat (apply elem_of_cons in Hin as [Heq|Hin]);
      [..|by apply elem_of_nil in Hin]; injection Heq; lia.
Qed.

(** C2. The count of live neighbours of a cell inside the grid, in both
    programs: the code does not raise; [get_neighbours] returns the
    eight probes at the offsets around the cell, in which a coordinate
    outside the bounds is [None] and counts for 0;
    [get_alive_neighbours] lists the coordinates of the same eight
    offsets, the cell itself not among them, and reads those inside the
    bounds; the count is the sum, over the eight offsets, of the cells
    that lie inside the grid, so it is between 0 and 8; and a
    coordinate outside the grid never stands for a cell of the opposite
    edge.  [get_alive_neighbours] tests the bounds of every offset
    itself, so that its part holds at every coordinate. *)
Theorem neighbour_count_bounded (g : Game.Grid) (st : Main.Life) (row col : Z) :
  Game.wf g ->
  has_shape (Main.matrix (Main.store st) (Main.prev_cells_table st))
    (Z.to_nat (Main.width st)) (Z.to_nat (Main.height st)) ->
  0 <= row < Game.y_size g -> 0 <= col < Game.x_size g ->
  (exists neighbours,
     Game.get_neighbours g col row = Ok neighbours /\
     neighbours
     = map (fun d => probe (Game.matrix g) (Game.x_size g) (Game.y_size g)
                       (row + d.1) (col + d.2)) neighbour_offsets /\
     length neighbours = 8%nat /\
     Game.sum_neighbours neighbours = count_live_neighbors (Game.matrix g) row col /\
     0 <= Game.sum_neighbours neighbours <= 8) /\
  (exists n,
     Main.get_alive_neighbours st row col = Ok n /\
     n = count_live_neighbors
           (Main.matrix (Main.store st) (Main.prev_cells_table st)) row col /\
     0 <= n <= 8) /\
  ((forall p, p ∈ Main.neighbour_indices row col <->
      exists d, d ∈ neighbour_offsets /\ p = (row + d.1, col + d.2)) /\
   ((row, col) ∉ Main.neighbour_indices row col)) /\
  (forall r c,
     in_bounds (Game.x_size g) (Game.y_size g) r c = false ->
     probe (Game.matrix g) (Game.x_size g) (Game.y_size g) r c = None /\
     alive_at (Game.matrix g) r c = false) /\
  (forall r c,
     in_bounds (Main.width st) (Main.height st) r c = false ->
     alive_at (Main.matrix (Main.store st) (Main.prev_cells_table st)) r c = false).
Proof.
  intros Hwf Hshape Hrow Hcol.
  assert (Hout : forall (m : list (list bool)) (w h r c : Z),
            has_shape m (Z.to_nat w) (Z.to_nat h) ->
            in_bounds w h r c = false -> alive_at m r c = false).
  { intros m w h r c Hm Hin. apply (alive_at_outside m _ _ r c Hm).
    unfold in_bounds in Hin.
    destruct (Z.leb_spec 0 r); destruct (Z.ltb_spec r h);
      destruct (Z.leb_spec 0 c); destruct (Z.ltb_spec c w);
      try discriminate; lia. }
  split; [|split; [|split; [|split]]].
  - eexists. split; [by apply game_get_neighbours|]. split; [done|].
    split; [done|]. rewrite game_sum_neighbours by done.
    split; [done|]. apply count_live_neighbors_bounds.
  - eexists. split; [by apply main_get_alive_neighbours|]. split; [done|].
    apply count_live_neighbors_bounds.
  - destruct (main_neighbour_indices row col) as (Hall & Hself & _). by split.
  - intros r c Hin. split.
    + unfold probe. by rewrite Hin.
    + eapply Hout; [|exact Hin]. by apply game_matrix_shape.
  - intros r c Hin. by eapply Hout.
Qed.

Lemma neighbour_count_bounded_witness :
  (exists neighbours,
     Game.get_neighbours example_grid 0 0 = Ok neighbours /\
     neighbours
     = map (fun d => probe (Game.matrix example_grid) (Game.x_size example_grid)
                       (Game.y_size example_grid) (0 + d.1) (0 + d.2))
           neighbour_offsets /\
     length neighbours = 8%nat /\
     Game.sum_neighbours neighbours
     = count_live_neighbors (Game.matrix example_grid) 0 0 /\
     0 <= Game.sum_neighbours neighbours <= 8) /\
  (exists n,
     Main.get_alive_neighbours example_life 0 0 = Ok n /\
     n = count_live_neighbors
           (Main.matrix (Main.store example_life)
              (Main.prev_cells_table example_life)) 0 0 /\
     0 <= n <= 8) /\
  ((forall p, p ∈ Main.neighbour_indices 0 0 <->
      exists d, d ∈ neighbour_offsets /\ p = (0 + d.1, 0 + d.2)) /\
   ((0, 0) ∉ Main.neighbour_indices 0 0)) /\
  (forall r c,
     in_bounds (Game.x_size example_grid) (Game.y_size example_grid) r c = false ->
     probe (Game.matrix example_grid) (Game.x_size example_grid)
       (Game.y_size example_grid) r c = None /\
     alive_at (Game.matrix example_grid) r c = false) /\
  (forall r c,
     in_bounds (Main.width example_life) (Main.height example_life) r c = false ->
     alive_at (Main.matrix (Main.store example_life)
                 (Main.prev_cells_table example_life)) r c = false).
Proof.
  apply (neighbour_count_bounded example_grid example_life 0 0);
    [eval_wf | eval_wf | simpl; lia ..].
Defined.

Lemma next_generation_shape (m : list (list bool)) (w h : nat) :
  has_shape m w h -> has_shape (next_generation m) w h.
Proof.
  intros [Hlen Hrows]. unfold next_generation. split.
  - by rewrite length_imap.
  - apply Forall_lookup. intros i row Hrow.
    rewrite list_lookup_imap in Hrow.
    destruct (m !! i) as [row0|] eqn:Hrow0; [|done].
    simpl in Hrow. injection Hrow as <-. rewrite length_imap.
    rewrite Forall_lookup in Hrows. by eapply Hrows.
Qed.

Lemma next_generation_cell (m : list (list bool)) (w h : nat) (r c : Z) :
  has_shape m w h -> 0 <= r < Z.of_nat h -> 0 <= c < Z.of_nat w ->
  alive_at (next_generation m) r c
  = life_rule (alive_at m r c) (count_live_neighbors m r c).
Proof.
  intros [Hlen Hrows] Hr Hc.
  destruct (lookup_lt_is_Some_2 m (Z.to_nat r)) as [row Hrow]; [lia|].
  rewrite Forall_lookup in Hrows. pose proof (Hrows _ _ Hrow) as Hw.
  destruct (lookup_lt_is_Some_2 row (Z.to_nat c)) as [b Hb]; [lia|].
  rewrite (alive_at_lookup m r c row b) by (lia || done).
  eapply alive_at_lookup; [lia|lia| |].
  - unfold next_generation. by rewrite list_lookup_imap, Hrow.
  - rewrite list_lookup_imap, Hb. simpl. by rewrite !Z2Nat.id by lia.
Qed.

(** A matrix whose cells all follow the rules from [m] is the next
    generation of [m]. *)
Lemma next_generation_unique (m m' : list (list bool)) (w h : nat) :
  has_shape m w h -> has_shape m' w h ->
  (forall r c, 0 <= r < Z.of_nat h -> 0 <= c < Z.of_nat w ->
     alive_at m' r c = life_rule (alive_at m r c) (count_live_neighbors m r c)) ->
  m' = next_generation m.
Proof.
  intros Hm Hm' Hcells. apply (matrix_ext _ _ w h); [done| |].
  - by apply next_generation_shape.
  - intros r c Hr Hc. rewrite (next_generation_cell m w h) by done.
    by apply Hcells.
Qed.

Lemma game_wf_of_matrix (g : Game.Grid) :
  has_shape (Game.matrix g) (Z.to_nat (Game.x_size g)) (Z.to_nat (Game.y_size g)) ->
  Game.wf g.
Proof.
  intros [Hlen Hrows]. unfold Game.matrix in *. split.
  - by rewrite length_map in Hlen.
  - rewrite Forall_fmap in Hrows. eapply Forall_impl; [exact Hrows|].
    intros row Hrow. simpl in Hrow. by rewrite length_map in Hrow.
Qed.

(** The buffered step of [game.py] computes the next generation. *)
Lemma game_update_is_next_generation (g g' : Game.Grid) :
  Game.wf g -> Game.update_grid_full g = Ok g' ->
  Game.wf g' /\ Game.x_size g' = Game.x_size g /\ Game.y_size g' = Game.y_size g /\
  Game.matrix g' = next_generation (Game.matrix g).
Proof.
  intros Hwf Hstep.
  destruct (game_update_grid_full g Hwf) as (g1 & Hstep1 & Hwf1 & Hx & Hy & Hcells).
  rewrite Hstep in Hstep1. injection Hstep1 as <-.
  split; [done|]. split; [done|]. split; [done|].
  apply (next_generation_unique _ _ (Z.to_nat (Game.x_size g)) (Z.to_nat (Game.y_size g))).
  - by apply game_matrix_shape.
  - rewrite <- Hx, <- Hy. by apply game_matrix_shape.
  - intros r c Hr Hc. apply Hcells; lia.
Qed.

(** The in-place step of [main.py] computes the next generation. *)
Lemma main_step_is_next_generation (st : Main.Life) :
  Main.ready st ->
  exists st1 st2,
    Main.apply_rules st = Ok st1 /\ Main.step st = Ok st2 /\
    Main.ready st2 /\
    Main.width st2 = Main.width st /\ Main.height st2 = Main.height st /\
    Main.matrix (Main.store st1) (Main.cells_table st1)
    = next_generation (Main.matrix (Main.store st) (Main.cells_table st)) /\
    Main.matrix (Main.store st2) (Main.cells_table st2)
    = next_generation (Main.matrix (Main.store st) (Main.cells_table st)).
Proof.
  intros Hready.
  pose proof (ready_cur_shape st Hready) as Hshape.
  destruct (main_apply_rules st Hready) as (s' & Happly & _ & _ & Hshape1 & Hcells1).
  destruct (main_step st Hready)
    as (st2 & Hstep & Hready2 & Hw & Hh & _ & Hshape2 & Hcells2).
  eexists. exists st2. split; [exact Happly|]. split; [done|]. split; [done|].
  split; [done|]. split; [done|]. split.
  - eapply next_generation_unique; [exact Hshape|exact Hshape1|].
    intros r c Hr Hc. apply Hcells1; lia.
  - eapply next_generation_unique; [exact Hshape|exact Hshape2|].
    intros r c Hr Hc. apply Hcells2; lia.
Qed.

(** ** Other orders of visit *)

Lemma elem_of_all_cells (w h i x : nat) :
  (i, x) ∈ Main.all_cells w h <-> (i < h)%nat /\ (x < w)%nat.
Proof.
  unfold Main.all_cells. rewrite list_elem_of_bind. split.
  - intros (i' & Hx & Hi). apply list_elem_of_fmap in Hx as (x' & Heq & Hx).
    injection Heq as -> ->. apply elem_of_seq in Hi, Hx. lia.
  - intros [Hi Hx]. exists i. split.
    + apply list_elem_of_fmap. exists x. split; [done|]. apply elem_of_seq. lia.
    + apply elem_of_seq. lia.
Qed.

Lemma NoDup_all_cells (w h : nat) : NoDup (Main.all_cells w h).
Proof.
  unfold Main.all_cells. apply NoDup_bind.
  - intros i1 i2 p _ _ H1 H2.
    apply list_elem_of_fmap in H1 as (x1 & -> & _).
    apply list_elem_of_fmap in H2 as (x2 & Heq & _). by injection Heq.
  - intros i _. apply NoDup_fmap_2; [|apply NoDup_seq].
    intros x1 x2 Heq. by injection Heq.
  - apply NoDup_seq.
Qed.

(** The passes of [apply_rules] give the next generation in whatever
    order the cells are visited, as long as each cell is visited once:
    the count is taken in [prev_cells_table], which no pass writes, and
    a cell is read before it is written. *)
Lemma main_apply_rules_in_order (st : Main.Life) (order : list (nat * nat)) :
  Main.ready st ->
  order ≡ₚ Main.all_cells (Z.to_nat (Main.width st)) (Z.to_nat (Main.height st)) ->
  exists s',
    Main.apply_rules_in_order order st = Ok (Main.set_store st s') /\
    Main.matrix s' (Main.cells_table st)
    = next_generation (Main.matrix (Main.store st) (Main.cells_table st)).
Proof.
  intros Hready Horder.
  pose proof (ready_cur_shape st Hready) as Hshape.
  destruct Hready as [Hcur_len Hprev_len Hcur_rows Hnodup Hdisj Hsame].
  set (s := Main.store st) in *. set (cur := Main.cells_table st) in *.
  set (prev := Main.prev_cells_table st) in *. set (M := Main.matrix s prev).
  set (f := fun (i x : nat) (b : bool) =>
              life_rule b (count_live_neighbors M (Z.of_nat i) (Z.of_nat x))).
  assert (HshapeM : has_shape M (Z.to_nat (Main.width st)) (Z.to_nat (Main.height st))).
  { unfold M. by rewrite Hsame. }
  assert (Hnd : NoDup order) by (rewrite Horder; apply NoDup_all_cells).
  rewrite Forall_forall in Hcur_rows, Hdisj.
  pose (I := fun (visited : list (nat * nat)) (st1 : Main.Life) =>
    exists s1,
      st1 = Main.set_store st s1 /\
      length s1 = length s /\
      (forall l, l ∉ cur -> s1 !! l = s !! l) /\
      (forall i l, cur !! i = Some l ->
         length (Main.row_at s1 l) = length (Main.row_at s l) /\
         forall x b, Main.row_at s l !! x = Some b ->
           Main.row_at s1 l !! x
           = Some (if bool_decide ((i, x) ∈ visited) then f i x b else b))).
  unfold Main.apply_rules_in_order.
  destruct (for_each_invariant I order
    (fun st p => match Main.cells_table st !! p.1 with
                 | Some row => Main.apply_rules_cell (Z.of_nat p.1) row st p.2
                 | None => Ok st
                 end) st)
    as (st' & Hloop & s' & -> & Hlen & Hother & Hrows); unfold I in *; clear I.
  - exists s. split; [by rewrite set_store_same|]. split; [done|].
    split; [done|]. intros i l Hil. split; [done|]. intros x b Hb.
    by rewrite bool_decide_eq_false_2 by apply not_elem_of_nil.
  - intros visited [i x] rest st1 Hxs (s1 & -> & Hlen & Hother & Hrows).
    assert (Hin : (i < Z.to_nat (Main.height st))%nat /\
                  (x < Z.to_nat (Main.width st))%nat).
    { apply elem_of_all_cells. rewrite <- Horder. by eapply elem_of_visiting. }
    assert (Hfresh : (i, x) ∉ visited) by (by eapply visiting_fresh).
    destruct (lookup_lt_is_Some_2 cur i) as [l Hil]; [lia|].
    pose proof (list_elem_of_lookup_2 _ _ _ Hil) as Hlcur.
    destruct (Hcur_rows l Hlcur) as [Hlt Hw].
    destruct (lookup_lt_is_Some_2 (Main.row_at s l) x) as [b Hb]; [lia|].
    destruct (Hrows i l Hil) as [Hlen1 Hrow1].
    assert (Hprev : Main.matrix s1 prev = M).
    { apply main_matrix_agree. intros l' Hl'. apply Hother.
      intros Hin'. by apply (Hdisj l' Hin'). }
    cbn [fst snd Main.set_store Main.cells_table]. fold cur. rewrite Hil.
    rewrite (main_apply_rules_cell (Main.set_store st s1) i x l b).
    + cbn [Main.set_store Main.store Main.prev_cells_table]. fold prev.
      rewrite Hprev. fold (f i x b). eexists. split; [reflexivity|].
      eexists. split; [reflexivity|]. split; [by rewrite length_insert|]. split.
      * intros l' Hl'. rewrite list_lookup_insert_ne; [by apply Hother|].
        by intros ->.
      * intros i' l' Hil'. rewrite main_row_at_insert.
        destruct (decide (l = l' /\ (l < length s1)%nat)) as [[<- _]|Hne].
        -- assert (i' = i) as -> by exact (NoDup_lookup cur i' i l Hnodup Hil' Hil).
           split; [by rewrite length_insert|]. intros x' b' Hb'.
           destruct (decide (x' = x)) as [->|Hx].
           ++ rewrite list_lookup_insert_eq by lia. rewrite visited_snoc_same.
              by simplify_eq.
           ++ rewrite list_lookup_insert_ne by done.
              rewrite visited_snoc_other by congruence. by apply Hrow1.
        -- assert (l <> l') by (intros ->; apply Hne; split; [done|lia]).
           destruct (Hrows i' l' Hil') as [Hlen' Hrow']. split; [done|].
           intros x' b' Hb'. rewrite visited_snoc_other; [by apply Hrow'|].
           intros [= -> ->]. congruence.
    + cbn [Main.set_store Main.store Main.prev_cells_table Main.width Main.height].
      fold prev. by rewrite Hprev.
    + done.
    + cbn [Main.set_store Main.store]. lia.
    + cbn [Main.set_store Main.store]. rewrite (Hrow1 x b Hb).
      by rewrite bool_decide_eq_false_2.
  - exists s'. split; [done|].
    eapply next_generation_unique; [exact Hshape| |].
    + split; [unfold Main.matrix; by rewrite length_map|].
      unfold Main.matrix. rewrite Forall_fmap. apply Forall_forall.
      intros l Hl. simpl. pose proof Hl as Hl'.
      apply list_elem_of_lookup in Hl' as [i Hi].
      destruct (Hrows i l Hi) as [-> _]. by apply Hcur_rows.
    + intros r c Hr Hc.
      destruct (lookup_lt_is_Some_2 cur (Z.to_nat r)) as [l Hl]; [lia|].
      pose proof (list_elem_of_lookup_2 _ _ _ Hl) as Hlin.
      destruct (Hcur_rows l Hlin) as [_ Hw].
      destruct (lookup_lt_is_Some_2 (Main.row_at s l) (Z.to_nat c)) as [b Hb]; [lia|].
      rewrite (alive_at_lookup (Main.matrix s cur) r c (Main.row_at s l) b);
        try lia; try done.
      2: { by rewrite main_matrix_lookup, Hl. }
      apply alive_at_lookup with (Main.row_at s' l); try lia.
      * by rewrite main_matrix_lookup, Hl.
      * destruct (Hrows _ _ Hl) as [_ Hrow]. rewrite (Hrow _ _ Hb).
        rewrite bool_decide_eq_true_2.
        -- unfold f, M. fold s cur prev in Hsame. rewrite Hsame.
           by rewrite !Z2Nat.id by lia.
        -- rewrite Horder. apply elem_of_all_cells. lia.
Qed.

(** C3. The in-place pass of [main.py] and the buffered step of
    [game.py] give the same next generation.  From the tables at the
    start of a pass of [run] and a grid with the same sizes and the same
    matrix, [apply_rules] and [update_grid_full] both return, with equal
    matrices; this matrix is [next_generation] of the matrix the step
    started from, a function of that snapshot alone, and the passes of
    [apply_rules] give it in whatever order they visit the cells.  After
    the copy of the buffer the tables are ready for the next pass with
    the sizes of the new grid, so the agreement carries on from pass to
    pass. *)
Theorem in_place_step_equals_buffered_step (st : Main.Life) (g : Game.Grid) :
  Main.ready st ->
  Game.x_size g = Main.width st -> Game.y_size g = Main.height st ->
  Game.matrix g = Main.matrix (Main.store st) (Main.cells_table st) ->
  exists st1 st2 g',
    Main.apply_rules st = Ok st1 /\
    Main.step st = Ok st2 /\
    Game.update_grid_full g = Ok g' /\
    Main.matrix (Main.store st1) (Main.cells_table st1) = Game.matrix g' /\
    Main.matrix (Main.store st2) (Main.cells_table st2) = Game.matrix g' /\
    Game.matrix g' = next_generation (Game.matrix g) /\
    Main.ready st2 /\
    Game.x_size g' = Main.width st2 /\ Game.y_size g' = Main.height st2 /\
    forall order,
      order ≡ₚ Main.all_cells (Z.to_nat (Main.width st)) (Z.to_nat (Main.height st)) ->
      exists st3,
        Main.apply_rules_in_order order st = Ok st3 /\
        Main.matrix (Main.store st3) (Main.cells_table st3) = Game.matrix g'.
Proof.
  intros Hready Hx Hy Hmatrix.
  assert (Hwf : Game.wf g).
  { apply game_wf_of_matrix. rewrite Hmatrix, Hx, Hy. by apply ready_cur_shape. }
  destruct (main_step_is_next_generation st Hready)
    as (st1 & st2 & Happly & Hstep & Hready2 & Hw & Hh & Hm1 & Hm2).
  destruct (game_update_grid_full g Hwf) as (g' & Hupdate & _).
  destruct (game_update_is_next_generation g g' Hwf Hupdate)
    as (_ & Hx' & Hy' & Hnext).
  exists st1, st2, g'. rewrite Hm1, Hm2, Hnext, Hmatrix.
  do 6 (split; [done|]). split; [exact Hready2|].
  split; [congruence|]. split; [congruence|].
  intros order Horder.
  destruct (main_apply_rules_in_order st order Hready Horder) as (s' & Hrun & Hm3).
  eexists. split; [exact Hrun|]. exact Hm3.
Qed.

Lemma in_place_step_equals_buffered_step_witness :
  exists st1 st2 g',
    Main.apply_rules example_life = Ok st1 /\
    Main.step example_life = Ok st2 /\
    Game.update_grid_full example_grid = Ok g' /\
    Main.matrix (Main.store st1) (Main.cells_table st1) = Game.matrix g' /\
    Main.matrix (Main.store st2) (Main.cells_table st2) = Game.matrix g' /\
    Game.matrix g' = next_generation (Game.matrix example_grid) /\
    Main.ready st2 /\
    Game.x_size g' = Main.width st2 /\ Game.y_size g' = Main.height st2 /\
    forall order,
      order ≡ₚ Main.all_cells (Z.to_nat (Main.width example_life))
                 (Z.to_nat (Main.height example_life)) ->
      exists st3,
        Main.apply_rules_in_order order example_life = Ok st3 /\
        Main.matrix (Main.store st3) (Main.cells_table st3) = Game.matrix g'.
Proof.
  apply (in_place_step_equals_buffered_step example_life example_grid);
    [eval_ready | reflexivity ..].
Defined.

(** ** Construction *)

Lemma replicate_table_matrix (s : list (list bool)) (l : Main.loc) (n w : nat) :
  s !! l = Some (replicate w false) ->
  Main.matrix s (replicate n l) = replicate n (replicate w false).
Proof.
  intros Hl. unfold Main.matrix. induction n as [|n IH]; [done|].
  simpl. rewrite IH. f_equal. unfold Main.row_at. by rewrite Hl.
Qed.

Lemma replicate_shape (w h : nat) :
  has_shape (replicate h (replicate w false)) w h.
Proof.
  split; [by rewrite length_replicate|].
  apply Forall_forall. intros row Hrow.
  apply elem_of_replicate_inv in Hrow. subst. by rewrite length_replicate.
Qed.

Lemma replicate_dead (w h : nat) (r c : Z) :
  alive_at (replicate h (replicate w false)) r c = false.
Proof.
  unfold alive_at. destruct ((r <? 0) || (c <? 0)); [done|].
  destruct (replicate h (replicate w false) !! Z.to_nat r) as [row|] eqn:Hrow; [|done].
  apply lookup_replicate in Hrow as [-> _].
  destruct (replicate w false !! Z.to_nat c) as [b|] eqn:Hb; [|done].
  by apply lookup_replicate in Hb as [-> _].
Qed.

(** C4, counterexample.  A grid of width 0 and height 5 is built without
    any error, by [Grid.__init__] and by [Life.__init__], and so is one
    of negative sizes. *)
Lemma construction_with_width_zero_succeeds :
  Game.init 0 5
  = Ok {| Game.x_size := 0; Game.y_size := 5; Game.cells := [[]; []; []; []; []] |} /\
  (exists st, Main.init (Some (80, 24)) 0 (Some 0) (Some 5) true = Ok st /\
     Main.width st = 0 /\ Main.height st = 5) /\
  (exists g, Game.init (-2) (-3) = Ok g) /\
  ~ (forall w h, w <= 0 \/ h <= 0 -> exists e, Game.init w h = Raise e) /\
  ~ (forall w h, w <= 0 \/ h <= 0 ->
       exists e, Main.init (Some (80, 24)) 0 (Some w) (Some h) true = Raise e).
Proof.
  split; [reflexivity|]. split; [by eexists|]. split; [by eexists|]. split.
  - intros Hfail. destruct (Hfail 0 5) as [e He]; [lia|]. discriminate He.
  - intros Hfail. destruct (Hfail 0 5) as [e He]; [lia|]. discriminate He.
Qed.

(** C4, as amended.  Construction makes no check on the sizes and never
    fails.  For every width and height it records them and allocates
    [max(height, 0)] rows of [max(width, 0)] cells, all of them dead: a
    matrix of [width] by [height] cells when both are at least 1, and a
    grid without cells when one of them is 0 or negative. *)
Theorem construction_allocates_dead_cells (w h : Z) :
  (exists g,
     Game.init w h = Ok g /\
     Game.x_size g = w /\ Game.y_size g = h /\
     has_shape (Game.matrix g) (Z.to_nat w) (Z.to_nat h) /\
     forall r c, alive_at (Game.matrix g) r c = false) /\
  (forall term now clear_screen, exists st,
     Main.init term now (Some w) (Some h) clear_screen = Ok st /\
     Main.width st = w /\ Main.height st = h /\
     has_shape (Main.matrix (Main.store st) (Main.cells_table st))
       (Z.to_nat w) (Z.to_nat h) /\
     has_shape (Main.matrix (Main.store st) (Main.prev_cells_table st))
       (Z.to_nat w) (Z.to_nat h) /\
     forall r c,
       alive_at (Main.matrix (Main.store st) (Main.cells_table st)) r c = false /\
       alive_at (Main.matrix (Main.store st) (Main.prev_cells_table st)) r c = false).
Proof.
  split.
  - eexists. split; [reflexivity|]. split; [done|]. split; [done|].
    split; [apply game_matrix_shape, fresh_cells_shape|].
    intros r c. apply fresh_cells_dead.
  - intros term now clear_screen. eexists. split; [reflexivity|].
    cbn [Main.width Main.height Main.store Main.cells_table Main.prev_cells_table].
    rewrite (replicate_table_matrix _ 0%nat _ (Z.to_nat w)) by done.
    rewrite (replicate_table_matrix _ 1%nat _ (Z.to_nat w)) by done.
    split; [done|]. split; [done|].
    split; [apply replicate_shape|]. split; [apply replicate_shape|].
    intros r c. split; apply replicate_dead.
Qed.

(** ** Cell access *)

Lemma py_getitem_position {A : Type} (l : list A) (i : Z) :
  - Z.of_nat (length l) <= i < Z.of_nat (length l) ->
  py_getitem l i = py_getitem l (py_position (Z.of_nat (length l)) i).
Proof.
  intros Hi. unfold py_getitem, py_position. cbv zeta.
  destruct (i <? 0) eqn:Hneg; [|by repeat rewrite Hneg].
  apply Z.ltb_lt in Hneg.
  destruct (i + Z.of_nat (length l) <? 0) eqn:Hlow; [|by repeat rewrite Hlow].
  apply Z.ltb_lt in Hlow. lia.
Qed.

Lemma py_setitem_position {A : Type} (l : list A) (i : Z) (v : A) :
  - Z.of_nat (length l) <= i < Z.of_nat (length l) ->
  py_setitem l i v = py_setitem l (py_position (Z.of_nat (length l)) i) v.
Proof.
  intros Hi. unfold py_setitem, py_position. cbv zeta.
  destruct (i <? 0) eqn:Hneg; [|by repeat rewrite Hneg].
  apply Z.ltb_lt in Hneg.
  destruct (i + Z.of_nat (length l) <? 0) eqn:Hlow; [|by repeat rewrite Hlow].
  apply Z.ltb_lt in Hlow. lia.
Qed.

Lemma py_getitem_outside {A : Type} (l : list A) (i : Z) :
  i < - Z.of_nat (length l) \/ Z.of_nat (length l) <= i ->
  py_getitem l i = Raise IndexError.
Proof.
  intros Hi. unfold py_getitem. cbv zeta.
  destruct (i <? 0) eqn:Hneg.
  - apply Z.ltb_lt in Hneg.
    destruct (i + Z.of_nat (length l) <? 0) eqn:Hlow; [done|].
    apply Z.ltb_ge in Hlow. lia.
  - repeat rewrite Hneg. apply Z.ltb_ge in Hneg. simpl.
    destruct (Z.leb_spec (Z.of_nat (length l)) i); [done|lia].
Qed.

Lemma py_position_range (n i : Z) :
  - n <= i < n -> 0 <= py_position n i < n.
Proof. intros Hi. unfold py_position. destruct (Z.ltb_spec i 0); lia. Qed.

(** [flip_cell] at a position inside the matrix toggles that cell only. *)
Lemma game_flip_cell_inside (g : Game.Grid) (x y : Z) :
  Game.wf g -> 0 <= x < Game.x_size g -> 0 <= y < Game.y_size g ->
  exists g',
    Game.flip_cell g x y = Ok g' /\ Game.wf g' /\
    Game.x_size g' = Game.x_size g /\ Game.y_size g' = Game.y_size g /\
    forall r c, alive_at (Game.matrix g') r c
                = if (r =? y) && (c =? x) then negb (alive_at (Game.matrix g) r c)
                  else alive_at (Game.matrix g) r c.
Proof.
  intros Hwf Hx Hy. unfold Game.flip_cell.
  destruct (game_cell_lookup (Game.cells g) _ _ x y Hwf)
    as (row & c0 & _ & _ & _ & Hrow & Hc0 & Halive); [lia..|].
  rewrite Hrow. cbn [mbind result_bind]. rewrite Hc0. cbn [mbind result_bind].
  destruct (game_set_alive (Game.cells g) _ _ x y (negb (Game.alive c0)) Hwf)
    as (cs' & Hset & Hshape & Hat); [lia..|].
  rewrite Hset. cbn [mbind result_bind]. eexists. split; [reflexivity|].
  split; [exact Hshape|]. split; [done|]. split; [done|].
  intros r c. unfold Game.matrix at 1. cbn [Game.cells]. rewrite Hat.
  destruct (Z.eqb_spec r y) as [->|]; [|done].
  destruct (Z.eqb_spec c x) as [->|]; [|done]. simpl.
  by rewrite Halive.
Qed.

(** Python indices that count from the end address the same cell as the
    position they stand for. *)
Lemma game_flip_cell_position (g : Game.Grid) (x y : Z) :
  Game.wf g ->
  - Game.x_size g <= x < Game.x_size g -> - Game.y_size g <= y < Game.y_size g ->
  Game.flip_cell g x y
  = Game.flip_cell g (py_position (Game.x_size g) x) (py_position (Game.y_size g) y).
Proof.
  intros Hwf Hx Hy.
  pose proof (py_position_range _ _ Hx) as Hx'.
  pose proof (py_position_range _ _ Hy) as Hy'.
  destruct (game_cell_lookup (Game.cells g) _ _
              (py_position (Game.x_size g) x) (py_position (Game.y_size g) y) Hwf)
    as (row & c0 & _ & _ & Hw & Hrow & Hc0 & _); [lia..|].
  destruct Hwf as [Hlen Hrows].
  assert (Hgy : py_getitem (Game.cells g) y = Ok row).
  { rewrite py_getitem_position by lia. rewrite Hlen, Z2Nat.id by lia. done. }
  assert (Hgx : py_getitem row x = Ok c0).
  { rewrite py_getitem_position by lia. rewrite Hw, Z2Nat.id by lia. done. }
  unfold Game.flip_cell, Game.set_alive.
  rewrite Hgy, Hrow. cbn [mbind result_bind].
  rewrite Hgx, Hc0. cbn [mbind result_bind].
  rewrite (py_setitem_position row x) by lia. rewrite Hw, Z2Nat.id by lia.
  destruct (py_setitem row _ _) as [row'|e]; [|done]. cbn [mbind result_bind].
  rewrite (py_setitem_position (Game.cells g) y) by lia.
  by rewrite Hlen, Z2Nat.id by lia.
Qed.

(** C5, counterexample.  On a grid of 2 by 2 dead cells, [flip_cell] at
    the negative coordinates (-1, -1) raises nothing: it turns on the
    cell of the last row and last column. *)
Lemma flip_cell_negative_index_addresses_cell :
  Game.flip_cell
    {| Game.x_size := 2; Game.y_size := 2;
       Game.cells := Game.fresh_cells 2 2 |} (-1) (-1)
  = Ok {| Game.x_size := 2; Game.y_size := 2;
          Game.cells := [ [ {| Game.alive := false |}; {| Game.alive := false |} ];
                          [ {| Game.alive := false |}; {| Game.alive := true |} ] ] |}.
Proof. reflexivity. Qed.

(** C5, as amended.  [flip_cell] follows the index rules of Python
    lists.  With the row outside [-height, height) or the column outside
    [-width, width) it raises [IndexError] and the grid is not changed.
    Inside these ranges it does not raise; a negative row or column
    counts from the end (row + height, column + width), and the flip
    toggles the cell addressed and no other. *)
Theorem flip_cell_index_rules (g : Game.Grid) (x y : Z) :
  Game.wf g ->
  (- Game.y_size g <= y < Game.y_size g ->
   - Game.x_size g <= x < Game.x_size g ->
   exists g',
     Game.flip_cell g x y = Ok g' /\ Game.wf g' /\
     Game.x_size g' = Game.x_size g /\ Game.y_size g' = Game.y_size g /\
     forall r c,
       alive_at (Game.matrix g') r c
       = if (r =? py_position (Game.y_size g) y) &&
            (c =? py_position (Game.x_size g) x)
         then negb (alive_at (Game.matrix g) r c)
         else alive_at (Game.matrix g) r c) /\
  (y < - Game.y_size g \/ Game.y_size g <= y \/
   x < - Game.x_size g \/ Game.x_size g <= x ->
   Game.flip_cell g x y = Raise IndexError).
Proof.
  intros Hwf. split.
  - intros Hy Hx. rewrite game_flip_cell_position by done.
    apply game_flip_cell_inside; [done|by apply py_position_range..].
  - intros Hout. unfold Game.flip_cell.
    destruct Hwf as [Hlen Hrows].
    destruct (decide (y < - Game.y_size g \/ Game.y_size g <= y)) as [Hy|Hy].
    + rewrite py_getitem_outside; [done|]. rewrite Hlen. lia.
    + assert (Hyin : - Game.y_size g <= y < Game.y_size g) by lia.
      rewrite py_getitem_position by lia.
      pose proof (py_position_range _ _ Hyin) as Hy'.
      destruct (lookup_lt_is_Some_2 (Game.cells g)
                  (Z.to_nat (py_position (Game.y_size g) y))) as [row Hrow]; [lia|].
      rewrite Hlen, Z2Nat.id by lia.
      rewrite (py_getitem_ok _ _ row) by (lia || done). cbn [mbind result_bind].
      rewrite Forall_lookup in Hrows. pose proof (Hrows _ _ Hrow) as Hw.
      rewrite py_getitem_outside; [done|]. rewrite Hw. lia.
Qed.

Lemma flip_cell_index_rules_witness :
  (exists g',
     Game.flip_cell example_grid 2 (-1) = Ok g' /\ Game.wf g' /\
     Game.x_size g' = Game.x_size example_grid /\
     Game.y_size g' = Game.y_size example_grid /\
     forall r c,
       alive_at (Game.matrix g') r c
       = if (r =? py_position (Game.y_size example_grid) (-1)) &&
            (c =? py_position (Game.x_size example_grid) 2)
         then negb (alive_at (Game.matrix example_grid) r c)
         else alive_at (Game.matrix example_grid) r c) /\
  Game.flip_cell example_grid 4 0 = Raise IndexError.
Proof.
  split.
  - apply (proj1 (flip_cell_index_rules example_grid 2 (-1) ltac:(eval_wf)));
      simpl; lia.
  - apply (proj2 (flip_cell_index_rules example_grid 4 0 ltac:(eval_wf))).
    simpl; lia.
Defined.

(** ** Printing *)

Lemma map_result_ok {A B : Type} (f : A -> result B) (g : A -> B) (xs : list A) :
  (forall x, x ∈ xs -> f x = Ok (g x)) -> map_result f xs = Ok (map g xs).
Proof.
  intros Hf. induction xs as [|x xs IH]; [done|].
  simpl. rewrite Hf by (apply elem_of_cons; by left). cbn [mbind result_bind].
  rewrite IH; [done|]. intros y Hy. apply Hf, elem_of_cons. by right.
Qed.

(** [print_cells_table] on a table of the recorded size: with at least
    one row and a clock that has moved since [start_time] it returns one
    row of characters per row of the table; it raises
    [ZeroDivisionError] when the clock has not moved, and otherwise
    [IndexError] when the table has no row. *)
Lemma main_print_cells_table (st : Main.Life) (now : Z) (info : list ascii) :
  has_shape (Main.matrix (Main.store st) (Main.cells_table st))
    (Z.to_nat (Main.width st)) (Z.to_nat (Main.height st)) ->
  (now = Main.start_time st ->
   Main.print_cells_table st now info = Raise ZeroDivisionError) /\
  (now <> Main.start_time st -> Main.height st <= 0 ->
   Main.print_cells_table st now info = Raise IndexError) /\
  (now <> Main.start_time st -> 1 <= Main.height st ->
   exists rows,
     Main.print_cells_table st now info = Ok rows /\
     length rows = Z.to_nat (Main.height st)).
Proof.
  intros Hshape. unfold Main.print_cells_table.
  rewrite (map_result_ok _
    (fun r => map (fun c => if alive_at (Main.matrix (Main.store st)
                                 (Main.cells_table st)) r c
                            then "X"%char else " "%char)
                  (py_range (Main.width st)))).
  2: { intros r Hr. apply map_result_ok. intros c Hc.
       apply elem_of_py_range in Hr, Hc.
       by rewrite (main_read_cell _ _ _ _ r c Hshape) by lia. }
  cbn [mbind result_bind].
  split; [|split].
  - intros ->. by rewrite Z.sub_diag.
  - intros Hnow Hh. destruct (Z.eqb_spec (now - Main.start_time st) 0); [lia|].
    unfold py_range. replace (Z.to_nat (Main.height st)) with 0%nat by lia.
    reflexivity.
  - intros Hnow Hh. destruct (Z.eqb_spec (now - Main.start_time st) 0); [lia|].
    set (rows := map _ (py_range (Main.height st))).
    assert (Hlen : length rows = Z.to_nat (Main.height st)).
    { unfold rows, py_range. by rewrite !length_map, length_seq. }
    destruct (lookup_lt_is_Some_2 rows 0) as [row Hrow]; [lia|].
    rewrite (py_getitem_ok rows 0 row) by (lia || done).
    cbn [mbind result_bind]. rewrite py_setitem_ok by lia.
    eexists. split; [reflexivity|]. by rewrite length_insert.
Qed.

(** ** Changes of size *)

Lemma ready_reporting_fields (st : Main.Life) (flag : bool) (w h : option Z) (t n : Z) :
  Main.ready st ->
  Main.ready (Main.set_clock (Main.set_pending st flag w h) t n).
Proof. intros []. by split. Qed.

Lemma ready_pending (st : Main.Life) (flag : bool) (w h : option Z) :
  Main.ready st -> Main.ready (Main.set_pending st flag w h).
Proof. intros []. by split. Qed.

(** Induction on a run of the handler, with the property known of the
    runs that interrupt it. *)
Lemma handler_run_induction (P : Main.handler_run -> Prop) :
  (forall term after_read after_flag after_width,
     Forall P after_read -> Forall P after_flag -> Forall P after_width ->
     P (Main.HandlerRun term after_read after_flag after_width)) ->
  forall h, P h.
Proof.
  intros Hrun. fix IH 1. intros [term after_read after_flag after_width].
  apply Hrun.
  - induction after_read as [|h hs IHhs]; constructor; [apply IH | apply IHhs].
  - induction after_flag as [|h hs IHhs]; constructor; [apply IH | apply IHhs].
  - induction after_width as [|h hs IHhs]; constructor; [apply IH | apply IHhs].
Qed.

(** The statements of the handler, with the runs that interrupt it. *)
Lemma run_handler_unfold (term : option (Z * Z))
    (after_read after_flag after_width : list Main.handler_run) (st : Main.Life) :
  Main.run_handler (Main.HandlerRun term after_read after_flag after_width) st
  = (size ← Main.default_size term None None;
     st1 ← Main.deliver after_read st;
     st2 ← Main.deliver after_flag
             (Main.set_pending st1 true (Main.new_width st1) (Main.new_height st1));
     st3 ← Main.deliver after_width
             (Main.set_pending st2 (Main.should_regenerate_screen st2)
                (Some size.1) (Main.new_height st2));
     Ok (Main.set_pending st3 (Main.should_regenerate_screen st3)
           (Main.new_width st3) (Some size.2))).
Proof.
  assert (Hfix : forall hs st0,
    (fix interrupted (hs : list Main.handler_run) (st : Main.Life) : result Main.Life :=
       match hs with
       | [] => Ok st
       | h' :: hs' => st' ← Main.run_handler h' st; interrupted hs' st'
       end) hs st0 = Main.deliver hs st0).
  { induction hs as [|h hs IH]; intros st0; [done|].
    unfold Main.deliver. cbn [for_each].
    destruct (Main.run_handler h st0) as [st'|e]; [|done].
    cbn [mbind result_bind]. apply IH. }
  cbn [Main.run_handler].
  destruct (Main.default_size term None None) as [size|e]; [|done].
  cbn [mbind result_bind]. rewrite Hfix.
  destruct (Main.deliver after_read st) as [st1|e]; [|done].
  cbn [mbind result_bind]. rewrite Hfix.
  destruct (Main.deliver after_flag _) as [st2|e]; [|done].
  cbn [mbind result_bind]. by rewrite Hfix.
Qed.

(** A run of the handler that nothing interrupts is a call of
    [update_window_size] without sizes. *)
Lemma run_handler_uninterrupted (term : option (Z * Z)) (st : Main.Life) :
  Main.run_handler (Main.window_change term) st
  = Main.update_window_size term st None None.
Proof.
  unfold Main.window_change. rewrite run_handler_unfold.
  unfold Main.update_window_size.
  by destruct (Main.default_size term None None).
Qed.

Lemma deliver_cons (h : Main.handler_run) (hs : list Main.handler_run)
    (st : Main.Life) :
  Main.deliver (h :: hs) st = (st' ← Main.run_handler h st; Main.deliver hs st').
Proof. done. Qed.

(** What the runs of the handler at one point do, set apart from the
    order of their writes: they raise [OSError], or leave the object as
    it is, or leave a request of two sizes. *)
Lemma deliver_effect_of (hs : list Main.handler_run) :
  Forall (fun h => forall st,
            match Main.run_handler h st with
            | Ok st' => exists w h, st' = Main.set_pending st true (Some w) (Some h)
            | Raise e => e = OSError
            end) hs ->
  forall st,
    match Main.deliver hs st with
    | Ok st' =>
        (hs = [] /\ st' = st) \/
        (hs <> [] /\ exists w h, st' = Main.set_pending st true (Some w) (Some h))
    | Raise e => e = OSError
    end.
Proof.
  induction 1 as [|h hs Hh Hhs IH]; intros st; [by left|].
  rewrite deliver_cons. specialize (Hh st).
  destruct (Main.run_handler h st) as [st1|e]; [|done].
  cbn [mbind result_bind]. destruct Hh as (w1 & h1 & ->).
  specialize (IH (Main.set_pending st true (Some w1) (Some h1))).
  destruct (Main.deliver hs _) as [st2|e]; [|done].
  right. split; [done|].
  destruct IH as [[_ ->]|[_ (w2 & h2 & ->)]]; by eexists _, _.
Qed.

Lemma run_handler_effect (h : Main.handler_run) (st : Main.Life) :
  match Main.run_handler h st with
  | Ok st' => exists w h, st' = Main.set_pending st true (Some w) (Some h)
  | Raise e => e = OSError
  end.
Proof.
  revert st. induction h as [term after_read after_flag after_width H1 H2 H3]
    using handler_run_induction.
  intros st. rewrite run_handler_unfold.
  destruct term as [size|]; [|done].
  unfold Main.default_size, Main.get_terminal_size. cbn [mbind result_bind].
  pose proof (deliver_effect_of _ H1 st) as E1.
  destruct (Main.deliver after_read st) as [st1|e]; [|done].
  cbn [mbind result_bind].
  pose proof (deliver_effect_of _ H2
    (Main.set_pending st1 true (Main.new_width st1) (Main.new_height st1))) as E2.
  destruct (Main.deliver after_flag _) as [st2|e]; [|done].
  cbn [mbind result_bind].
  pose proof (deliver_effect_of _ H3
    (Main.set_pending st2 (Main.should_regenerate_screen st2)
       (Some (size.1 - 1, size.2 - 1).1) (Main.new_height st2))) as E3.
  destruct (Main.deliver after_width _) as [st3|e]; [|done].
  cbn [mbind result_bind].
  destruct E1 as [[_ ->]|[_ (w1 & h1 & ->)]];
    destruct E2 as [[_ ->]|[_ (w2 & h2 & ->)]];
    destruct E3 as [[_ ->]|[_ (w3 & h3 & ->)]]; by eexists _, _.
Qed.

Lemma deliver_effect (hs : list Main.handler_run) (st : Main.Life) :
  match Main.deliver hs st with
  | Ok st' =>
      (hs = [] /\ st' = st) \/
      (hs <> [] /\ exists w h, st' = Main.set_pending st true (Some w) (Some h))
  | Raise e => e = OSError
  end.
Proof.
  apply deliver_effect_of, Forall_forall. intros h _. apply run_handler_effect.
Qed.

(** A run of the handler that nothing interrupts records a request for
    the size of the terminal less one in each direction. *)
Lemma deliver_window_change (size : Z * Z) (st : Main.Life) :
  Main.deliver [Main.window_change (Some size)] st
  = Ok (Main.set_pending st true (Some (size.1 - 1)) (Some (size.2 - 1))).
Proof. done. Qed.

(** What the runs of the handler keep: every field but the three of
    the request, a request once there is one, and so the tables as
    they are. *)
Lemma deliver_keeps (hs : list Main.handler_run) (st st' : Main.Life) :
  Main.deliver hs st = Ok st' ->
  grid_of st' = grid_of st /\
  Main.start_time st' = Main.start_time st /\
  Main.frame_count st' = Main.frame_count st /\
  (is_Some (Main.new_width st) -> is_Some (Main.new_width st')) /\
  (is_Some (Main.new_height st) -> is_Some (Main.new_height st')) /\
  (Main.ready st -> Main.ready st').
Proof.
  intros Hdeliver. pose proof (deliver_effect hs st) as Heffect.
  rewrite Hdeliver in Heffect.
  destruct Heffect as [[_ ->]|[_ (w & h & ->)]]; [done|].
  do 3 (split; [done|]). split; [by eexists|]. split; [by eexists|].
  apply ready_pending.
Qed.

Lemma deliver_raises (hs : list Main.handler_run) (st : Main.Life) (e : exn) :
  Main.deliver hs st = Raise e -> e = OSError.
Proof.
  intros Hdeliver. pose proof (deliver_effect hs st) as Heffect.
  by rewrite Hdeliver in Heffect.
Qed.

Lemma truthy_is_Some (o : option Z) : Main.truthy o = true -> is_Some o.
Proof. destruct o; [by eexists|done]. Qed.

(** A pass whose guard no signal disturbs leaves a request that is not
    true as it is. *)
Lemma handle_resize_skips (st : Main.Life) (i : Main.interruptions)
    (draws : nat -> bool) (now : Z) :
  Main.guard_undisturbed i ->
  Main.truthy (Main.new_width st) && Main.truthy (Main.new_height st) = false ->
  Main.handle_resize st i draws now = Ok st.
Proof.
  intros [Hbefore Hin] Hpending. unfold Main.handle_resize.
  rewrite Hbefore. cbn [Main.deliver for_each mbind result_bind].
  destruct (Main.truthy (Main.new_width st)); [|done].
  rewrite Hin. cbn [Main.deliver for_each mbind result_bind].
  simpl in Hpending. by rewrite Hpending.
Qed.

(** A request for sizes other than 0, whatever their sign, that is
    pending when the guard of a pass is evaluated is applied by the
    pass if no signal is handled from then to the end of the branch:
    the sizes are recorded, the tables are replaced by new row objects
    holding the values drawn, the request is cleared and the frame
    counter and the start time are reset.  [st1] is the object once the
    signals that precede the guard are handled. *)
Lemma handle_resize_applies (st st1 : Main.Life) (i : Main.interruptions)
    (draws : nat -> bool) (now w h : Z) :
  Main.deliver (Main.before_guard i) st = Ok st1 ->
  Main.in_guard i = [] -> Main.branch_undisturbed i ->
  Main.new_width st1 = Some w -> Main.new_height st1 = Some h ->
  w <> 0 -> h <> 0 ->
  exists st',
    Main.handle_resize st i draws now = Ok st' /\
    Main.width st' = w /\ Main.height st' = h /\
    Main.frame_count st' = 0 /\ Main.start_time st' = now /\
    Main.new_width st' = None /\ Main.new_height st' = None /\
    Main.should_regenerate_screen st' = Main.should_regenerate_screen st1 /\
    Main.ready st' /\
    Forall (fun l => (length (Main.store st1) <= l)%nat)
      (Main.cells_table st' ++ Main.prev_cells_table st') /\
    Main.matrix (Main.store st') (Main.cells_table st')
    = map (fun k => py_slice (Main.random_choices draws (w * h))
                      (0 + Z.of_nat k * w) (0 + Z.of_nat k * w + w))
          (seq 0 (Z.to_nat h)).
Proof.
  intros Hi1 Hi2 (Hi3 & Hi4 & Hi5 & Hi6 & Hi7) Hnw Hnh Hw Hh.
  unfold Main.handle_resize.
  rewrite Hi1, Hi2, Hi3, Hi4, Hi5, Hi6, Hi7.
  cbn [Main.deliver for_each mbind result_bind]. rewrite Hnw, Hnh.
  unfold Main.truthy.
  destruct (Z.eqb_spec w 0); [done|]. destruct (Z.eqb_spec h 0); [done|].
  cbn [negb].
  destruct (main_randomize_table (Main.set_size st1 w h) draws)
    as (s' & prev' & Hrand & Hready & Hfresh & Hmat); [done|].
  cbn [Main.set_size Main.store Main.width Main.height] in *.
  rewrite Hrand. cbn [mbind result_bind]. eexists. split; [reflexivity|].
  do 7 (split; [done|]). split.
  { apply ready_reporting_fields. by apply ready_pending. }
  cbn [Main.set_clock Main.set_pending Main.set_tables Main.set_size
       Main.store Main.cells_table Main.prev_cells_table].
  split; [|done].
  apply Forall_app. split; [|done].
  apply Forall_forall. intros l Hl. apply elem_of_seq in Hl. lia.
Qed.

(** Whatever signals are handled during it, and wherever, the first
    part of the loop body keeps the tables ready for a pass when it
    returns, and it raises nothing but the [OSError] of a handler and
    the [ValueError] of [randomize_table] for a width of 0: the sizes
    that lines 174 and 175 read are never [None]. *)
Lemma handle_resize_outcome (st : Main.Life) (i : Main.interruptions)
    (draws : nat -> bool) (now : Z) :
  Main.ready st ->
  match Main.handle_resize st i draws now with
  | Ok st' => Main.ready st'
  | Raise e => e = OSError \/ e = ValueError
  end.
Proof.
  intros Hready. unfold Main.handle_resize.
  destruct (Main.deliver (Main.before_guard i) st) as [st1|e] eqn:H1;
    [|left; by eapply deliver_raises].
  cbn [mbind result_bind].
  apply deliver_keeps in H1 as (_ & _ & _ & _ & _ & Hr1). specialize (Hr1 Hready).
  destruct (Main.truthy (Main.new_width st1)) eqn:Ht1; [|done].
  apply truthy_is_Some in Ht1.
  destruct (Main.deliver (Main.in_guard i) st1) as [st2|e] eqn:H2;
    [|left; by eapply deliver_raises].
  cbn [mbind result_bind].
  apply deliver_keeps in H2 as (_ & _ & _ & Hw2 & _ & Hr2).
  specialize (Hr2 Hr1). specialize (Hw2 Ht1).
  destruct (Main.truthy (Main.new_height st2)) eqn:Ht2; [|done].
  apply truthy_is_Some in Ht2.
  destruct (Main.deliver (Main.before_width i) st2) as [st3|e] eqn:H3;
    [|left; by eapply deliver_raises].
  cbn [mbind result_bind].
  apply deliver_keeps in H3 as (_ & _ & _ & Hw3 & Hh3 & Hr3).
  specialize (Hr3 Hr2). specialize (Hw3 Hw2). specialize (Hh3 Ht2).
  destruct (Main.deliver (Main.before_height i) st3) as [st4|e] eqn:H4;
    [|left; by eapply deliver_raises].
  cbn [mbind result_bind].
  apply deliver_keeps in H4 as (_ & _ & _ & _ & Hh4 & Hr4).
  specialize (Hr4 Hr3). specialize (Hh4 Hh3).
  destruct (Main.deliver (Main.before_randomize i) st4) as [st5|e] eqn:H5;
    [|left; by eapply deliver_raises].
  cbn [mbind result_bind].
  apply deliver_keeps in H5 as (_ & _ & _ & _ & _ & Hr5). specialize (Hr5 Hr4).
  destruct Hw3 as [w ->]. destruct Hh4 as [h ->].
  destruct (decide (w = 0)) as [->|Hw].
  { unfold Main.randomize_table, py_range3. simpl. by right. }
  destruct (main_randomize_table (Main.set_size st5 w h) draws)
    as (s' & prev' & -> & Hready6 & _); [done|].
  cbn [mbind result_bind].
  destruct (Main.deliver (Main.before_clear_width i) _) as [st7|e] eqn:H7;
    [|left; by eapply deliver_raises].
  cbn [mbind result_bind].
  apply deliver_keeps in H7 as (_ & _ & _ & _ & _ & Hr7). specialize (Hr7 Hready6).
  destruct (Main.deliver (Main.before_clear_height i) _) as [st8|e] eqn:H8;
    [|left; by eapply deliver_raises].
  cbn [mbind result_bind].
  apply deliver_keeps in H8 as (_ & _ & _ & _ & _ & Hr8).
  apply ready_reporting_fields, Hr8. by apply ready_pending.
Qed.

(** C6, counterexample.  A request for the width -3 and the height 2,
    recorded while the grid of 4 by 3 cells runs, is applied by the next
    pass of the loop, during which no signal is handled: the object
    then has the width -3 and two rows without cells.  A request for
    the width -3 and the height -2 is applied too; the table then has
    no row, and the pass ends with [IndexError], raised by
    [print_cells_table]. *)
Lemma negative_resize_is_applied :
  (exists st st',
     Main.update_window_size (Some (80, 24)) example_life (Some (-3)) (Some 2)
     = Ok st /\
     Main.handle_resize st Main.quiet (fun _ => true) 7 = Ok st' /\
     Main.width st' = -3 /\ Main.height st' = 2 /\
     Main.matrix (Main.store st') (Main.cells_table st') = [[]; []] /\
     Main.width st' <> Main.width example_life) /\
  (exists st st',
     Main.update_window_size (Some (80, 24)) example_life (Some (-3)) (Some (-2))
     = Ok st /\
     Main.handle_resize st Main.quiet (fun _ => true) 7 = Ok st' /\
     Main.width st' = -3 /\ Main.height st' = -2 /\
     Main.cells_table st' = []) /\
  (exists st,
     Main.update_window_size (Some (80, 24)) example_life (Some (-3)) (Some (-2))
     = Ok st /\
     Main.run_iteration st example_world Main.quiet = Raise IndexError).
Proof.
  split; [|split].
  - eexists _, _. split; [reflexivity|]. split; [vm_compute; reflexivity|].
    by repeat split.
  - eexists _, _. split; [reflexivity|]. split; [vm_compute; reflexivity|].
    by repeat split.
  - eexists. split; [reflexivity|]. vm_compute. reflexivity.
Qed.

(** The guard of line 173 and the assignments of lines 174 and 175
    read the request at different moments.  A run of the handler
    between them, for a terminal of one column, leaves a request for
    the width 0 which no guard has seen: line 174 applies it, and
    [randomize_table] raises [ValueError]. *)
Lemma zero_request_after_guard_is_applied :
  exists st,
    Main.update_window_size (Some (80, 24)) example_life (Some 5) (Some 2) = Ok st /\
    Main.handle_resize st (change_before_width (Some (1, 9))) Nat.even 7
    = Raise ValueError.
Proof. eexists. split; [reflexivity|]. vm_compute. reflexivity. Qed.

(** A run of the handler while the branch is at work, here during
    [randomize_table], leaves a request that lines 178 and 179 clear
    before any pass has applied it. *)
Lemma request_during_branch_is_lost :
  exists st st',
    Main.update_window_size (Some (80, 24)) example_life (Some 5) (Some 2) = Ok st /\
    Main.handle_resize st (change_during_randomize (Some (100, 40))) Nat.even 7
    = Ok st' /\
    Main.width st' = 5 /\ Main.height st' = 2 /\
    Main.new_width st' = None /\ Main.new_height st' = None /\
    forall draws now,
      Main.handle_resize st' Main.quiet draws now = Ok st'.
Proof.
  eexists _, _. split; [reflexivity|]. split; [vm_compute; reflexivity|].
  do 4 (split; [reflexivity|]). intros draws now. reflexivity.
Qed.

(** C6, as amended.  The guard of [run] tests the truth of the two
    requested sizes.  A request in which the width or the height is 0,
    pending when a pass begins, is ignored by that pass when no signal
    is handled while its guard is evaluated: the branch raises nothing,
    and the sizes, the tables, the frame counter and the start time
    stay as they were (the request itself stays recorded); on a grid of
    at least one row, with a clock that has moved since the start time
    and no signal handled in the rest of the pass, the whole pass then
    returns with the previous sizes.  Negative sizes pass the guard: a
    request in which both sizes are not 0 is applied, when no signal is
    handled while the branch runs, even when one of them is negative. *)
Theorem resize_with_zero_is_ignored (st0 st : Main.Life) (term : option (Z * Z))
    (w h : Z) (wd : Main.world) (i : Main.interruptions) :
  Main.ready st0 -> 1 <= Main.height st0 ->
  Main.time_at_print wd <> Main.start_time st0 ->
  Main.update_window_size term st0 (Some w) (Some h) = Ok st ->
  Main.guard_undisturbed i ->
  (w = 0 \/ h = 0 ->
   Main.handle_resize st i (Main.draws wd) (Main.time_at_resize wd) = Ok st /\
   grid_of st = grid_of st0 /\
   Main.new_width st = Some w /\ Main.new_height st = Some h /\
   (Main.step_undisturbed i ->
    exists st',
      Main.run_iteration st wd i = Ok st' /\
      Main.width st' = Main.width st0 /\ Main.height st' = Main.height st0 /\
      has_shape (Main.matrix (Main.store st') (Main.cells_table st'))
        (Z.to_nat (Main.width st0)) (Z.to_nat (Main.height st0)) /\
      Main.start_time st' = Main.start_time st0 /\
      Main.frame_count st' = Main.frame_count st0 + 1)) /\
  (w <> 0 -> h <> 0 -> Main.branch_undisturbed i ->
   exists st',
     Main.handle_resize st i (Main.draws wd) (Main.time_at_resize wd) = Ok st' /\
     Main.width st' = w /\ Main.height st' = h).
Proof.
  intros Hready Hrows Hclock Hrecorded Hguard.
  unfold Main.update_window_size, Main.default_size in Hrecorded.
  cbn [mbind result_bind fst snd] in Hrecorded. injection Hrecorded as <-.
  set (st := Main.set_pending st0 true (Some w) (Some h)).
  split.
  - intros Hzero.
    assert (Hskip : Main.handle_resize st i (Main.draws wd) (Main.time_at_resize wd)
                    = Ok st).
    { apply handle_resize_skips; [done|].
      unfold st, Main.truthy. cbn [Main.set_pending Main.new_width Main.new_height].
      destruct Hzero as [-> | ->]; [done|]. by rewrite andb_false_r. }
    split; [exact Hskip|]. do 3 (split; [done|]).
    intros [Hstep1 Hstep2].
    unfold Main.run_iteration. rewrite Hskip, Hstep1, Hstep2.
    cbn [Main.deliver for_each mbind result_bind].
    assert (Hready' : Main.ready st) by by apply ready_pending.
    destruct (main_step _ Hready') as (st2 & Hstep & _ & Hw & Hh & _ & Hshape & _).
    rewrite Hstep. cbn [mbind result_bind].
    assert (Hfields : Main.start_time st2 = Main.start_time st0 /\
                      Main.frame_count st2 = Main.frame_count st0).
    { unfold Main.step in Hstep.
      destruct (Main.apply_rules st) as [st1|e] eqn:Happly; [|done].
      cbn [mbind result_bind] in Hstep. injection Hstep as <-.
      destruct (main_apply_rules _ Hready') as (s' & Happly' & _).
      rewrite Happly in Happly'. injection Happly' as ->.
      unfold Main.save_buffer. by destruct (Main.deepcopy _ _) as [s2 prev2]. }
    destruct Hfields as [Htime Hcount].
    change (Main.width st) with (Main.width st0) in *.
    change (Main.height st) with (Main.height st0) in *.
    destruct (main_print_cells_table st2 (Main.time_at_print wd)
                (Main.frame_info_output wd)) as (_ & _ & Hprint).
    { by rewrite Hw, Hh. }
    destruct Hprint as (rows & -> & _); [congruence|lia|].
    cbn [mbind result_bind]. eexists. split; [reflexivity|].
    cbn [Main.set_clock Main.width Main.height Main.store Main.cells_table
         Main.start_time Main.frame_count].
    split; [done|]. split; [done|]. split; [exact Hshape|]. split; [done|].
    by rewrite Hcount.
  - intros Hw Hh Hbranch. destruct Hguard as [Hbefore Hin].
    destruct (handle_resize_applies st st i (Main.draws wd)
                (Main.time_at_resize wd) w h)
      as (st' & Hres & Hw' & Hh' & _); try done.
    + by rewrite Hbefore.
    + by exists st'.
Qed.

Lemma resize_with_zero_is_ignored_witness :
  (exists st,
     Main.update_window_size (Some (80, 24)) example_life (Some 0) (Some 2) = Ok st /\
     Main.handle_resize st Main.quiet (Main.draws example_world)
       (Main.time_at_resize example_world) = Ok st /\
     grid_of st = grid_of example_life /\
     Main.new_width st = Some 0 /\ Main.new_height st = Some 2 /\
     (Main.step_undisturbed Main.quiet ->
      exists st',
        Main.run_iteration st example_world Main.quiet = Ok st' /\
        Main.width st' = Main.width example_life /\
        Main.height st' = Main.height example_life /\
        has_shape (Main.matrix (Main.store st') (Main.cells_table st'))
          (Z.to_nat (Main.width example_life))
          (Z.to_nat (Main.height example_life)) /\
        Main.start_time st' = Main.start_time example_life /\
        Main.frame_count st' = Main.frame_count example_life + 1)) /\
  (exists st st',
     Main.update_window_size (Some (80, 24)) example_life (Some (-3)) (Some 2)
     = Ok st /\
     Main.handle_resize st Main.quiet (Main.draws example_world)
       (Main.time_at_resize example_world) = Ok st' /\
     Main.width st' = -3 /\ Main.height st' = 2).
Proof.
  split.
  - eexists. split; [reflexivity|].
    apply (proj1 (resize_with_zero_is_ignored example_life _ (Some (80, 24)) 0 2
                    example_world Main.quiet ltac:(eval_ready) ltac:(simpl; lia)
                    ltac:(simpl; lia) eq_refl (conj eq_refl eq_refl))).
    left. reflexivity.
  - eexists.
    destruct (proj2 (resize_with_zero_is_ignored example_life _ (Some (80, 24)) (-3) 2
                    example_world Main.quiet ltac:(eval_ready) ltac:(simpl; lia)
                    ltac:(simpl; lia) eq_refl (conj eq_refl eq_refl)))
      as (st' & Hres & Hw & Hh); [lia | lia | by repeat split |].
    exists st'. by repeat split.
Defined.

(** C7, the failing input.  The window changes to 6 columns and 3
    lines, and the handler records a request for 5 columns and 2 lines
    before a pass begins.  The guard of the pass lets the request pass,
    and line 174 stores the width 5.  Then the window changes to 4
    columns and 9 lines, and the handler records a request for 3
    columns and 8 lines.  Line 175 stores the height 8, of the other
    request.  The grid that [randomize_table] builds has 8 rows of 5
    cells: the size of neither request.  Lines 178 and 179 clear the
    request of the second change, so that no later pass sets the grid
    to the size of the window. *)
Theorem resize_interrupted_between_reads :
  exists st1 st2 st',
    Main.deliver [Main.window_change (Some (6, 3))] example_life = Ok st1 /\
    Main.new_width st1 = Some 5 /\ Main.new_height st1 = Some 2 /\
    Main.deliver [Main.window_change (Some (4, 9))] st1 = Ok st2 /\
    Main.new_width st2 = Some 3 /\ Main.new_height st2 = Some 8 /\
    Main.handle_resize example_life
      (changes_before_pass_and_height (Some (6, 3)) (Some (4, 9))) Nat.even 7
    = Ok st' /\
    Main.width st' = 5 /\ Main.height st' = 8 /\
    has_shape (Main.matrix (Main.store st') (Main.cells_table st')) 5 8 /\
    Main.new_width st' = None /\ Main.new_height st' = None /\
    forall draws now, Main.handle_resize st' Main.quiet draws now = Ok st'.
Proof.
  eexists _, _, _. split; [reflexivity|]. do 2 (split; [reflexivity|]).
  split; [reflexivity|]. do 2 (split; [reflexivity|]).
  split; [vm_compute; reflexivity|].
  split; [reflexivity|]. split; [reflexivity|].
  split; [split; [reflexivity | repeat constructor]|].
  split; [reflexivity|]. split; [reflexivity|].
  intros draws now. reflexivity.
Qed.

(** ** The grid without live cells *)

Lemma count_dead (m : list (list bool)) (r c : Z) :
  (forall r' c', alive_at m r' c' = false) -> count_live_neighbors m r c = 0.
Proof.
  intros Hdead. unfold count_live_neighbors, neighbour_offsets.
  cbn [map py_sum foldr fst snd]. by rewrite !Hdead.
Qed.

Lemma game_cells_of_matrix (cs1 cs2 : list (list Game.Cell)) :
  map (map Game.alive) cs1 = map (map Game.alive) cs2 -> cs1 = cs2.
Proof.
  assert (Hrow : forall row1 row2 : list Game.Cell,
            map Game.alive row1 = map Game.alive row2 -> row1 = row2).
  { induction row1 as [|[b1] row1 IH]; intros [|[b2] row2] Heq; try done.
    simpl in Heq. injection Heq as -> Heq. f_equal. by apply IH. }
  revert cs2. induction cs1 as [|row1 cs1 IH]; intros [|row2 cs2] Heq; try done.
  simpl in Heq. injection Heq as Hhead Htail. f_equal; [by apply Hrow|by apply IH].
Qed.

(** [update_grid_full] gives back a grid without live cells as it is. *)
Lemma game_update_dead (g : Game.Grid) :
  Game.wf g -> (forall r c, alive_at (Game.matrix g) r c = false) ->
  Game.update_grid_full g = Ok g.
Proof.
  intros Hwf Hdead.
  destruct (game_update_grid_full g Hwf) as (g' & Hstep & Hwf' & Hx & Hy & Hcells).
  rewrite Hstep. f_equal. destruct g as [xs ys cs], g' as [xs' ys' cs'].
  cbn [Game.x_size Game.y_size] in *. subst xs' ys'. f_equal.
  apply game_cells_of_matrix.
  apply (matrix_ext _ _ (Z.to_nat xs) (Z.to_nat ys)).
  - by apply (game_matrix_shape _ Hwf').
  - by apply (game_matrix_shape _ Hwf).
  - intros r c Hr Hc. unfold Game.matrix in Hcells, Hdead. cbn [Game.cells] in *.
    rewrite Hcells by lia. rewrite Hdead, count_dead by done. reflexivity.
Qed.

(** [apply_rules] leaves tables without live cells as they are, also
    when the entries of a table are one and the same row object. *)
Lemma main_apply_rules_dead (st : Main.Life) :
  has_shape (Main.matrix (Main.store st) (Main.prev_cells_table st))
    (Z.to_nat (Main.width st)) (Z.to_nat (Main.height st)) ->
  (forall r c,
     alive_at (Main.matrix (Main.store st) (Main.prev_cells_table st)) r c = false) ->
  Forall (fun l => Forall (fun b => b = false) (Main.row_at (Main.store st) l))
    (Main.cells_table st) ->
  Main.apply_rules st = Ok st.
Proof.
  intros Hshape Hprev Hcur. unfold Main.apply_rules.
  destruct (for_each_invariant (fun _ st1 => st1 = st)
              (Main.enumerate (Main.cells_table st)) Main.apply_rules_row st)
    as (st' & Hloop & ->); [done| |done].
  intros visited [i l] rest st1 Hxs ->. exists st. split; [|done].
  assert (Hl : l ∈ Main.cells_table st).
  { apply (list_elem_of_lookup_2 _ i), elem_of_enumerate.
    by eapply elem_of_visiting. }
  rewrite Forall_forall in Hcur. pose proof (Hcur l Hl) as Hrow.
  unfold Main.apply_rules_row. cbn [fst snd].
  destruct (for_each_invariant (fun _ st1 => st1 = st)
              (seq 0 (length (Main.row_at (Main.store st) l)))
              (Main.apply_rules_cell (Z.of_nat i) l) st)
    as (st' & Hloop & ->); [done| |done].
  intros visited' x rest' st1 _ ->. exists st. split; [|done].
  unfold Main.apply_rules_cell.
  destruct (Main.row_at (Main.store st) l !! x) as [b|] eqn:Hb; [|done].
  rewrite Forall_forall in Hrow.
  rewrite (Hrow b (list_elem_of_lookup_2 _ _ _ Hb)).
  rewrite main_get_alive_neighbours by done. cbn [mbind result_bind].
  by rewrite count_dead.
Qed.

(** [deepcopy] only adds objects to the store, and the copy holds the
    values of the table copied, whether or not rows are shared. *)
Lemma deepcopy_rows_matrix (table : list Main.loc) (memo : list (Main.loc * Main.loc))
    (s : list (list bool)) :
  Forall (fun l => (l < length s)%nat) table ->
  Forall (fun e => (e.1 < length s)%nat /\ (e.2 < length s)%nat /\
                   Main.row_at s e.2 = Main.row_at s e.1) memo ->
  exists extra,
    (Main.deepcopy_rows table memo s).1 = s ++ extra /\
    Main.matrix (s ++ extra) (Main.deepcopy_rows table memo s).2
    = Main.matrix s table.
Proof.
  revert memo s. induction table as [|l table IH]; intros memo s Hvalid Hmemo.
  - exists []. simpl. by rewrite app_nil_r.
  - apply Forall_cons in Hvalid as [Hl Hvalid]. cbn [Main.deepcopy_rows].
    destruct (list_find (fun e : Main.loc * Main.loc => e.1 = l) memo)
      as [[k [l0 l']]|] eqn:Hfind.
    + apply list_find_Some in Hfind as (Hk & Heq & _). simpl in Heq. subst l0.
      rewrite Forall_lookup in Hmemo.
      destruct (Hmemo _ _ Hk) as (_ & Hl' & Hrow). simpl in Hl', Hrow.
      destruct (IH memo s Hvalid) as (extra & Hs & Hm).
      { by apply Forall_lookup. }
      destruct (Main.deepcopy_rows table memo s) as [s' copy]. simpl in Hs, Hm.
      subst s'. exists extra. split; [done|]. simpl.
      unfold Main.matrix in *. simpl. rewrite Hm. f_equal.
      by rewrite row_at_app_l.
    + unfold Main.alloc. cbv beta iota zeta.
      destruct (IH ((l, length s) :: memo) (s ++ [Main.row_at s l]))
        as (extra & Hs & Hm).
      { eapply Forall_impl; [exact Hvalid|]. intros l1 Hl1. simpl in *.
        rewrite length_app. simpl. lia. }
      { apply Forall_cons. split.
        - simpl. rewrite length_app. simpl. split; [lia|]. split; [lia|].
          rewrite (row_at_app_l s _ l) by done. unfold Main.row_at at 1.
          by rewrite lookup_app_r, Nat.sub_diag by lia.
        - eapply Forall_impl; [exact Hmemo|]. intros e (H1 & H2 & H3).
          rewrite length_app. simpl. split; [lia|]. split; [lia|].
          by rewrite !row_at_app_l. }
      destruct (Main.deepcopy_rows table _ _) as [s' copy]. simpl in Hs, Hm.
      subst s'. exists ([Main.row_at s l] ++ extra).
      rewrite <- app_assoc in Hm. rewrite app_assoc. split; [done|]. simpl.
      unfold Main.matrix in *. simpl. rewrite <- app_assoc. simpl.
      simpl in Hm. rewrite Hm. f_equal.
      * unfold Main.row_at at 1. by rewrite lookup_app_r, Nat.sub_diag by lia.
      * apply map_ext_in. intros l1 Hl1. rewrite Forall_forall in Hvalid.
        apply row_at_app_l, Hvalid. by apply list_elem_of_In.
Qed.

(** The copy of the buffer, for any table of objects of the store. *)
Lemma save_buffer_matrix (st : Main.Life) :
  Forall (fun l => (l < length (Main.store st))%nat) (Main.cells_table st) ->
  Main.cells_table (Main.save_buffer st) = Main.cells_table st /\
  Main.width (Main.save_buffer st) = Main.width st /\
  Main.height (Main.save_buffer st) = Main.height st /\
  Main.matrix (Main.store (Main.save_buffer st)) (Main.cells_table st)
  = Main.matrix (Main.store st) (Main.cells_table st) /\
  Main.matrix (Main.store (Main.save_buffer st))
    (Main.prev_cells_table (Main.save_buffer st))
  = Main.matrix (Main.store st) (Main.cells_table st).
Proof.
  intros Hvalid. unfold Main.save_buffer, Main.deepcopy.
  destruct (deepcopy_rows_matrix (Main.cells_table st) [] (Main.store st) Hvalid)
    as (extra & Hs & Hm); [done|].
  destruct (Main.deepcopy_rows _ _ _) as [s' copy]. simpl in Hs, Hm. subst s'.
  cbn [Main.set_tables Main.cells_table Main.store Main.prev_cells_table
       Main.width Main.height].
  split; [done|]. split; [done|]. split; [done|].
  split; [by apply matrix_app_l|done].
Qed.

(** C8. One step from the grid without live cells, of any width and
    height, gives the grid without live cells of the same size.  In
    [game.py], [update_grid_full] gives back the grid built by
    [__init__] as it is.  In [main.py], [apply_rules] leaves the object
    built by [__init__] as it is, although every row of a table is then
    the same list object, and after the copy of the buffer both tables
    still have the same sizes and no live cell. *)
Theorem dead_grid_stays_dead (w h : Z) :
  (exists g,
     Game.init w h = Ok g /\
     (forall r c, alive_at (Game.matrix g) r c = false) /\
     Game.update_grid_full g = Ok g) /\
  (forall term now clear_screen, exists st st',
     Main.init term now (Some w) (Some h) clear_screen = Ok st /\
     Main.apply_rules st = Ok st /\
     Main.step st = Ok st' /\
     Main.width st' = w /\ Main.height st' = h /\
     Main.matrix (Main.store st') (Main.cells_table st')
     = replicate (Z.to_nat h) (replicate (Z.to_nat w) false) /\
     Main.matrix (Main.store st') (Main.prev_cells_table st')
     = replicate (Z.to_nat h) (replicate (Z.to_nat w) false) /\
     forall r c,
       alive_at (Main.matrix (Main.store st') (Main.cells_table st')) r c = false).
Proof.
  split.
  - eexists. split; [reflexivity|]. split; [intros r c; apply fresh_cells_dead|].
    apply game_update_dead; [apply fresh_cells_shape|].
    intros r c. apply fresh_cells_dead.
  - intros term now clear_screen.
    destruct (Main.init term now (Some w) (Some h) clear_screen) as [st|e] eqn:Hinit;
      [|done].
    injection Hinit as Hst.
    assert (Hcur : Main.matrix (Main.store st) (Main.cells_table st)
                   = replicate (Z.to_nat h) (replicate (Z.to_nat w) false)).
    { subst st. by apply (replicate_table_matrix _ 0%nat). }
    assert (Hprev : Main.matrix (Main.store st) (Main.prev_cells_table st)
                    = replicate (Z.to_nat h) (replicate (Z.to_nat w) false)).
    { subst st. by apply (replicate_table_matrix _ 1%nat). }
    assert (Hvalid : Forall (fun l => (l < length (Main.store st))%nat)
                       (Main.cells_table st)).
    { subst st. apply Forall_forall. intros l Hl.
      apply elem_of_replicate_inv in Hl. subst l. simpl. lia. }
    assert (Happly : Main.apply_rules st = Ok st).
    { apply main_apply_rules_dead.
      - rewrite Hprev. subst st. apply replicate_shape.
      - intros r c. rewrite Hprev. apply replicate_dead.
      - subst st. apply Forall_forall. intros l Hl.
        apply elem_of_replicate_inv in Hl. subst l.
        apply Forall_forall. intros b Hb. by apply elem_of_replicate_inv in Hb. }
    destruct (save_buffer_matrix st Hvalid) as (Hcells & Hw & Hh & Hm1 & Hm2).
    exists st, (Main.save_buffer st). split; [done|]. split; [done|].
    split; [unfold Main.step; by rewrite Happly|].
    rewrite Hw, Hh, Hcells, Hm1, Hm2, Hcur.
    split; [by subst st|]. split; [by subst st|]. split; [done|]. split; [done|].
    intros r c. apply replicate_dead.
Qed.

(** ** The blinker *)

(** Where the live cells are the horizontal line, the rules give the
    vertical line, and back. *)
Lemma rule_horizontal_to_vertical (m : list (list bool)) (r0 c0 : Z) :
  (forall r c, alive_at m r c = horizontal_line r0 c0 r c) ->
  forall r c,
    life_rule (alive_at m r c) (count_live_neighbors m r c) = vertical_line r0 c0 r c.
Proof.
  intros Hm r c. unfold count_live_neighbors, neighbour_offsets.
  cbn [map py_sum foldr fst snd]. rewrite !Hm.
  unfold horizontal_line, vertical_line.
  split_comparisons; reflexivity.
Qed.

Lemma rule_vertical_to_horizontal (m : list (list bool)) (r0 c0 : Z) :
  (forall r c, alive_at m r c = vertical_line r0 c0 r c) ->
  forall r c,
    life_rule (alive_at m r c) (count_live_neighbors m r c) = horizontal_line r0 c0 r c.
Proof.
  intros Hm r c. unfold count_live_neighbors, neighbour_offsets.
  cbn [map py_sum foldr fst snd]. rewrite !Hm.
  unfold horizontal_line, vertical_line.
  split_comparisons; reflexivity.
Qed.

Lemma matrix_of_shape (w h : nat) (pattern : Z -> Z -> bool) :
  has_shape (matrix_of w h pattern) w h.
Proof.
  unfold matrix_of. split; [by rewrite length_map, length_seq|].
  rewrite Forall_fmap. apply Forall_forall. intros r _. simpl.
  by rewrite length_map, length_seq.
Qed.

Lemma matrix_of_cell (w h : nat) (pattern : Z -> Z -> bool) (r c : Z) :
  0 <= r < Z.of_nat h -> 0 <= c < Z.of_nat w ->
  alive_at (matrix_of w h pattern) r c = pattern r c.
Proof.
  intros Hr Hc. eapply alive_at_lookup; [lia|lia| |].
  - unfold matrix_of. rewrite list_lookup_fmap, lookup_seq_lt by lia. reflexivity.
  - rewrite list_lookup_fmap, lookup_seq_lt by lia. simpl.
    by rewrite !Z2Nat.id by lia.
Qed.

(** A matrix is determined by its shape and its cells. *)
Lemma matrix_of_unique (m : list (list bool)) (w h : nat) (pattern : Z -> Z -> bool) :
  has_shape m w h ->
  (forall r c, 0 <= r < Z.of_nat h -> 0 <= c < Z.of_nat w ->
     alive_at m r c = pattern r c) ->
  m = matrix_of w h pattern.
Proof.
  intros Hm Hcells. apply (matrix_ext _ _ w h); [done|apply matrix_of_shape|].
  intros r c Hr Hc. rewrite matrix_of_cell by done. by apply Hcells.
Qed.

(** A pattern that lies inside the matrix is read back at every
    coordinate, also outside the matrix. *)
Lemma matrix_of_everywhere (w h : nat) (pattern : Z -> Z -> bool) :
  (forall r c, pattern r c = true -> 0 <= r < Z.of_nat h /\ 0 <= c < Z.of_nat w) ->
  forall r c, alive_at (matrix_of w h pattern) r c = pattern r c.
Proof.
  intros Hinside r c.
  destruct (decide (0 <= r < Z.of_nat h /\ 0 <= c < Z.of_nat w)) as [[Hr Hc]|Hout].
  - by apply matrix_of_cell.
  - rewrite (alive_at_outside _ w h) by (apply matrix_of_shape || lia).
    destruct (pattern r c) eqn:Hp; [|done]. by apply Hinside in Hp.
Qed.

(** On a grid where the line and its turned image fit, the next
    generation of the horizontal line is the vertical line, and the
    next generation of the vertical line is the horizontal line. *)
Lemma next_generation_blinker (w h : nat) (r0 c0 : Z) :
  1 <= r0 < Z.of_nat h - 1 -> 1 <= c0 < Z.of_nat w - 1 ->
  next_generation (matrix_of w h (horizontal_line r0 c0))
  = matrix_of w h (vertical_line r0 c0) /\
  next_generation (matrix_of w h (vertical_line r0 c0))
  = matrix_of w h (horizontal_line r0 c0).
Proof.
  intros Hr0 Hc0.
  assert (Hh : forall r c, alive_at (matrix_of w h (horizontal_line r0 c0)) r c
                           = horizontal_line r0 c0 r c).
  { apply matrix_of_everywhere. intros r c. unfold horizontal_line.
    split_comparisons; simpl; try discriminate; lia. }
  assert (Hv : forall r c, alive_at (matrix_of w h (vertical_line r0 c0)) r c
                           = vertical_line r0 c0 r c).
  { apply matrix_of_everywhere. intros r c. unfold vertical_line.
    split_comparisons; simpl; try discriminate; lia. }
  split.
  - apply matrix_of_unique; [apply next_generation_shape, matrix_of_shape|].
    intros r c Hr Hc.
    rewrite (next_generation_cell _ w h) by (apply matrix_of_shape || done).
    by apply rule_horizontal_to_vertical.
  - apply matrix_of_unique; [apply next_generation_shape, matrix_of_shape|].
    intros r c Hr Hc.
    rewrite (next_generation_cell _ w h) by (apply matrix_of_shape || done).
    by apply rule_vertical_to_horizontal.
Qed.

(** C9, counterexample.  On the grid of 5 by 5 cells whose only live
    cells are the three cells (0,1), (0,2), (0,3) of the top row, one
    step leaves two live cells, (0,2) and (1,2): the cell above the
    middle one does not exist.  A second step leaves no live cell, so
    two steps do not give back the original grid.  Both programs
    behave so. *)
Lemma blinker_on_top_row_dies :
  exists g1 g2 st1 st2,
    Game.update_grid_full (grid_of_matrix 5 5 (matrix_of 5 5 (horizontal_line 0 2)))
    = Ok g1 /\
    Game.matrix g1
    = [ [false; false; true; false; false];
        [false; false; true; false; false];
        [false; false; false; false; false];
        [false; false; false; false; false];
        [false; false; false; false; false] ] /\
    Game.update_grid_full g1 = Ok g2 /\
    Game.matrix g2 = replicate 5 (replicate 5 false) /\
    Game.matrix g2
    <> Game.matrix (grid_of_matrix 5 5 (matrix_of 5 5 (horizontal_line 0 2))) /\
    Main.step (life_of_matrix 5 5 (matrix_of 5 5 (horizontal_line 0 2))) = Ok st1 /\
    Main.matrix (Main.store st1) (Main.cells_table st1) = Game.matrix g1 /\
    Main.step st1 = Ok st2 /\
    Main.matrix (Main.store st2) (Main.cells_table st2) = replicate 5 (replicate 5 false).
Proof.
  do 4 eexists.
  split; [vm_compute; reflexivity|]. split; [reflexivity|].
  split; [vm_compute; reflexivity|]. split; [reflexivity|].
  split; [discriminate|].
  split; [vm_compute; reflexivity|]. split; [reflexivity|].
  split; [vm_compute; reflexivity|]. reflexivity.
Qed.

(** C9, as amended.  On a grid of at least 5 by 5 cells whose only live
    cells are three consecutive cells of one row that is neither the
    top nor the bottom row, one step gives the same line of three cells
    turned about its middle cell, and a second step gives back the
    original grid.  Both programs behave so: [update_grid_full], and a
    single iteration of [run] from tables that hold the same matrix. *)
Theorem blinker_oscillates (g : Game.Grid) (st : Main.Life) (r0 c0 : Z) :
  5 <= Game.x_size g -> 5 <= Game.y_size g ->
  1 <= r0 < Game.y_size g - 1 -> 1 <= c0 < Game.x_size g - 1 ->
  Game.matrix g
  = matrix_of (Z.to_nat (Game.x_size g)) (Z.to_nat (Game.y_size g))
      (horizontal_line r0 c0) ->
  Main.ready st ->
  Main.width st = Game.x_size g -> Main.height st = Game.y_size g ->
  Main.matrix (Main.store st) (Main.cells_table st) = Game.matrix g ->
  (exists g1,
     Game.update_grid_full g = Ok g1 /\
     Game.matrix g1
     = matrix_of (Z.to_nat (Game.x_size g)) (Z.to_nat (Game.y_size g))
         (vertical_line r0 c0) /\
     Game.update_grid_full g1 = Ok g) /\
  (exists st1 st2,
     Main.step st = Ok st1 /\
     Main.matrix (Main.store st1) (Main.cells_table st1)
     = matrix_of (Z.to_nat (Game.x_size g)) (Z.to_nat (Game.y_size g))
         (vertical_line r0 c0) /\
     Main.step st1 = Ok st2 /\
     Main.matrix (Main.store st2) (Main.cells_table st2)
     = Main.matrix (Main.store st) (Main.cells_table st) /\
     Main.width st2 = Main.width st /\ Main.height st2 = Main.height st).
Proof.
  intros _ _ Hr0 Hc0 Hg Hready Hw Hh Hst.
  destruct (next_generation_blinker (Z.to_nat (Game.x_size g))
              (Z.to_nat (Game.y_size g)) r0 c0) as [Hhv Hvh]; [lia..|].
  split.
  - assert (Hwf : Game.wf g).
    { apply game_wf_of_matrix. rewrite Hg. apply matrix_of_shape. }
    destruct (game_update_grid_full g Hwf) as (g1 & Hstep1 & _).
    destruct (game_update_is_next_generation g g1 Hwf Hstep1)
      as (Hwf1 & Hx1 & Hy1 & Hm1).
    destruct (game_update_grid_full g1 Hwf1) as (g2 & Hstep2 & _).
    destruct (game_update_is_next_generation g1 g2 Hwf1 Hstep2)
      as (_ & Hx2 & Hy2 & Hm2).
    rewrite Hg, Hhv in Hm1. rewrite Hm1, Hvh, <- Hg in Hm2.
    exists g1. split; [done|]. split; [done|]. rewrite Hstep2. f_equal.
    destruct g as [xs ys cs], g2 as [xs2 ys2 cs2].
    cbn [Game.x_size Game.y_size] in *. unfold Game.matrix in Hm2.
    cbn [Game.cells] in Hm2. apply game_cells_of_matrix in Hm2.
    congruence.
  - destruct (main_step_is_next_generation st Hready)
      as (_ & st1 & _ & Hstep1 & Hready1 & Hw1 & Hh1 & _ & Hm1).
    destruct (main_step_is_next_generation st1 Hready1)
      as (_ & st2 & _ & Hstep2 & _ & Hw2 & Hh2 & _ & Hm2).
    rewrite Hst, Hg, Hhv in Hm1. rewrite Hm1, Hvh in Hm2.
    exists st1, st2. split; [done|]. split; [done|]. split; [done|].
    split; [by rewrite Hm2, Hst, Hg|]. split; congruence.
Qed.

Lemma blinker_oscillates_witness :
  (exists g1,
     Game.update_grid_full (grid_of_matrix 5 6 (matrix_of 5 6 (horizontal_line 4 1)))
     = Ok g1 /\
     Game.matrix g1 = matrix_of (Z.to_nat 5) (Z.to_nat 6) (vertical_line 4 1) /\
     Game.update_grid_full g1
     = Ok (grid_of_matrix 5 6 (matrix_of 5 6 (horizontal_line 4 1)))) /\
  (exists st1 st2,
     Main.step (life_of_matrix 5 6 (matrix_of 5 6 (horizontal_line 4 1))) = Ok st1 /\
     Main.matrix (Main.store st1) (Main.cells_table st1)
     = matrix_of (Z.to_nat 5) (Z.to_nat 6) (vertical_line 4 1) /\
     Main.step st1 = Ok st2 /\
     Main.matrix (Main.store st2) (Main.cells_table st2)
     = Main.matrix
         (Main.store (life_of_matrix 5 6 (matrix_of 5 6 (horizontal_line 4 1))))
         (Main.cells_table (life_of_matrix 5 6 (matrix_of 5 6 (horizontal_line 4 1)))) /\
     Main.width st2 = 5 /\ Main.height st2 = 6).
Proof.
  apply (blinker_oscillates
           (grid_of_matrix 5 6 (matrix_of 5 6 (horizontal_line 4 1)))
           (life_of_matrix 5 6 (matrix_of 5 6 (horizontal_line 4 1))) 4 1);
    [simpl; lia | simpl; lia | simpl; lia | simpl; lia | reflexivity
    | eval_ready | reflexivity | reflexivity | reflexivity].
Defined.

(** ** The reporting fields *)

Lemma same_outcome_bind (o1 o2 : result Main.Life)
    (f1 f2 : Main.Life -> result Main.Life) :
  same_outcome o1 o2 ->
  (forall st1 st2, grid_of st1 = grid_of st2 -> same_outcome (f1 st1) (f2 st2)) ->
  same_outcome (o1 ≫= f1) (o2 ≫= f2).
Proof.
  intros Ho Hf. destruct o1 as [st1|e1], o2 as [st2|e2]; try done.
  by apply Hf.
Qed.

Lemma for_each_same_outcome {A : Type} (xs : list A)
    (body : Main.Life -> A -> result Main.Life) (st1 st2 : Main.Life) :
  (forall x s1 s2, grid_of s1 = grid_of s2 -> same_outcome (body s1 x) (body s2 x)) ->
  grid_of st1 = grid_of st2 ->
  same_outcome (for_each xs body st1) (for_each xs body st2).
Proof.
  intros Hbody. revert st1 st2. induction xs as [|x xs IH]; intros st1 st2 Hgrid.
  - done.
  - simpl. apply same_outcome_bind; [by apply Hbody|]. apply IH.
Qed.

Lemma grid_of_fields (st1 st2 : Main.Life) :
  grid_of st1 = grid_of st2 ->
  Main.width st1 = Main.width st2 /\ Main.height st1 = Main.height st2 /\
  Main.store st1 = Main.store st2 /\
  Main.cells_table st1 = Main.cells_table st2 /\
  Main.prev_cells_table st1 = Main.prev_cells_table st2.
Proof. unfold grid_of. intros [= -> -> -> -> ->]. done. Qed.

Lemma get_alive_neighbours_grid (st1 st2 : Main.Life) (r c : Z) :
  grid_of st1 = grid_of st2 ->
  Main.get_alive_neighbours st1 r c = Main.get_alive_neighbours st2 r c.
Proof.
  intros Hgrid. apply grid_of_fields in Hgrid as (Hw & Hh & Hs & _ & Hp).
  unfold Main.get_alive_neighbours, Main.in_table. by rewrite Hw, Hh, Hs, Hp.
Qed.

Lemma apply_rules_cell_grid (i : Z) (l : Main.loc) (x : nat) (st1 st2 : Main.Life) :
  grid_of st1 = grid_of st2 ->
  same_outcome (Main.apply_rules_cell i l st1 x) (Main.apply_rules_cell i l st2 x).
Proof.
  intros Hgrid. unfold Main.apply_rules_cell.
  rewrite (get_alive_neighbours_grid st1 st2) by done.
  pose proof (grid_of_fields _ _ Hgrid) as (Hw & Hh & Hs & Hc & Hp).
  rewrite Hs, Hc.
  assert (Hwrite : forall v,
    same_outcome
      (s ← Main.write_cell (Main.store st2) (Main.cells_table st2) i (Z.of_nat x) v;
       Ok (Main.set_store st1 s))
      (s ← Main.write_cell (Main.store st2) (Main.cells_table st2) i (Z.of_nat x) v;
       Ok (Main.set_store st2 s))).
  { intros v. destruct (Main.write_cell _ _ _ _ _) as [s|e]; [|done].
    simpl. unfold grid_of. cbn [Main.set_store Main.width Main.height Main.store
      Main.cells_table Main.prev_cells_table]. by rewrite Hw, Hh, Hc, Hp. }
  destruct (Main.row_at (Main.store st2) l !! x) as [is_alive|]; [|done].
  destruct (Main.get_alive_neighbours st2 i (Z.of_nat x)) as [n|e]; [|done].
  cbn [mbind result_bind].
  destruct is_alive.
  - destruct (n <=? 1); [apply Hwrite|]. destruct (4 <=? n); [apply Hwrite|done].
  - destruct (n =? 3); [apply Hwrite|done].
Qed.

Lemma apply_rules_grid (st1 st2 : Main.Life) :
  grid_of st1 = grid_of st2 ->
  same_outcome (Main.apply_rules st1) (Main.apply_rules st2).
Proof.
  intros Hgrid. unfold Main.apply_rules.
  pose proof (grid_of_fields _ _ Hgrid) as (_ & _ & _ & -> & _).
  apply for_each_same_outcome; [|done].
  intros [i l] s1 s2 Hs. unfold Main.apply_rules_row. cbn [fst snd].
  pose proof (grid_of_fields _ _ Hs) as (_ & _ & -> & _ & _).
  apply for_each_same_outcome; [|done].
  intros x. apply apply_rules_cell_grid.
Qed.

Lemma save_buffer_grid (st1 st2 : Main.Life) :
  grid_of st1 = grid_of st2 ->
  grid_of (Main.save_buffer st1) = grid_of (Main.save_buffer st2).
Proof.
  intros Hgrid. pose proof (grid_of_fields _ _ Hgrid) as (Hw & Hh & Hs & Hc & Hp).
  unfold Main.save_buffer. rewrite Hs, Hc.
  destruct (Main.deepcopy _ _) as [s prev]. unfold grid_of.
  cbn [Main.set_tables Main.width Main.height Main.store Main.cells_table
       Main.prev_cells_table]. by rewrite Hw, Hh.
Qed.

(** C10. The frame counter and the start time have no influence on the
    rules: from two objects with the same sizes and the same cell
    buffers, whatever their reporting fields, [apply_rules], and the
    whole iteration with the copy of the buffer, either raise the same
    exception or give objects with the same sizes and the same cell
    buffers; and the pass leaves both reporting fields as they were. *)
Theorem reporting_fields_do_not_interfere (st1 st2 : Main.Life) :
  grid_of st1 = grid_of st2 ->
  same_outcome (Main.apply_rules st1) (Main.apply_rules st2) /\
  same_outcome (Main.step st1) (Main.step st2) /\
  (forall t n,
     same_outcome (Main.step (Main.set_clock st1 t n)) (Main.step st1)).
Proof.
  intros Hgrid.
  assert (Hstep : forall s1 s2, grid_of s1 = grid_of s2 ->
            same_outcome (Main.step s1) (Main.step s2)).
  { intros s1 s2 Hs. unfold Main.step.
    apply same_outcome_bind; [by apply apply_rules_grid|].
    intros s1' s2' Hs'. simpl. by apply save_buffer_grid. }
  split; [by apply apply_rules_grid|]. split; [by apply Hstep|].
  intros t n. by apply Hstep.
Qed.

Lemma reporting_fields_do_not_interfere_witness :
  same_outcome (Main.apply_rules (Main.set_clock example_life 1700000000 250))
               (Main.apply_rules example_life) /\
  same_outcome (Main.step (Main.set_clock example_life 1700000000 250))
               (Main.step example_life) /\
  (forall t n,
     same_outcome
       (Main.step (Main.set_clock (Main.set_clock example_life 1700000000 250) t n))
       (Main.step (Main.set_clock example_life 1700000000 250))).
Proof.
  apply (reporting_fields_do_not_interfere
           (Main.set_clock example_life 1700000000 250) example_life).
  reflexivity.
Defined.

(** ** The loop of [run] *)

(** Whatever a pass of the loop meets, signals included, it raises
    nothing from [apply_rules]: the exceptions of a pass are the
    [OSError] of a handler, the [ValueError] of [randomize_table] for a
    width of 0, and the two that [print_cells_table] raises; and the
    tables it leaves are ready for the next pass. *)
Lemma run_iteration_outcome (st : Main.Life) (wd : Main.world)
    (i : Main.interruptions) :
  Main.ready st ->
  match Main.run_iteration st wd i with
  | Ok st' => Main.ready st'
  | Raise e =>
      e = OSError \/ e = ValueError \/ e = ZeroDivisionError \/ e = IndexError
  end.
Proof.
  intros Hready. unfold Main.run_iteration.
  pose proof (handle_resize_outcome st i (Main.draws wd) (Main.time_at_resize wd)
                Hready) as Hres.
  destruct (Main.handle_resize st i (Main.draws wd) (Main.time_at_resize wd))
    as [st1|e]; [|destruct Hres as [->| ->]; cbn [mbind result_bind]; auto].
  cbn [mbind result_bind].
  destruct (Main.deliver (Main.before_apply_rules i) st1) as [st2|e] eqn:H2;
    [|left; by eapply deliver_raises].
  cbn [mbind result_bind].
  apply deliver_keeps in H2 as (_ & _ & _ & _ & _ & Hr2). specialize (Hr2 Hres).
  destruct (main_step st2 Hr2) as (st3 & -> & Hr3 & _).
  cbn [mbind result_bind].
  destruct (Main.deliver (Main.before_print i) st3) as [st4|e] eqn:H4;
    [|left; by eapply deliver_raises].
  cbn [mbind result_bind].
  apply deliver_keeps in H4 as (_ & _ & _ & _ & _ & Hr4). specialize (Hr4 Hr3).
  destruct (main_print_cells_table st4 (Main.time_at_print wd)
              (Main.frame_info_output wd) (ready_cur_shape _ Hr4))
    as (Hzero & Hindex & Hprint).
  destruct (decide (Main.time_at_print wd = Main.start_time st4)) as [Heq|Hne].
  { rewrite (Hzero Heq). cbn [mbind result_bind]. auto. }
  destruct (Z.le_gt_cases (Main.height st4) 0) as [Hlow|Hhigh].
  { rewrite (Hindex Hne Hlow). cbn [mbind result_bind]. auto. }
  destruct (Hprint Hne) as (rows & -> & _); [lia|].
  cbn [mbind result_bind]. destruct Hr4. by split.
Qed.

Lemma run_iteration_ready (st st' : Main.Life) (wd : Main.world)
    (i : Main.interruptions) :
  Main.ready st -> Main.run_iteration st wd i = Ok st' -> Main.ready st'.
Proof.
  intros Hready Hpass. pose proof (run_iteration_outcome st wd i Hready) as Hout.
  by rewrite Hpass in Hout.
Qed.

Lemma run_loop_outcome (n k : nat) (st : Main.Life) (worlds : nat -> Main.world)
    (signals : nat -> Main.interruptions) :
  Main.ready st ->
  match Main.run_loop n k st worlds signals with
  | Ok st' => Main.ready st'
  | Raise e =>
      e = OSError \/ e = ValueError \/ e = ZeroDivisionError \/ e = IndexError
  end.
Proof.
  revert k st. induction n as [|n IH]; intros k st Hready; [done|].
  cbn [Main.run_loop].
  pose proof (run_iteration_outcome st (worlds k) (signals k) Hready) as Hpass.
  destruct (Main.run_iteration st (worlds k) (signals k)) as [st1|e]; [|done].
  cbn [mbind result_bind]. by apply IH.
Qed.

Lemma run_loop_ready (n k : nat) (st st' : Main.Life) (worlds : nat -> Main.world)
    (signals : nat -> Main.interruptions) :
  Main.ready st -> Main.run_loop n k st worlds signals = Ok st' -> Main.ready st'.
Proof.
  intros Hready Hloop.
  pose proof (run_loop_outcome n k st worlds signals Hready) as Hout.
  by rewrite Hloop in Hout.
Qed.

(** Every object that [run] reaches at the start of a pass has tables
    that are ready for it, whatever signals are handled and wherever:
    the hypothesis of the properties of [apply_rules] is the invariant
    of the loop. *)
Lemma run_ready (n : nat) (st st' : Main.Life) (first_draws : nat -> bool)
    (first_signals : list Main.handler_run)
    (worlds : nat -> Main.world) (signals : nat -> Main.interruptions) :
  Main.run n st first_draws first_signals worlds signals = Ok st' -> Main.ready st'.
Proof.
  unfold Main.run.
  destruct (Main.deliver first_signals st) as [st0|e] eqn:Hfirst; [|done].
  cbn [mbind result_bind].
  destruct (decide (Main.width st0 = 0)) as [Hw|Hw].
  { unfold Main.randomize_table, py_range3. by rewrite Hw. }
  destruct (main_randomize_table st0 first_draws Hw) as (s' & prev' & -> & Hready & _).
  cbn [mbind result_bind]. by apply run_loop_ready.
Qed.

(** With the width 0 the first statement of [run] raises [ValueError],
    the step of its [range] being 0. *)
Lemma run_width_zero (n : nat) (st : Main.Life) (first_draws : nat -> bool)
    (worlds : nat -> Main.world) (signals : nat -> Main.interruptions) :
  Main.width st = 0 ->
  Main.run n st first_draws [] worlds signals = Raise ValueError.
Proof.
  intros Hw. unfold Main.run, Main.randomize_table, py_range3.
  cbn [Main.deliver for_each mbind result_bind]. by rewrite Hw.
Qed.

(** A pass without a request to apply and without a signal, on a grid
    of at least one row and with a clock that has moved since the start
    time, returns: the sizes and the start time are kept and the frame
    counter grows by one. *)
Lemma run_iteration_returns (st : Main.Life) (wd : Main.world)
    (i : Main.interruptions) :
  Main.ready st -> 1 <= Main.height st ->
  Main.truthy (Main.new_width st) && Main.truthy (Main.new_height st) = false ->
  Main.time_at_print wd <> Main.start_time st ->
  Main.guard_undisturbed i -> Main.step_undisturbed i ->
  exists st',
    Main.run_iteration st wd i = Ok st' /\ Main.ready st' /\
    Main.width st' = Main.width st /\ Main.height st' = Main.height st /\
    Main.new_width st' = Main.new_width st /\
    Main.new_height st' = Main.new_height st /\
    Main.start_time st' = Main.start_time st /\
    Main.frame_count st' = Main.frame_count st + 1 /\
    Main.matrix (Main.store st') (Main.cells_table st')
    = next_generation (Main.matrix (Main.store st) (Main.cells_table st)).
Proof.
  intros Hready Hrows Hpending Hclock Hguard [Hstep1 Hstep2].
  unfold Main.run_iteration.
  rewrite (handle_resize_skips st i _ _ Hguard Hpending), Hstep1, Hstep2.
  cbn [Main.deliver for_each mbind result_bind].
  destruct (main_step_is_next_generation st Hready)
    as (st1 & st2 & Happly & Hstep & Hready2 & Hw & Hh & _ & Hnext).
  rewrite Hstep. cbn [mbind result_bind].
  assert (Hfields : Main.start_time st2 = Main.start_time st /\
                    Main.frame_count st2 = Main.frame_count st /\
                    Main.new_width st2 = Main.new_width st /\
                    Main.new_height st2 = Main.new_height st).
  { unfold Main.step in Hstep. rewrite Happly in Hstep.
    cbn [mbind result_bind] in Hstep. injection Hstep as <-.
    destruct (main_apply_rules _ Hready) as (s' & Happly' & _).
    rewrite Happly in Happly'. injection Happly' as ->.
    unfold Main.save_buffer. by destruct (Main.deepcopy _ _) as [s2 prev2]. }
  destruct Hfields as (Htime & Hcount & Hnw & Hnh).
  destruct (main_print_cells_table st2 (Main.time_at_print wd)
              (Main.frame_info_output wd) (ready_cur_shape _ Hready2))
    as (_ & _ & Hprint).
  destruct Hprint as (rows & -> & _); [congruence|lia|].
  cbn [mbind result_bind]. eexists. split; [reflexivity|].
  split; [destruct Hready2; by split|].
  cbn [Main.set_clock Main.width Main.height Main.start_time Main.frame_count
       Main.new_width Main.new_height Main.store Main.cells_table].
  repeat split; congruence.
Qed.

(** Without signals and without a request to apply, on a grid of at
    least one row and with a clock that has moved since the start time
    at every print, any number of passes of the loop returns, and the
    table holds the generation of that number. *)
Lemma run_loop_returns (n k : nat) (st : Main.Life) (worlds : nat -> Main.world) :
  Main.ready st -> 1 <= Main.height st ->
  Main.truthy (Main.new_width st) && Main.truthy (Main.new_height st) = false ->
  (forall j, Main.time_at_print (worlds j) <> Main.start_time st) ->
  exists st',
    Main.run_loop n k st worlds (fun _ => Main.quiet) = Ok st' /\ Main.ready st' /\
    Main.width st' = Main.width st /\ Main.height st' = Main.height st /\
    Main.start_time st' = Main.start_time st /\
    Main.frame_count st' = Main.frame_count st + Z.of_nat n /\
    Main.matrix (Main.store st') (Main.cells_table st')
    = Nat.iter n next_generation
        (Main.matrix (Main.store st) (Main.cells_table st)).
Proof.
  revert k st. induction n as [|n IH]; intros k st Hready Hrows Hpending Hclock.
  - exists st. do 5 (split; [done|]). split; [lia|done].
  - cbn [Main.run_loop].
    destruct (run_iteration_returns st (worlds k) Main.quiet Hready Hrows Hpending
                (Hclock k))
      as (st1 & -> & Hready1 & Hw & Hh & Hnw & Hnh & Htime & Hcount & Hnext);
      [done..|].
    cbn [mbind result_bind].
    destruct (IH (S k) st1) as (st' & Hloop & Hready' & Hw' & Hh' & Htime' & Hcount' & Hm);
      try done.
    + lia.
    + by rewrite Hnw, Hnh.
    + intros j. rewrite Htime. apply Hclock.
    + exists st'. split; [done|]. split; [done|].
      split; [congruence|]. split; [congruence|]. split; [congruence|].
      split; [lia|]. by rewrite Hm, Hnext, Nat.iter_succ_r.
Qed.

(** The rows of the tables built by [Life.__init__] are one and the
    same list object: a write to one cell shows in every row. *)
Lemma init_rows_are_shared :
  exists st s,
    Main.init (Some (80, 24)) 0 (Some 3) (Some 2) true = Ok st /\
    Main.write_cell (Main.store st) (Main.cells_table st) 0 1 true = Ok s /\
    Main.matrix s (Main.cells_table st)
    = [ [false; true; false]; [false; true; false] ].
Proof. by do 2 eexists. Qed.

(** * Further properties of the code *)

(** ** [game.py]: [flip_cell] and [randomize_grid] *)

(** [flip_cell] is its own inverse: a second flip at the same indices
    gives back the grid, cell objects and sizes included.  The indices
    may count from the end, as Python allows. *)
Theorem flip_cell_twice (g : Game.Grid) (x y : Z) :
  Game.wf g ->
  - Game.y_size g <= y < Game.y_size g ->
  - Game.x_size g <= x < Game.x_size g ->
  exists g', Game.flip_cell g x y = Ok g' /\ Game.flip_cell g' x y = Ok g.
Proof.
  intros Hwf Hy Hx.
  pose proof (py_position_range _ _ Hx) as Hx'.
  pose proof (py_position_range _ _ Hy) as Hy'.
  destruct (game_flip_cell_inside g _ _ Hwf Hx' Hy')
    as (g1 & Hflip1 & Hwf1 & Hxs1 & Hys1 & Hat1).
  rewrite <- game_flip_cell_position in Hflip1 by done.
  exists g1. split; [done|].
  rewrite game_flip_cell_position by (done || lia).
  rewrite Hxs1, Hys1.
  destruct (game_flip_cell_inside g1 (py_position (Game.x_size g) x)
              (py_position (Game.y_size g) y) Hwf1)
    as (g2 & Hflip2 & Hwf2 & Hxs2 & Hys2 & Hat2); [lia..|].
  rewrite Hflip2. f_equal.
  destruct g as [xs ys cs], g2 as [xs2 ys2 cs2].
  cbn [Game.x_size Game.y_size] in *. f_equal; [congruence..|].
  apply game_cells_of_matrix.
  apply (matrix_ext _ _ (Z.to_nat xs) (Z.to_nat ys)).
  - replace xs with xs2 by congruence. replace ys with ys2 by congruence.
    by apply (game_matrix_shape _ Hwf2).
  - by apply (game_matrix_shape _ Hwf).
  - intros r c _ _. unfold Game.matrix in Hat1, Hat2. cbn [Game.cells] in *.
    rewrite Hat2, Hat1.
    destruct ((r =? _) && (c =? _)); [apply negb_involutive|done].
Qed.

Lemma flip_cell_twice_witness :
  exists g', Game.flip_cell example_grid (-2) 1 = Ok g' /\
             Game.flip_cell g' (-2) 1 = Ok example_grid.
Proof.
  apply (flip_cell_twice example_grid (-2) 1); [eval_wf | simpl; lia ..].
Defined.

Lemma randomize_rows_matrix (cs : list (list Game.Cell)) (bits : nat -> bool)
    (w h : nat) :
  has_shape cs w h ->
  map (map Game.alive) (Game.randomize_rows cs bits)
  = map (fun r => map (fun c => bits (r * w + c)%nat) (seq 0 w)) (seq 0 h).
Proof.
  revert bits h. induction cs as [|row cs IH]; intros bits h [Hlen Hrows].
  - simpl in Hlen. by subst h.
  - apply Forall_cons in Hrows as [Hrow Hrows]. simpl in Hlen. subst h.
    cbn [Game.randomize_rows map length seq].
    rewrite (IH (fun k => bits (length row + k)%nat) (length cs)) by done.
    rewrite Hrow. f_equal.
    + rewrite map_map. apply map_ext. intros c. done.
    + rewrite <- fmap_S_seq. rewrite <- list_fmap_compose.
      apply map_ext. intros r. apply map_ext. intros c. simpl. f_equal. lia.
Qed.

Lemma game_randomize_grid (g : Game.Grid) (bits : nat -> bool) :
  Game.wf g ->
  Game.wf (Game.randomize_grid g bits) /\
  Game.get_size (Game.randomize_grid g bits) = Game.get_size g /\
  Game.matrix (Game.randomize_grid g bits)
  = matrix_of (Z.to_nat (Game.x_size g)) (Z.to_nat (Game.y_size g))
      (fun r c => bits (Z.to_nat (r * Game.x_size g + c))).
Proof.
  intros Hwf. split; [by apply randomize_grid_wf|]. split; [done|].
  unfold Game.matrix, Game.randomize_grid. cbn [Game.cells].
  rewrite (randomize_rows_matrix _ _ _ _ Hwf). unfold matrix_of.
  apply map_ext_in. intros r Hr. apply map_ext_in. intros c Hc.
  apply in_seq in Hc. f_equal. nia.
Qed.

(** [randomize_grid] overwrites every cell: on a grid whose sizes agree
    with its matrix, the cell of row [r] and column [c] receives the bit
    number [r * x_size + c] of the source, whatever the grid held
    before, and the sizes are kept. *)
Theorem randomize_grid_cells (g : Game.Grid) (bits : nat -> bool) :
  Game.wf g ->
  Game.wf (Game.randomize_grid g bits) /\
  Game.get_size (Game.randomize_grid g bits) = Game.get_size g /\
  Game.matrix (Game.randomize_grid g bits)
  = matrix_of (Z.to_nat (Game.x_size g)) (Z.to_nat (Game.y_size g))
      (fun r c => bits (Z.to_nat (r * Game.x_size g + c))).
Proof. apply game_randomize_grid. Qed.

Lemma randomize_grid_cells_witness :
  Game.wf (Game.randomize_grid example_grid Nat.even) /\
  Game.get_size (Game.randomize_grid example_grid Nat.even)
  = Game.get_size example_grid /\
  Game.matrix (Game.randomize_grid example_grid Nat.even)
  = matrix_of (Z.to_nat (Game.x_size example_grid))
      (Z.to_nat (Game.y_size example_grid))
      (fun r c => Nat.even (Z.to_nat (r * Game.x_size example_grid + c))).
Proof. apply (randomize_grid_cells example_grid Nat.even). eval_wf. Defined.

(** ** [game.py]: what is written to the terminal *)

Lemma length_concat_const {A B : Type} (f : A -> list B) (xs : list A) (k : nat) :
  (forall x, x ∈ xs -> length (f x) = k) ->
  length (concat (map f xs)) = (length xs * k)%nat.
Proof.
  intros Hf. induction xs as [|x xs IH]; [done|].
  simpl. rewrite length_app, Hf by (apply elem_of_cons; by left).
  rewrite IH; [done|]. intros y Hy. apply Hf, elem_of_cons. by right.
Qed.





Lemma print_rows_inj (cs1 cs2 : list (list Game.Cell)) (w h : nat) :
  has_shape cs1 w h -> has_shape cs2 w h ->
  concat (map (fun y => map (fun x => if Game.alive x then "X"%char else " "%char) y
                        ++ [Game.line_feed]) cs1)
  = concat (map (fun y => map (fun x => if Game.alive x then "X"%char else " "%char) y
                          ++ [Game.line_feed]) cs2) ->
  map (map Game.alive) cs1 = map (map Game.alive) cs2.
Proof.
  assert (Hrow : forall row1 row2 : list Game.Cell,
            map (fun x => if Game.alive x then "X"%char else " "%char) row1
            = map (fun x => if Game.alive x then "X"%char else " "%char) row2 ->
            map Game.alive row1 = map Game.alive row2).
  { induction row1 as [|[b1] row1 IH]; intros [|[b2] row2] Heq; try done.
    simpl in Heq. injection Heq as Hhead Htail.
    simpl. f_equal; [|by apply IH]. destruct b1, b2; done. }
  revert cs2 h. induction cs1 as [|row1 cs1 IH]; intros [|row2 cs2] h
    [Hlen1 Hrows1] [Hlen2 Hrows2] Heq; simpl in *; try done; try lia.
  apply Forall_cons in Hrows1 as [Hw1 Hrows1].
  apply Forall_cons in Hrows2 as [Hw2 Hrows2].
  rewrite <- !app_assoc in Heq.
  apply app_inj_1 in Heq as [Hhead Htail]; [|rewrite !length_map; lia].
  simpl in Htail. injection Htail as Htail.
  f_equal; [by apply Hrow|].
  apply (IH cs2 (length cs1)); [by split|split; [lia|done]|done].
Qed.

(** The text written by [print_grid] shows the grid without loss: two
    grids of the same sizes that print the same text hold the same
    matrix. *)
Theorem print_grid_faithful (g1 g2 : Game.Grid) :
  Game.wf g1 -> Game.wf g2 -> Game.get_size g1 = Game.get_size g2 ->
  Game.print_grid g1 = Game.print_grid g2 ->
  Game.matrix g1 = Game.matrix g2.
Proof.
  intros Hwf1 Hwf2 [= Hx Hy] Hprint. unfold Game.wf in Hwf2.
  rewrite <- Hx, <- Hy in Hwf2.
  by apply (print_rows_inj _ _ _ _ Hwf1 Hwf2).
Qed.

Lemma print_grid_faithful_witness :
  Game.matrix example_grid
  = Game.matrix (grid_of_matrix 4 3 (Game.matrix example_grid)).
Proof.
  apply (print_grid_faithful example_grid
           (grid_of_matrix 4 3 (Game.matrix example_grid)));
    [eval_wf | eval_wf | reflexivity | reflexivity].
Defined.

(** ** [game.py]: the script *)

Lemma game_text_lengths (g : Game.Grid) :
  Game.wf g ->
  length (Game.print_grid g)
  = (Z.to_nat (Game.y_size g) * (Z.to_nat (Game.x_size g) + 1))%nat /\
  length (Game.clear_grid g)
  = (Z.to_nat (Game.y_size g) * (3 * Z.to_nat (Game.x_size g) + 3))%nat.
Proof.
  intros [Hlen Hrows]. rewrite Forall_forall in Hrows. split.
  - unfold Game.print_grid. rewrite <- Hlen. apply length_concat_const.
    intros row Hrow. by rewrite length_app, length_map, (Hrows row Hrow).
  - unfold Game.clear_grid.
    rewrite (length_concat_const _ _ (3 * Z.to_nat (Game.x_size g) + 3)).
    + unfold py_range. by rewrite length_map, length_seq.
    + intros y _. rewrite length_app, (length_concat_const _ _ 3) by done.
      unfold py_range. rewrite length_map, length_seq. simpl. lia.
Qed.

Lemma game_main_loop (n : nat) (g : Game.Grid) (written : list ascii) :
  Game.wf g ->
  exists g' written',
    Game.main_loop n g written = Ok (g', written') /\
    Game.wf g' /\ Game.get_size g' = Game.get_size g /\
    Game.matrix g' = Nat.iter n next_generation (Game.matrix g) /\
    length written'
    = (length written
       + n * (4 * (Z.to_nat (Game.y_size g) * (Z.to_nat (Game.x_size g) + 1))))%nat.
Proof.
  revert g written. induction n as [|n IH]; intros g written Hwf.
  - exists g, written. do 4 (split; [done|]). simpl. lia.
  - cbn [Game.main_loop].
    destruct (game_update_grid_full g Hwf) as (g1 & Hstep & _).
    destruct (game_update_is_next_generation g g1 Hwf Hstep) as (Hwf1 & Hx & Hy & Hm).
    rewrite Hstep. cbn [mbind result_bind].
    destruct (IH g1 (written ++ Game.print_grid g ++ Game.clear_grid g1) Hwf1)
      as (g' & written' & -> & Hwf' & Hsize & Hmatrix & Hlen).
    exists g', written'. split; [done|]. split; [done|].
    split; [unfold Game.get_size in *; congruence|].
    split; [by rewrite Hmatrix, Hm, Nat.iter_succ_r|].
    destruct (game_text_lengths g Hwf) as [Hprint _].
    destruct (game_text_lengths g1 Hwf1) as [_ Hclear].
    rewrite Hlen, !length_app, Hprint, Hclear, Hx, Hy. lia.
Qed.

Lemma game_main_returns (x y : Z) (bits : nat -> bool) (n : nat) :
  exists g written,
    Game.main x y bits n = Ok (g, written) /\
    Game.wf g /\ Game.get_size g = (x, y) /\
    Game.matrix g
    = Nat.iter n next_generation
        (matrix_of (Z.to_nat x) (Z.to_nat y)
           (fun r c => bits (Z.to_nat (r * x + c)))) /\
    length written = (n * (4 * (Z.to_nat y * (Z.to_nat x + 1))))%nat.
Proof.
  unfold Game.main, Game.init. cbn [mbind result_bind].
  set (g0 := {| Game.x_size := x; Game.y_size := y;
                Game.cells := Game.fresh_cells x y |}).
  assert (Hwf0 : Game.wf g0) by apply fresh_cells_shape.
  destruct (game_randomize_grid g0 bits Hwf0) as (Hwf & Hsize & Hmatrix).
  destruct (game_main_loop n (Game.randomize_grid g0 bits) [] Hwf)
    as (g & written & -> & Hwf' & Hsize' & Hm & Hlen).
  exists g, written. split; [done|]. split; [done|].
  split; [by rewrite Hsize'|]. split; [by rewrite Hm, Hmatrix|].
  by rewrite Hlen.
Qed.

(** The script of [game.py] never raises, whatever sizes are read, also
    0 or negative ones, and whatever bits are drawn.  After [n] passes
    of its loop the grid has the sizes read and holds the [n]-th
    generation of the randomized matrix, and
    [4 * y_size * (x_size + 1)] characters have been written per pass. *)
Theorem game_script_runs (x y : Z) (bits : nat -> bool) (n : nat) :
  exists g written,
    Game.main x y bits n = Ok (g, written) /\
    Game.wf g /\ Game.get_size g = (x, y) /\
    Game.matrix g
    = Nat.iter n next_generation
        (matrix_of (Z.to_nat x) (Z.to_nat y)
           (fun r c => bits (Z.to_nat (r * x + c)))) /\
    length written = (n * (4 * (Z.to_nat y * (Z.to_nat x + 1))))%nat.
Proof. apply game_main_returns. Qed.

(** ** [game.py]: [get_neighbours] outside the grid *)






(** ** Patterns and symmetry of a step *)

Lemma rule_block (m : list (list bool)) (r0 c0 : Z) :
  (forall r c, alive_at m r c = block r0 c0 r c) ->
  forall r c,
    life_rule (alive_at m r c) (count_live_neighbors m r c) = block r0 c0 r c.
Proof.
  intros Hm r c. unfold count_live_neighbors, neighbour_offsets.
  cbn [map py_sum foldr fst snd]. rewrite !Hm.
  unfold block.
  split_comparisons; reflexivity.
Qed.

Lemma next_generation_block (w h : nat) (r0 c0 : Z) :
  0 <= r0 -> r0 + 1 < Z.of_nat h -> 0 <= c0 -> c0 + 1 < Z.of_nat w ->
  next_generation (matrix_of w h (block r0 c0)) = matrix_of w h (block r0 c0).
Proof.
  intros Hr0 Hr1 Hc0 Hc1.
  assert (Hb : forall r c, alive_at (matrix_of w h (block r0 c0)) r c
                           = block r0 c0 r c).
  { apply matrix_of_everywhere. intros r c. unfold block.
    split_comparisons; simpl; try discriminate; lia. }
  apply matrix_of_unique; [apply next_generation_shape, matrix_of_shape|].
  intros r c Hr Hc.
  rewrite (next_generation_cell _ w h) by (apply matrix_of_shape || done).
  by apply rule_block.
Qed.

(** A square of four live cells in an otherwise dead grid is left as it
    is by a step, wherever it lies, also against an edge or in a corner
    of the grid: [update_grid_full] gives back the same grid, and an
    iteration of [run] the same matrix. *)
Theorem block_is_still (g : Game.Grid) (st : Main.Life) (r0 c0 : Z) :
  0 <= r0 -> r0 + 1 < Game.y_size g -> 0 <= c0 -> c0 + 1 < Game.x_size g ->
  Game.matrix g
  = matrix_of (Z.to_nat (Game.x_size g)) (Z.to_nat (Game.y_size g)) (block r0 c0) ->
  Main.ready st ->
  Main.width st = Game.x_size g -> Main.height st = Game.y_size g ->
  Main.matrix (Main.store st) (Main.cells_table st) = Game.matrix g ->
  Game.update_grid_full g = Ok g /\
  exists st',
    Main.step st = Ok st' /\
    Main.matrix (Main.store st') (Main.cells_table st')
    = Main.matrix (Main.store st) (Main.cells_table st).
Proof.
  intros Hr0 Hr1 Hc0 Hc1 Hg Hready Hw Hh Hst.
  pose proof (next_generation_block (Z.to_nat (Game.x_size g))
                (Z.to_nat (Game.y_size g)) r0 c0) as Hstill.
  rewrite <- Hg in Hstill. split.
  - assert (Hwf : Game.wf g).
    { apply game_wf_of_matrix. rewrite Hg. apply matrix_of_shape. }
    destruct (game_update_grid_full g Hwf) as (g1 & Hstep1 & _).
    destruct (game_update_is_next_generation g g1 Hwf Hstep1)
      as (_ & Hx1 & Hy1 & Hm1).
    rewrite Hstep1. f_equal. rewrite Hstill in Hm1 by lia.
    destruct g as [xs ys cs], g1 as [xs1 ys1 cs1].
    cbn [Game.x_size Game.y_size] in *. unfold Game.matrix in Hm1.
    cbn [Game.cells] in Hm1. apply game_cells_of_matrix in Hm1. congruence.
  - destruct (main_step_is_next_generation st Hready)
      as (_ & st1 & _ & Hstep1 & _ & _ & _ & _ & Hm1).
    exists st1. split; [done|]. rewrite Hm1, Hst. apply Hstill; lia.
Qed.

Lemma block_is_still_witness :
  Game.update_grid_full (grid_of_matrix 5 5 (matrix_of 5 5 (block 3 0)))
  = Ok (grid_of_matrix 5 5 (matrix_of 5 5 (block 3 0))) /\
  exists st',
    Main.step (life_of_matrix 5 5 (matrix_of 5 5 (block 3 0))) = Ok st' /\
    Main.matrix (Main.store st') (Main.cells_table st')
    = Main.matrix (Main.store (life_of_matrix 5 5 (matrix_of 5 5 (block 3 0))))
        (Main.cells_table (life_of_matrix 5 5 (matrix_of 5 5 (block 3 0)))).
Proof.
  apply (block_is_still (grid_of_matrix 5 5 (matrix_of 5 5 (block 3 0)))
           (life_of_matrix 5 5 (matrix_of 5 5 (block 3 0))) 3 0);
    [simpl; lia | simpl; lia | simpl; lia | simpl; lia | reflexivity
    | eval_ready | reflexivity | reflexivity | reflexivity].
Defined.

Lemma mirror_shape (m : list (list bool)) (w h : nat) :
  has_shape m w h -> has_shape (map reverse m) w h /\ has_shape (reverse m) w h.
Proof.
  intros [Hlen Hrows]. split.
  - split; [by rewrite length_map|].
    rewrite Forall_fmap. eapply Forall_impl; [exact Hrows|].
    intros row Hrow. simpl. by rewrite length_reverse.
  - split; [by rewrite length_reverse|]. by apply Forall_reverse.
Qed.

Lemma alive_at_left_right (m : list (list bool)) (w h : nat) (r c : Z) :
  has_shape m w h ->
  alive_at (map reverse m) r c = alive_at m r (Z.of_nat w - 1 - c).
Proof.
  intros Hshape. destruct (mirror_shape m w h Hshape) as [Hshape' _].
  destruct (decide (0 <= r < Z.of_nat h /\ 0 <= c < Z.of_nat w)) as [[Hr Hc]|Hout].
  - destruct Hshape as [Hlen Hrows].
    destruct (lookup_lt_is_Some_2 m (Z.to_nat r)) as [row Hrow]; [lia|].
    rewrite Forall_lookup in Hrows. pose proof (Hrows _ _ Hrow) as Hw.
    destruct (lookup_lt_is_Some_2 row (Z.to_nat (Z.of_nat w - 1 - c)))
      as [b Hb]; [lia|].
    rewrite (alive_at_lookup m r (Z.of_nat w - 1 - c) row b) by (lia || done).
    apply alive_at_lookup with (reverse row); try lia.
    + by rewrite list_lookup_fmap, Hrow.
    + rewrite reverse_lookup by lia. rewrite <- Hb. f_equal. lia.
  - rewrite (alive_at_outside _ w h) by (done || lia).
    by rewrite (alive_at_outside _ w h) by (done || lia).
Qed.

Lemma alive_at_up_down (m : list (list bool)) (w h : nat) (r c : Z) :
  has_shape m w h ->
  alive_at (reverse m) r c = alive_at m (Z.of_nat h - 1 - r) c.
Proof.
  intros Hshape. destruct (mirror_shape m w h Hshape) as [_ Hshape'].
  destruct (decide (0 <= r < Z.of_nat h /\ 0 <= c < Z.of_nat w)) as [[Hr Hc]|Hout].
  - destruct Hshape as [Hlen Hrows].
    destruct (lookup_lt_is_Some_2 m (Z.to_nat (Z.of_nat h - 1 - r)))
      as [row Hrow]; [lia|].
    rewrite Forall_lookup in Hrows. pose proof (Hrows _ _ Hrow) as Hw.
    destruct (lookup_lt_is_Some_2 row (Z.to_nat c)) as [b Hb]; [lia|].
    rewrite (alive_at_lookup m (Z.of_nat h - 1 - r) c row b) by (lia || done).
    apply alive_at_lookup with row; try lia; [|done].
    rewrite reverse_lookup by lia. rewrite <- Hrow. f_equal. lia.
  - rewrite (alive_at_outside _ w h) by (done || lia).
    by rewrite (alive_at_outside _ w h) by (done || lia).
Qed.

Lemma count_left_right (m : list (list bool)) (w h : nat) (r c : Z) :
  has_shape m w h ->
  count_live_neighbors (map reverse m) r c
  = count_live_neighbors m r (Z.of_nat w - 1 - c).
Proof.
  intros Hshape. unfold count_live_neighbors, neighbour_offsets.
  cbn [map py_sum foldr fst snd].
  rewrite !(alive_at_left_right m w h) by done.
  replace (Z.of_nat w - 1 - (c + -1)) with (Z.of_nat w - 1 - c + 1) by lia.
  replace (Z.of_nat w - 1 - (c + 0)) with (Z.of_nat w - 1 - c + 0) by lia.
  replace (Z.of_nat w - 1 - (c + 1)) with (Z.of_nat w - 1 - c + -1) by lia.
  lia.
Qed.

Lemma count_up_down (m : list (list bool)) (w h : nat) (r c : Z) :
  has_shape m w h ->
  count_live_neighbors (reverse m) r c
  = count_live_neighbors m (Z.of_nat h - 1 - r) c.
Proof.
  intros Hshape. unfold count_live_neighbors, neighbour_offsets.
  cbn [map py_sum foldr fst snd].
  rewrite !(alive_at_up_down m w h) by done.
  replace (Z.of_nat h - 1 - (r + -1)) with (Z.of_nat h - 1 - r + 1) by lia.
  replace (Z.of_nat h - 1 - (r + 0)) with (Z.of_nat h - 1 - r + 0) by lia.
  replace (Z.of_nat h - 1 - (r + 1)) with (Z.of_nat h - 1 - r + -1) by lia.
  lia.
Qed.

Lemma next_generation_left_right (m : list (list bool)) (w h : nat) :
  has_shape m w h ->
  next_generation (map reverse m) = map reverse (next_generation m).
Proof.
  intros Hshape. destruct (mirror_shape m w h Hshape) as [Hshape' _].
  pose proof (next_generation_shape m w h Hshape) as Hnext.
  apply (matrix_ext _ _ w h).
  - by apply next_generation_shape.
  - by apply (mirror_shape _ w h).
  - intros r c Hr Hc.
    rewrite (next_generation_cell _ w h) by done.
    rewrite (alive_at_left_right _ w h) by done.
    rewrite (count_left_right _ w h) by done.
    rewrite (alive_at_left_right _ w h) by done.
    rewrite (next_generation_cell _ w h) by (done || lia). done.
Qed.

Lemma next_generation_up_down (m : list (list bool)) (w h : nat) :
  has_shape m w h ->
  next_generation (reverse m) = reverse (next_generation m).
Proof.
  intros Hshape. destruct (mirror_shape m w h Hshape) as [_ Hshape'].
  pose proof (next_generation_shape m w h Hshape) as Hnext.
  apply (matrix_ext _ _ w h).
  - by apply next_generation_shape.
  - by apply (mirror_shape _ w h).
  - intros r c Hr Hc.
    rewrite (next_generation_cell _ w h) by done.
    rewrite (alive_at_up_down _ w h) by done.
    rewrite (count_up_down _ w h) by done.
    rewrite (alive_at_up_down _ w h) by done.
    rewrite (next_generation_cell _ w h) by (done || lia). done.
Qed.

Lemma reflect_shape (left_right up_down : bool) (m : list (list bool)) (w h : nat) :
  has_shape m w h -> has_shape (reflect left_right up_down m) w h.
Proof.
  intros Hshape. unfold reflect.
  destruct left_right, up_down; simpl; try done.
  - apply (mirror_shape _ w h). by apply (mirror_shape _ w h).
  - by apply (mirror_shape _ w h).
  - by apply (mirror_shape _ w h).
Qed.

Lemma next_generation_reflect (left_right up_down : bool) (m : list (list bool))
    (w h : nat) :
  has_shape m w h ->
  next_generation (reflect left_right up_down m)
  = reflect left_right up_down (next_generation m).
Proof.
  intros Hshape. unfold reflect.
  destruct (mirror_shape m w h Hshape) as [Hlr Hud].
  destruct left_right, up_down; simpl; try done.
  - rewrite (next_generation_up_down _ w h) by done.
    by rewrite (next_generation_left_right _ w h).
  - by apply (next_generation_left_right _ w h).
  - by apply (next_generation_up_down _ w h).
Qed.

(** A step has no preferred direction: from two grids of the same sizes
    of which one is the mirror image of the other (left and right
    exchanged, top and bottom exchanged, or both), the steps of both
    programs give grids that are mirror images in the same way. *)
Theorem step_commutes_with_reflection (left_right up_down : bool)
    (g1 g2 : Game.Grid) (st1 st2 : Main.Life) :
  Game.wf g1 -> Game.get_size g2 = Game.get_size g1 ->
  Game.matrix g2 = reflect left_right up_down (Game.matrix g1) ->
  Main.ready st1 -> Main.ready st2 ->
  Main.width st2 = Main.width st1 -> Main.height st2 = Main.height st1 ->
  Main.matrix (Main.store st2) (Main.cells_table st2)
  = reflect left_right up_down (Main.matrix (Main.store st1) (Main.cells_table st1)) ->
  (exists g1' g2',
     Game.update_grid_full g1 = Ok g1' /\ Game.update_grid_full g2 = Ok g2' /\
     Game.matrix g2' = reflect left_right up_down (Game.matrix g1')) /\
  (exists st1' st2',
     Main.step st1 = Ok st1' /\ Main.step st2 = Ok st2' /\
     Main.matrix (Main.store st2') (Main.cells_table st2')
     = reflect left_right up_down
         (Main.matrix (Main.store st1') (Main.cells_table st1'))).
Proof.
  intros Hwf1 [= Hx Hy] Hg Hready1 Hready2 Hw Hh Hst. split.
  - assert (Hwf2 : Game.wf g2).
    { apply game_wf_of_matrix. rewrite Hg, Hx, Hy.
      by apply reflect_shape, game_matrix_shape. }
    destruct (game_update_grid_full g1 Hwf1) as (g1' & Hstep1 & _).
    destruct (game_update_grid_full g2 Hwf2) as (g2' & Hstep2 & _).
    destruct (game_update_is_next_generation g1 g1' Hwf1 Hstep1) as (_ & _ & _ & Hm1).
    destruct (game_update_is_next_generation g2 g2' Hwf2 Hstep2) as (_ & _ & _ & Hm2).
    exists g1', g2'. split; [done|]. split; [done|].
    rewrite Hm2, Hm1, Hg.
    by apply (next_generation_reflect _ _ _ _ _ (game_matrix_shape g1 Hwf1)).
  - destruct (main_step_is_next_generation st1 Hready1)
      as (_ & st1' & _ & Hstep1 & _ & _ & _ & _ & Hm1).
    destruct (main_step_is_next_generation st2 Hready2)
      as (_ & st2' & _ & Hstep2 & _ & _ & _ & _ & Hm2).
    exists st1', st2'. split; [done|]. split; [done|].
    rewrite Hm2, Hm1, Hst.
    by apply (next_generation_reflect _ _ _ _ _ (ready_cur_shape st1 Hready1)).
Qed.

Lemma step_commutes_with_reflection_witness :
  (exists g1' g2',
     Game.update_grid_full example_grid = Ok g1' /\
     Game.update_grid_full
       (grid_of_matrix 4 3 (reflect true true example_matrix)) = Ok g2' /\
     Game.matrix g2' = reflect true true (Game.matrix g1')) /\
  (exists st1' st2',
     Main.step example_life = Ok st1' /\
     Main.step (life_of_matrix 4 3 (reflect true true example_matrix)) = Ok st2' /\
     Main.matrix (Main.store st2') (Main.cells_table st2')
     = reflect true true
         (Main.matrix (Main.store st1') (Main.cells_table st1'))).
Proof.
  apply (step_commutes_with_reflection true true example_grid
           (grid_of_matrix 4 3 (reflect true true example_matrix))
           example_life
           (life_of_matrix 4 3 (reflect true true example_matrix)));
    [eval_wf | reflexivity | reflexivity | eval_ready | eval_ready
    | reflexivity | reflexivity | reflexivity].
Defined.

(** ** [main.py]: the tables *)

(** [randomize_table] raises, and then [ValueError], exactly when the
    width is 0.  In every other case, also with a negative width or
    height, it returns: the tables are ready for a pass, made of
    [max(height, 0)] row objects of [max(width, 0)] cells that did not
    exist before, the objects that existed are left as they were, and
    no other field changes. *)
Theorem randomize_table_outcome (st : Main.Life) (draws : nat -> bool) :
  match Main.randomize_table st draws with
  | Ok st' =>
      Main.width st <> 0 /\ Main.ready st' /\
      has_shape (Main.matrix (Main.store st') (Main.cells_table st'))
        (Z.to_nat (Main.width st)) (Z.to_nat (Main.height st)) /\
      Forall (fun l => (length (Main.store st) <= l)%nat)
        (Main.cells_table st' ++ Main.prev_cells_table st') /\
      (exists added, Main.store st' = Main.store st ++ added) /\
      Main.set_tables st' (Main.store st) (Main.cells_table st)
        (Main.prev_cells_table st) = st
  | Raise e => e = ValueError /\ Main.width st = 0
  end.
Proof.
  destruct (decide (Main.width st = 0)) as [Hw|Hw].
  { unfold Main.randomize_table, py_range3. by rewrite Hw. }
  destruct (main_randomize_table st draws Hw) as (s' & prev' & Hrand & Hready & Hfresh & _).
  rewrite Hrand. split; [done|]. split; [done|].
  pose proof (ready_cur_shape _ Hready) as Hshape.
  split; [exact Hshape|].
  cbn [Main.set_tables Main.store Main.cells_table Main.prev_cells_table].
  split; [|split].
  - apply Forall_app. split; [|done].
    apply Forall_forall. intros l Hl. apply elem_of_seq in Hl. lia.
  - unfold Main.randomize_table in Hrand.
    rewrite py_range3_rows in Hrand by done. cbn [mbind result_bind] in Hrand.
    rewrite slice_rows_spec in Hrand. unfold Main.deepcopy in Hrand.
    match type of Hrand with
    | context [Main.deepcopy_rows ?t ?m ?s0] =>
        destruct (deepcopy_rows_matrix t m s0) as (extra & Hs & _)
    end.
    + apply Forall_forall. intros l Hl. apply elem_of_seq in Hl.
      rewrite length_app, !length_map, length_seq.
      rewrite length_map, length_seq in Hl. lia.
    + done.
    + destruct (Main.deepcopy_rows _ _ _) as [s2 prev2]. simpl in Hs.
      injection Hrand as Hs2 _. subst s2 s'.
      rewrite <- app_assoc. by eexists.
  - by destruct st.
Qed.

(** The rows of a table built by [Life.__init__] are one and the same
    list object: a write to the cell of one row, as [apply_rules] makes
    them, shows in that column of every row of the table and nowhere
    else.  The other table has a row object of its own and does not
    change. *)
Theorem init_rows_are_one_object (term : option (Z * Z)) (now w h r c : Z)
    (clear_screen v : bool) :
  0 <= r < h -> 0 <= c < w ->
  exists st s,
    Main.init term now (Some w) (Some h) clear_screen = Ok st /\
    Main.write_cell (Main.store st) (Main.cells_table st) r c v = Ok s /\
    (forall r', 0 <= r' < h ->
       alive_at (Main.matrix s (Main.cells_table st)) r' c = v) /\
    (forall r' c', c' <> c ->
       alive_at (Main.matrix s (Main.cells_table st)) r' c' = false) /\
    Main.matrix s (Main.prev_cells_table st)
    = Main.matrix (Main.store st) (Main.prev_cells_table st).
Proof.
  intros Hr Hc. unfold Main.init, Main.default_size, Main.alloc.
  cbn [mbind result_bind]. cbv beta iota zeta. eexists.
  exists [<[Z.to_nat c := v]> (replicate (Z.to_nat w) false);
          replicate (Z.to_nat w) false].
  split; [reflexivity|].
  cbn [Main.store Main.cells_table Main.prev_cells_table length app].
  set (W := Z.to_nat w). set (H := Z.to_nat h).
  set (row := replicate W false).
  assert (Hwrite : Main.write_cell [row; row] (replicate H 0%nat) r c v
                   = Ok [<[Z.to_nat c := v]> row; row]).
  { rewrite <- (Z2Nat.id r), <- (Z2Nat.id c) by lia.
    rewrite (main_write_cell _ _ _ _ 0%nat).
    - by rewrite Nat2Z.id.
    - apply lookup_replicate_2. lia.
    - unfold Main.row_at. simpl. unfold row. rewrite length_replicate. lia. }
  split; [exact Hwrite|].
  unfold Main.matrix. rewrite !fmap_replicate. unfold Main.row_at.
  cbn [lookup list_lookup default id].
  split; [|split].
  - intros r' Hr'.
    rewrite (alive_at_lookup _ r' c (<[Z.to_nat c := v]> row) v); [done|lia|lia| |].
    + apply lookup_replicate_2. lia.
    + apply list_lookup_insert_eq. unfold row. rewrite length_replicate. lia.
  - intros r' c' Hc'. unfold alive_at.
    destruct ((r' <? 0) || (c' <? 0)) eqn:Hneg; [done|].
    apply orb_false_iff in Hneg as [_ Hc0]. apply Z.ltb_ge in Hc0.
    destruct (replicate H (<[Z.to_nat c := v]> row) !! Z.to_nat r')
      as [row'|] eqn:Hrow; [|done].
    apply lookup_replicate in Hrow as [-> _].
    rewrite list_lookup_insert_ne by lia.
    destruct (row !! Z.to_nat c') as [b|] eqn:Hb; [|done].
    by apply lookup_replicate in Hb as [-> _].
  - reflexivity.
Qed.

Lemma init_rows_are_one_object_witness :
  (0 <= 1 < 2 /\ 0 <= 2 < 3) /\
  exists st s,
    Main.init (Some (80, 24)) 0 (Some 3) (Some 2) true = Ok st /\
    Main.write_cell (Main.store st) (Main.cells_table st) 1 2 true = Ok s /\
    (forall r', 0 <= r' < 2 ->
       alive_at (Main.matrix s (Main.cells_table st)) r' 2 = true) /\
    (forall r' c', c' <> 2 ->
       alive_at (Main.matrix s (Main.cells_table st)) r' c' = false) /\
    Main.matrix s (Main.prev_cells_table st)
    = Main.matrix (Main.store st) (Main.prev_cells_table st).
Proof.
  split; [lia|].
  apply (init_rows_are_one_object (Some (80, 24)) 0 3 2 1 2 true true); lia.
Defined.

(** ** [main.py]: the program *)

(** The rows [randomize_table] cuts out of the random values, for every
    width and height: cell [c] of row [r] is draw [r * width + c]. *)
Lemma random_rows_matrix (draws : nat -> bool) (w h : Z) :
  map (fun k => py_slice (Main.random_choices draws (w * h))
                  (0 + Z.of_nat k * w) (0 + Z.of_nat k * w + w))
      (seq 0 (Z.to_nat h))
  = matrix_of (Z.to_nat w) (Z.to_nat h)
      (fun r c => draws (Z.to_nat (r * w + c))).
Proof.
  unfold matrix_of. apply map_ext_in. intros k Hk. apply in_seq in Hk.
  apply list_eq_same_length with (Z.to_nat w).
  - by rewrite length_map, length_seq.
  - apply random_row_length. lia.
  - intros c b1 b2 Hc Hb1 Hb2.
    rewrite random_row_lookup in Hb1 by lia.
    rewrite list_lookup_fmap, lookup_seq_lt in Hb2 by done.
    simpl in Hb2. injection Hb1 as <-. injection Hb2 as <-. f_equal. nia.
Qed.

Lemma main_returns (argv : list (list ascii))
    (parse_args : list (list ascii) -> option (Z * Z)) (w h now : Z)
    (term : option (Z * Z)) (n : nat)
    (first_draws : nat -> bool) (worlds : nat -> Main.world) :
  argv <> [] -> parse_args argv = Some (w, h) ->
  w <> 0 -> 1 <= h ->
  (forall j, Main.time_at_print (worlds j) <> now) ->
  exists st,
    Main.main argv parse_args term now n first_draws [] worlds
      (fun _ => Main.quiet) = Ok st /\
    Main.ready st /\ Main.width st = w /\ Main.height st = h /\
    Main.start_time st = now /\ Main.frame_count st = Z.of_nat n /\
    Main.matrix (Main.store st) (Main.cells_table st)
    = Nat.iter n next_generation
        (matrix_of (Z.to_nat w) (Z.to_nat h)
           (fun r c => first_draws (Z.to_nat (r * w + c)))).
Proof.
  intros Hargv Hparse Hw Hh Hclock. unfold Main.main.
  destruct argv as [|arg argv]; [done|]. rewrite Hparse.
  cbn [mbind result_bind fst snd].
  unfold Main.init, Main.default_size, Main.alloc.
  cbn [mbind result_bind]. cbv beta iota zeta. unfold Main.run.
  cbn [Main.deliver for_each mbind result_bind].
  match goal with
  | |- context [Main.randomize_table ?st0 _] =>
      destruct (main_randomize_table st0 first_draws Hw)
        as (s' & prev' & -> & Hready & _ & Hmatrix)
  end.
  cbn [mbind result_bind].
  cbn [Main.width Main.height Main.store] in Hmatrix.
  rewrite random_rows_matrix in Hmatrix.
  match goal with
  | |- context [Main.run_loop n 0 ?st0 _ _] =>
      destruct (run_loop_returns n 0 st0 worlds Hready)
        as (st & -> & Hready' & Hw' & Hh' & Htime & Hcount & Hm)
  end; [done|done|done|].
  exists st. split; [done|]. split; [done|]. split; [done|]. split; [done|].
  split; [done|]. split; [done|].
  rewrite Hm. f_equal. exact Hmatrix.
Qed.

(** [main] with an argument list from which [parse_args] reads two
    sizes, a width other than 0 (also a negative one) and at least one
    row, a clock that has moved at every print and no change of the
    window: any number [n] of passes returns, the frame counter is [n],
    and the table holds generation [n] of the matrix whose cell [c] of
    row [r] is the random value number [r * width + c]. *)
Theorem main_shows_generations (argv : list (list ascii))
    (parse_args : list (list ascii) -> option (Z * Z)) (w h now : Z)
    (term : option (Z * Z)) (n : nat)
    (first_draws : nat -> bool) (worlds : nat -> Main.world) :
  argv <> [] -> parse_args argv = Some (w, h) ->
  w <> 0 -> 1 <= h ->
  (forall j, Main.time_at_print (worlds j) <> now) ->
  exists st,
    Main.main argv parse_args term now n first_draws [] worlds
      (fun _ => Main.quiet) = Ok st /\
    Main.ready st /\ Main.width st = w /\ Main.height st = h /\
    Main.start_time st = now /\ Main.frame_count st = Z.of_nat n /\
    Main.matrix (Main.store st) (Main.cells_table st)
    = Nat.iter n next_generation
        (matrix_of (Z.to_nat w) (Z.to_nat h)
           (fun r c => first_draws (Z.to_nat (r * w + c)))).
Proof. apply main_returns. Qed.

Lemma main_shows_generations_witness :
  ([["4"%char]; ["3"%char]] <> [] /\
   (fun _ : list (list ascii) => Some (4, 3)) [["4"%char]; ["3"%char]] = Some (4, 3) /\
   4 <> 0 /\ 1 <= 3 /\
   forall j : nat, Main.time_at_print ((fun _ => example_world) j) <> 0) /\
  exists st,
    Main.main [["4"%char]; ["3"%char]] (fun _ => Some (4, 3)) (Some (80, 24)) 0 2
      Nat.even [] (fun _ => example_world) (fun _ => Main.quiet) = Ok st /\
    Main.ready st /\ Main.width st = 4 /\ Main.height st = 3 /\
    Main.start_time st = 0 /\ Main.frame_count st = Z.of_nat 2 /\
    Main.matrix (Main.store st) (Main.cells_table st)
    = Nat.iter 2 next_generation
        (matrix_of (Z.to_nat 4) (Z.to_nat 3)
           (fun r c => Nat.even (Z.to_nat (r * 4 + c)))).
Proof.
  split.
  { split; [discriminate|]. split; [reflexivity|]. split; [lia|].
    split; [lia|]. intros j. simpl. lia. }
  apply (main_shows_generations [["4"%char]; ["3"%char]] (fun _ => Some (4, 3))
           4 3 0 (Some (80, 24)) 2 Nat.even (fun _ => example_world));
    [discriminate | reflexivity | lia | lia | intros j; simpl; lia].
Defined.

(** The two programs show the same generations: fed the same sizes and
    the same random values, the script of [game.py] and [main] of
    [main.py] hold the same matrix after any number of passes. *)
Theorem programs_show_same_generations (argv : list (list ascii))
    (parse_args : list (list ascii) -> option (Z * Z)) (x y now : Z)
    (term : option (Z * Z)) (n : nat)
    (bits : nat -> bool) (worlds : nat -> Main.world) :
  argv <> [] -> parse_args argv = Some (x, y) ->
  x <> 0 -> 1 <= y ->
  (forall j, Main.time_at_print (worlds j) <> now) ->
  exists g written st,
    Game.main x y bits n = Ok (g, written) /\
    Main.main argv parse_args term now n bits [] worlds (fun _ => Main.quiet)
    = Ok st /\
    Game.get_size g = (Main.width st, Main.height st) /\
    Game.matrix g = Main.matrix (Main.store st) (Main.cells_table st).
Proof.
  intros Hargv Hparse Hx Hy Hclock.
  destruct (game_main_returns x y bits n) as (g & written & Hgame & _ & Hsize & Hg & _).
  destruct (main_returns argv parse_args x y now term n bits worlds
              Hargv Hparse Hx Hy Hclock)
    as (st & Hmain & _ & Hw & Hh & _ & _ & Hm).
  exists g, written, st. split; [done|]. split; [done|].
  split; [by rewrite Hw, Hh|]. by rewrite Hg, Hm.
Qed.

Lemma programs_show_same_generations_witness :
  ([["4"%char]; ["3"%char]] <> [] /\
   (fun _ : list (list ascii) => Some (4, 3)) [["4"%char]; ["3"%char]] = Some (4, 3) /\
   4 <> 0 /\ 1 <= 3 /\
   forall j : nat, Main.time_at_print ((fun _ => example_world) j) <> 0) /\
  exists g written st,
    Game.main 4 3 Nat.even 2 = Ok (g, written) /\
    Main.main [["4"%char]; ["3"%char]] (fun _ => Some (4, 3)) (Some (80, 24)) 0 2
      Nat.even [] (fun _ => example_world) (fun _ => Main.quiet) = Ok st /\
    Game.get_size g = (Main.width st, Main.height st) /\
    Game.matrix g = Main.matrix (Main.store st) (Main.cells_table st).
Proof.
  split.
  { split; [discriminate|]. split; [reflexivity|]. split; [lia|].
    split; [lia|]. intros j. simpl. lia. }
  apply (programs_show_same_generations [["4"%char]; ["3"%char]]
           (fun _ => Some (4, 3)) 4 3 0 (Some (80, 24)) 2 Nat.even
           (fun _ => example_world));
    [discriminate | reflexivity | lia | lia | intros j; simpl; lia].
Defined.

Lemma run_outcome (n : nat) (st : Main.Life) (first_draws : nat -> bool)
    (first_signals : list Main.handler_run)
    (worlds : nat -> Main.world) (signals : nat -> Main.interruptions) :
  match Main.run n st first_draws first_signals worlds signals with
  | Ok st' => Main.ready st'
  | Raise e =>
      e = OSError \/ e = ValueError \/ e = ZeroDivisionError \/ e = IndexError
  end.
Proof.
  unfold Main.run.
  destruct (Main.deliver first_signals st) as [st0|e] eqn:Hfirst;
    [|left; by eapply deliver_raises].
  cbn [mbind result_bind].
  destruct (decide (Main.width st0 = 0)) as [Hw|Hw].
  { unfold Main.randomize_table, py_range3. rewrite Hw. simpl. auto. }
  destruct (main_randomize_table st0 first_draws Hw) as (s' & prev' & -> & Hready & _).
  cbn [mbind result_bind]. by apply run_loop_outcome.
Qed.

(** What [main] does, for every argument list and outcome of
    [parse_args], every terminal, clock and random source, and every
    handling of the signal of a window change, at whatever points of
    whatever pass and interrupted in whatever way.  It raises
    [SystemExit] when the argument list is not empty and [parse_args]
    exits, and then only.  Otherwise it raises [OSError], [ValueError],
    [ZeroDivisionError] or [IndexError] and never [TypeError] (the
    sizes that lines 174 and 175 read are never [None]), or it makes
    its [n] passes; the tables are then ready for a pass, and
    [apply_rules] and the copy of the buffer of the pass that follows
    return. *)
Theorem main_outcome (argv : list (list ascii))
    (parse_args : list (list ascii) -> option (Z * Z))
    (term : option (Z * Z)) (now : Z) (n : nat)
    (first_draws : nat -> bool) (first_signals : list Main.handler_run)
    (worlds : nat -> Main.world) (signals : nat -> Main.interruptions) :
  match Main.main argv parse_args term now n first_draws first_signals
          worlds signals with
  | Ok st =>
      (argv = [] \/ parse_args argv <> None) /\
      Main.ready st /\ exists st', Main.step st = Ok st'
  | Raise e =>
      (e = SystemExit /\ argv <> [] /\ parse_args argv = None) \/
      ((argv = [] \/ parse_args argv <> None) /\
       (e = OSError \/ e = ValueError \/ e = ZeroDivisionError \/ e = IndexError))
  end.
Proof.
  unfold Main.main.
  assert (Hrun : forall sizes,
    argv = [] \/ parse_args argv <> None ->
    match (game ← Main.init term now sizes.1 sizes.2 true;
           Main.run n game first_draws first_signals worlds signals) with
    | Ok st =>
        (argv = [] \/ parse_args argv <> None) /\
        Main.ready st /\ exists st', Main.step st = Ok st'
    | Raise e =>
        (e = SystemExit /\ argv <> [] /\ parse_args argv = None) \/
        ((argv = [] \/ parse_args argv <> None) /\
         (e = OSError \/ e = ValueError \/ e = ZeroDivisionError \/ e = IndexError))
    end).
  { intros sizes Hparsed. unfold Main.init.
    destruct (Main.default_size term sizes.1 sizes.2) as [[w h]|e] eqn:Hsize.
    - cbn [mbind result_bind]. unfold Main.alloc. cbv beta iota zeta.
      cbn [mbind result_bind].
      match goal with
      | |- context [Main.run n ?st0 _ _ _ _] =>
          pose proof (run_outcome n st0 first_draws first_signals worlds signals)
            as Hout;
          destruct (Main.run n st0 first_draws first_signals worlds signals)
            as [st|e]
      end.
      + split; [done|]. split; [done|].
        destruct (main_step st Hout) as (st' & Hstep & _). by exists st'.
      + right. by split.
    - cbn [mbind result_bind]. right. split; [done|]. left.
      unfold Main.default_size, Main.get_terminal_size in Hsize.
      destruct sizes.1, sizes.2, term; by simplify_eq/=. }
  destruct argv as [|arg argv].
  - cbn [mbind result_bind]. apply (Hrun (None, None)). by left.
  - destruct (parse_args (arg :: argv)) as [[w h]|] eqn:Hparse.
    + cbn [mbind result_bind]. apply (Hrun (Some w, Some h)). by right.
    + cbn [mbind result_bind]. left. by repeat split.
Qed.

(** ** [main.py]: a change of the window *)

(** A change of the window that is handled before a pass begins, by a
    run of the handler that nothing interrupts, for a terminal of
    neither one column nor one line, is applied by that pass when no
    signal is handled from its guard to the end of its branch: the grid
    gets one column and one line fewer than the terminal, whatever the
    size was before, with new random tables that are ready for a pass,
    the frame counter starts again at 0 and the clock at the time of
    the change.  The request is cleared, so that a later pass whose
    guard no signal disturbs changes nothing more, and the flag
    [should_regenerate_screen] stays set. *)
Theorem window_change_is_applied_once (st : Main.Life) (size : Z * Z)
    (i : Main.interruptions) (draws : nat -> bool) (now : Z) :
  size.1 <> 1 -> size.2 <> 1 ->
  Main.before_guard i = [Main.window_change (Some size)] ->
  Main.in_guard i = [] -> Main.branch_undisturbed i ->
  exists st',
    Main.handle_resize st i draws now = Ok st' /\
    Main.width st' = size.1 - 1 /\ Main.height st' = size.2 - 1 /\
    Main.frame_count st' = 0 /\ Main.start_time st' = now /\
    Main.should_regenerate_screen st' = true /\
    Main.new_width st' = None /\ Main.new_height st' = None /\
    Main.ready st' /\
    Forall (fun l => (length (Main.store st) <= l)%nat)
      (Main.cells_table st' ++ Main.prev_cells_table st') /\
    Main.matrix (Main.store st') (Main.cells_table st')
    = matrix_of (Z.to_nat (size.1 - 1)) (Z.to_nat (size.2 - 1))
        (fun r c => draws (Z.to_nat (r * (size.1 - 1) + c))) /\
    forall i' draws' now',
      Main.guard_undisturbed i' -> Main.handle_resize st' i' draws' now' = Ok st'.
Proof.
  intros Hcolumns Hlines Hbefore Hin Hbranch.
  destruct (handle_resize_applies st
              (Main.set_pending st true (Some (size.1 - 1)) (Some (size.2 - 1)))
              i draws now (size.1 - 1) (size.2 - 1))
    as (st' & Hres & Hw & Hh & Hcount & Htime & Hnw & Hnh & Hflag & Hready
        & Hfresh & Hmatrix);
    [by rewrite Hbefore|done|done|done|done|lia|lia|].
  exists st'. do 5 (split; [done|]). split; [done|].
  do 4 (split; [done|]). split.
  - rewrite Hmatrix. apply random_rows_matrix.
  - intros i' draws' now' Hguard. apply handle_resize_skips; [done|].
    by rewrite Hnw.
Qed.

Lemma window_change_is_applied_once_witness :
  ((100, 40).1 <> 1 /\ (100, 40).2 <> 1 /\
   Main.before_guard (change_before_pass (Some (100, 40)))
   = [Main.window_change (Some (100, 40))] /\
   Main.in_guard (change_before_pass (Some (100, 40))) = [] /\
   Main.branch_undisturbed (change_before_pass (Some (100, 40)))) /\
  exists st',
    Main.handle_resize example_life (change_before_pass (Some (100, 40)))
      Nat.even 9 = Ok st' /\
    Main.width st' = (100, 40).1 - 1 /\ Main.height st' = (100, 40).2 - 1 /\
    Main.frame_count st' = 0 /\ Main.start_time st' = 9 /\
    Main.should_regenerate_screen st' = true /\
    Main.new_width st' = None /\ Main.new_height st' = None /\
    Main.ready st' /\
    Forall (fun l => (length (Main.store example_life) <= l)%nat)
      (Main.cells_table st' ++ Main.prev_cells_table st') /\
    Main.matrix (Main.store st') (Main.cells_table st')
    = matrix_of (Z.to_nat ((100, 40).1 - 1)) (Z.to_nat ((100, 40).2 - 1))
        (fun r c => Nat.even (Z.to_nat (r * ((100, 40).1 - 1) + c))) /\
    forall i' draws' now',
      Main.guard_undisturbed i' -> Main.handle_resize st' i' draws' now' = Ok st'.
Proof.
  split.
  { split; [simpl; lia|]. split; [simpl; lia|]. split; [reflexivity|].
    split; [reflexivity|]. repeat split; reflexivity. }
  apply (window_change_is_applied_once example_life (100, 40)
           (change_before_pass (Some (100, 40))) Nat.even 9);
    [simpl; lia | simpl; lia | reflexivity | reflexivity
    | repeat split; reflexivity].
Defined.

(** ** [main.py]: [print_cells_table] *)

Lemma print_rows_image (m : list (list bool)) (w h : Z) :
  has_shape m (Z.to_nat w) (Z.to_nat h) ->
  map (fun r => map (fun c => if alive_at m r c then "X"%char else " "%char)
                 (py_range w)) (py_range h)
  = map (map glyph) m.
Proof.
  intros [Hlen Hrows]. unfold py_range. rewrite map_map.
  apply list_eq_same_length with (Z.to_nat h).
  - by rewrite length_map.
  - by rewrite length_map, length_seq.
  - intros i out1 out2 Hi Hout1 Hout2.
    rewrite list_lookup_fmap, lookup_seq_lt in Hout1 by done.
    simpl in Hout1. injection Hout1 as <-.
    rewrite list_lookup_fmap in Hout2.
    destruct (m !! i) as [row|] eqn:Hrow; [|done].
    simpl in Hout2. injection Hout2 as <-.
    rewrite Forall_lookup in Hrows. pose proof (Hrows _ _ Hrow) as Hw.
    rewrite map_map.
    apply list_eq_same_length with (Z.to_nat w).
    + by rewrite length_map.
    + by rewrite length_map, length_seq.
    + intros c g1 g2 Hc Hg1 Hg2.
      rewrite list_lookup_fmap, lookup_seq_lt in Hg1 by done.
      simpl in Hg1. injection Hg1 as <-.
      rewrite list_lookup_fmap in Hg2.
      destruct (row !! c) as [b|] eqn:Hb; [|done].
      simpl in Hg2. injection Hg2 as <-.
      rewrite (alive_at_lookup m _ _ row b); [done|lia|lia| |];
        by rewrite Nat2Z.id.
Qed.

(** What [print_cells_table] prints for a table of at least one row
    when the clock has moved.  Every row but the first is the image of
    the row of the table.  The first row ends with the text of the
    frame rate.  When the text is no longer than the width, it replaces
    the last cells of the row, which keeps the width of the grid.  When
    it is longer, the start index of the slice is negative and counts
    from the end of the row: the first row is then longer than the
    grid, twice the width when the text is no longer than that, and the
    text alone otherwise. *)
Theorem print_cells_table_rows (st : Main.Life) (now : Z) (info : list ascii) :
  has_shape (Main.matrix (Main.store st) (Main.cells_table st))
    (Z.to_nat (Main.width st)) (Z.to_nat (Main.height st)) ->
  1 <= Main.height st -> now <> Main.start_time st ->
  let w := Main.width st in
  let len := Z.of_nat (length info) in
  exists first rest top,
    Main.matrix (Main.store st) (Main.cells_table st) = first :: rest /\
    Main.print_cells_table st now info = Ok (top :: map (map glyph) rest) /\
    top = take (Z.to_nat (if len <=? w then w - len
                          else if len <=? 2 * w then 2 * w - len else 0))
            (map glyph first) ++ info /\
    Z.of_nat (length top)
    = (if len <=? w then w else if len <=? 2 * w then 2 * w else len).
Proof.
  intros Hshape Hh Hnow w len. unfold Main.print_cells_table.
  rewrite (map_result_ok _
    (fun r => map (fun c => if alive_at (Main.matrix (Main.store st)
                                 (Main.cells_table st)) r c
                            then "X"%char else " "%char)
                  (py_range (Main.width st)))).
  2: { intros r Hr. apply map_result_ok. intros c Hc.
       apply elem_of_py_range in Hr, Hc.
       by rewrite (main_read_cell _ _ _ _ r c Hshape) by lia. }
  cbn [mbind result_bind]. rewrite (print_rows_image _ _ _ Hshape).
  destruct (Z.eqb_spec (now - Main.start_time st) 0); [lia|].
  destruct Hshape as [Hlen Hrows].
  destruct (Main.matrix (Main.store st) (Main.cells_table st))
    as [|first rest]; [simpl in Hlen; lia|].
  apply Forall_cons in Hrows as [Hfirst _].
  cbn [map]. rewrite (py_getitem_ok _ 0 (map glyph first)) by (lia || done).
  cbn [mbind result_bind]. rewrite py_setitem_ok by (simpl; lia).
  exists first, rest. eexists. split; [done|]. split; [reflexivity|].
  unfold py_set_tail, py_clamp. rewrite length_map, Hfirst. fold w len.
  assert (Hcut : Z.to_nat
            (Z.max 0 (Z.min (Z.of_nat (Z.to_nat w))
               (if w - len <? 0 then w - len + Z.of_nat (Z.to_nat w) else w - len)))
          = Z.to_nat (if len <=? w then w - len
                      else if len <=? 2 * w then 2 * w - len else 0)).
  { destruct (Z.ltb_spec (w - len) 0); destruct (Z.leb_spec len w);
      destruct (Z.leb_spec len (2 * w)); lia. }
  rewrite Hcut. split; [done|].
  rewrite length_app, length_take, length_map, Hfirst. fold len.
  destruct (Z.leb_spec len w); destruct (Z.leb_spec len (2 * w)); lia.
Qed.

Lemma print_cells_table_rows_witness :
  (has_shape (Main.matrix (Main.store example_life) (Main.cells_table example_life))
     (Z.to_nat (Main.width example_life)) (Z.to_nat (Main.height example_life)) /\
   1 <= Main.height example_life /\ 8 <> Main.start_time example_life) /\
  exists first rest top,
    Main.matrix (Main.store example_life) (Main.cells_table example_life)
    = first :: rest /\
    Main.print_cells_table example_life 8 [" "; "F"; "P"; "S"; ":"; "1"]%char
    = Ok (top :: map (map glyph) rest) /\
    top = take (Z.to_nat (if 6 <=? 4 then 4 - 6
                          else if 6 <=? 2 * 4 then 2 * 4 - 6 else 0))
            (map glyph first) ++ [" "; "F"; "P"; "S"; ":"; "1"]%char /\
    Z.of_nat (length top) = (if 6 <=? 4 then 4 else if 6 <=? 2 * 4 then 2 * 4 else 6).
Proof.
  split; [split; [split; [reflexivity | repeat constructor]|simpl; lia]|].
  apply (print_cells_table_rows example_life 8 [" "; "F"; "P"; "S"; ":"; "1"]%char);
    [split; [reflexivity | repeat constructor] | simpl; lia | simpl; lia].
Defined.

(** ** [main.py]: [apply_rules] without the copy of the buffer *)

Lemma life_rule_twice (b : bool) (n : Z) :
  life_rule (life_rule b n) n = life_rule b n.
Proof.
  unfold life_rule. destruct b; destruct (n =? 2); destruct (n =? 3); done.
Qed.

Lemma lookup_row_at (s : list (list bool)) (l : Main.loc) :
  (l < length s)%nat -> s !! l = Some (Main.row_at s l).
Proof.
  intros Hl. unfold Main.row_at, Main.loc in *.
  destruct (lookup_lt_is_Some_2 s l Hl) as [row Hrow]. by rewrite Hrow.
Qed.

(** [apply_rules] on tables that are separated, whatever values they
    hold: it does not raise, only the store changes, objects outside
    [cells_table] stay as they were, and every row of [cells_table]
    holds the states the rules assign from the matrix of
    [prev_cells_table]. *)
Lemma main_apply_rules_separated (st : Main.Life) :
  Main.separated st ->
  exists s',
    Main.apply_rules st = Ok (Main.set_store st s') /\
    length s' = length (Main.store st) /\
    (forall l, l ∉ Main.cells_table st -> s' !! l = Main.store st !! l) /\
    (forall i l, Main.cells_table st !! i = Some l ->
       Main.row_at s' l
       = imap (fun x b => life_rule b
                 (count_live_neighbors
                    (Main.matrix (Main.store st) (Main.prev_cells_table st))
                    (Z.of_nat i) (Z.of_nat x)))
              (Main.row_at (Main.store st) l)).
Proof.
  intros [Hcur_len Hcur_rows Hnodup Hdisj HshapeM].
  set (s := Main.store st). set (cur := Main.cells_table st).
  set (prev := Main.prev_cells_table st). set (M := Main.matrix s prev).
  set (f := fun (i x : nat) (b : bool) =>
              life_rule b (count_live_neighbors M (Z.of_nat i) (Z.of_nat x))).
  fold s prev M in HshapeM.
  pose (I := fun (visited : list (nat * Main.loc)) (st1 : Main.Life) =>
    exists s1,
      st1 = Main.set_store st s1 /\
      length s1 = length s /\
      (forall l, l ∉ visited.*2 -> s1 !! l = s !! l) /\
      (forall i l, (i, l) ∈ visited -> Main.row_at s1 l = imap (f i) (Main.row_at s l))).
  unfold Main.apply_rules.
  destruct (for_each_invariant I (Main.enumerate cur) Main.apply_rules_row st)
    as (st' & Hloop & s' & -> & Hlen & Hother & Hrows); unfold I in *; clear I.
  - exists s. split; [by rewrite set_store_same|]. split; [done|].
    split; [done|]. intros i l Hin. by apply elem_of_nil in Hin.
  - intros visited [i l] rest st1 Hxs (s1 & -> & Hlen & Hother & Hrows).
    assert (Hil : cur !! i = Some l).
    { apply elem_of_enumerate. by eapply elem_of_visiting. }
    assert (Hfresh : l ∉ visited.*2).
    { apply (visiting_fresh cur _ (rest.*2)); [done|].
      rewrite <- (snd_enumerate cur), Hxs. by rewrite fmap_app. }
    assert (Hvis : forall l', l' ∈ visited.*2 -> l' ∈ cur).
    { intros l' Hl'. rewrite <- (snd_enumerate cur), Hxs, fmap_app.
      apply elem_of_app. by left. }
    pose proof (list_elem_of_lookup_2 _ _ _ Hil) as Hlcur.
    rewrite Forall_forall in Hcur_rows, Hdisj.
    destruct (Hcur_rows l Hlcur) as [Hlt _].
    assert (Hprev : Main.matrix s1 prev = M).
    { apply main_matrix_agree. intros l' Hl'. apply Hother.
      intros Hin. by apply (Hdisj l' (Hvis l' Hin)). }
    rewrite (main_apply_rules_row (Main.set_store st s1) i l).
    + eexists. split; [reflexivity|].
      cbn [Main.set_store Main.store Main.prev_cells_table]. fold prev.
      rewrite Hprev. fold (f i).
      assert (Hrow : Main.row_at s1 l = Main.row_at s l).
      { unfold Main.row_at. by rewrite Hother. }
      rewrite Hrow. eexists. split; [reflexivity|].
      split; [by rewrite length_insert|]. split.
      * intros l' Hl'. rewrite fmap_app in Hl'.
        apply not_elem_of_app in Hl' as [Hl1 Hl2].
        rewrite list_lookup_insert_ne; [by apply Hother|].
        intros ->. apply Hl2. simpl. by apply list_elem_of_singleton.
      * intros i' l' Hin. apply elem_of_app in Hin as [Hin|Hin].
        -- rewrite main_row_at_insert. rewrite decide_False; [by apply Hrows|].
           intros [-> _]. apply Hfresh. apply list_elem_of_fmap.
           by exists (i', l').
        -- apply list_elem_of_singleton in Hin. simplify_eq.
           rewrite main_row_at_insert. rewrite decide_True; [done|].
           split; [done|]. by rewrite Hlen.
    + cbn [Main.set_store Main.store Main.prev_cells_table Main.width Main.height].
      fold prev. by rewrite Hprev.
    + done.
    + cbn [Main.set_store Main.store]. by rewrite Hlen.
    + cbn [Main.set_store Main.prev_cells_table]. by apply Hdisj.
  - exists s'. split; [done|]. split; [done|]. split.
    + intros l Hl. apply Hother. by rewrite snd_enumerate.
    + intros i l Hil. apply Hrows. by apply elem_of_enumerate.
Qed.

(** [apply_rules] takes the state of a cell from [cells_table] and the
    count of its neighbours from [prev_cells_table], which it leaves as
    it is.  So, on separated tables that may hold different values, it
    does not raise, and a second call that no copy of the buffer
    precedes changes nothing: the generations advance only through the
    copy that [run] makes after each call. *)
Theorem apply_rules_without_copy (st : Main.Life) :
  Main.separated st ->
  exists st1,
    Main.apply_rules st = Ok st1 /\
    Main.matrix (Main.store st1) (Main.prev_cells_table st1)
    = Main.matrix (Main.store st) (Main.prev_cells_table st) /\
    (forall r c, 0 <= r < Main.height st -> 0 <= c < Main.width st ->
       alive_at (Main.matrix (Main.store st1) (Main.cells_table st1)) r c
       = life_rule (alive_at (Main.matrix (Main.store st) (Main.cells_table st)) r c)
           (count_live_neighbors
              (Main.matrix (Main.store st) (Main.prev_cells_table st)) r c)) /\
    Main.apply_rules st1 = Ok st1.
Proof.
  intros Hsep.
  destruct (main_apply_rules_separated st Hsep) as (s' & Happly & Hlen & Hother & Hrows).
  pose proof Hsep as [Hcur_len Hcur_rows Hnodup Hdisj HshapeM].
  rewrite Forall_forall in Hcur_rows, Hdisj.
  assert (Hprev : Main.matrix s' (Main.prev_cells_table st)
                  = Main.matrix (Main.store st) (Main.prev_cells_table st)).
  { apply main_matrix_agree. intros l Hl. apply Hother.
    intros Hin. by apply (Hdisj l Hin). }
  assert (Hsep1 : Main.separated (Main.set_store st s')).
  { split; cbn [Main.set_store Main.store Main.cells_table Main.prev_cells_table
                Main.width Main.height]; try done.
    - apply Forall_forall. intros l Hl. destruct (Hcur_rows l Hl) as [Hlt Hw].
      split; [by rewrite Hlen|].
      apply list_elem_of_lookup in Hl as [i Hi].
      by rewrite (Hrows i l Hi), length_imap.
    - by apply Forall_forall.
    - by rewrite Hprev. }
  exists (Main.set_store st s'). split; [done|].
  cbn [Main.set_store Main.store Main.cells_table Main.prev_cells_table].
  split; [done|]. split.
  - intros r c Hr Hc.
    destruct (lookup_lt_is_Some_2 (Main.cells_table st) (Z.to_nat r)) as [l Hl];
      [lia|].
    destruct (Hcur_rows l (list_elem_of_lookup_2 _ _ _ Hl)) as [Hlt Hw].
    destruct (lookup_lt_is_Some_2 (Main.row_at (Main.store st) l) (Z.to_nat c))
      as [b Hb]; [lia|].
    rewrite (alive_at_lookup (Main.matrix (Main.store st) (Main.cells_table st))
               r c (Main.row_at (Main.store st) l) b); [|lia|lia| |done].
    2: { by rewrite main_matrix_lookup, Hl. }
    apply (alive_at_lookup _ r c (Main.row_at s' l)); [lia|lia| |].
    + by rewrite main_matrix_lookup, Hl.
    + rewrite (Hrows _ l Hl), list_lookup_imap, Hb. simpl.
      by rewrite !Z2Nat.id by lia.
  - destruct (main_apply_rules_separated _ Hsep1)
      as (s2 & Happly2 & Hlen2 & Hother2 & Hrows2).
    cbn [Main.set_store Main.store Main.cells_table Main.prev_cells_table] in *.
    rewrite Happly2. f_equal.
    replace s2 with s'; [done|].
    apply list_eq. intros l.
    destruct (decide (l ∈ Main.cells_table st)) as [Hin|Hout].
    + destruct (Hcur_rows l Hin) as [Hlt _].
      transitivity (Some (Main.row_at s' l)); [by apply lookup_row_at; lia|].
      transitivity (Some (Main.row_at s2 l));
        [|symmetry; by apply lookup_row_at; lia].
      f_equal. symmetry.
      apply list_elem_of_lookup in Hin as [i Hi].
      rewrite (Hrows2 i l Hi), Hprev, (Hrows i l Hi).
      apply list_eq. intros x. rewrite !list_lookup_imap.
      destruct (Main.row_at (Main.store st) l !! x) as [b|]; [|done].
      simpl. by rewrite life_rule_twice.
    + symmetry. by apply Hother2.
Qed.

Lemma apply_rules_without_copy_witness :
  Main.separated example_unsaved_life /\
  exists st1,
    Main.apply_rules example_unsaved_life = Ok st1 /\
    Main.matrix (Main.store st1) (Main.prev_cells_table st1)
    = Main.matrix (Main.store example_unsaved_life)
        (Main.prev_cells_table example_unsaved_life) /\
    (forall r c, 0 <= r < Main.height example_unsaved_life ->
       0 <= c < Main.width example_unsaved_life ->
       alive_at (Main.matrix (Main.store st1) (Main.cells_table st1)) r c
       = life_rule
           (alive_at (Main.matrix (Main.store example_unsaved_life)
                        (Main.cells_table example_unsaved_life)) r c)
           (count_live_neighbors
              (Main.matrix (Main.store example_unsaved_life)
                 (Main.prev_cells_table example_unsaved_life)) r c)) /\
    Main.apply_rules st1 = Ok st1.
Proof.
  assert (Hsep : Main.separated example_unsaved_life).
  { split;
      [ reflexivity
      | repeat constructor; vm_compute; lia
      | eval_decide
      | eval_decide
      | split; [reflexivity | repeat constructor] ]. }
  split; [exact Hsep|].
  apply (apply_rules_without_copy example_unsaved_life Hsep).
Defined.
